(** * blob_downloader: listing, date normalisation, date filters, downloads

    A shallow embedding of [blob_downloader.py].  The functions of the
    script keep their names.  The interpreter's library functions the
    script calls ([int], [str.split], [email.utils.parsedate_to_datetime],
    [datetime], [datetime.strptime], [urllib.parse.urlparse],
    [os.path]) are embedded from the CPython 3.11 sources, [datetime]
    from its C implementation, in the modules [Py], [Datetime],
    [EmailUtils], [Strptime] and [UrlParse].

    Conventions of the embedding:
    - Python text is a list of characters, [str], with the code points 0
      to 255.  [isspace] and [str_isdigit] are [str.isspace] and
      [str.isdigit] on these code points; [int] strips the white space
      that [int] strips; the letters and their cases are the ASCII ones.
    - A call that may raise returns [exc A]: [Ok a] or [Raise e].
    - The network is a list of responses, consumed one per request; a run
      records the URLs it handed to [SESSION.get], which may refuse a
      URL without contacting anything.
    - The local file system is a class, [FileSystem]: a state and the
      two operations the script performs on it, each of which may raise.
      A state of the file system is threaded through the downloads.
      Printing is embedded where a line can fail to be formatted, in
      the table of [list]. *)

From Stdlib Require Import List ZArith Lia Ascii Bool.
From Stdlib Require String DecimalString.
Import ListNotations String.StringSyntax.
Delimit Scope string_scope with string.
Bind Scope string_scope with String.string.
Local Open Scope Z_scope.
Local Open Scope list_scope.

(** ** Text *)

Definition str := list ascii.

Definition lit (s : String.string) : str := String.list_ascii_of_string s.

Definition code (c : ascii) : Z := Z.of_N (N_of_ascii c).

Definition chr (n : Z) : ascii := ascii_of_N (Z.to_N n).

Definition dquote : ascii := chr 34.

Fixpoint str_eqb (a b : str) : bool :=
  match a, b with
  | [], [] => true
  | x :: a', y :: b' => Ascii.eqb x y && str_eqb a' b'
  | _, _ => false
  end.

Definition len {A : Type} (l : list A) : Z := Z.of_nat (length l).

(** The decimal text of an integer, as [%d] writes it. *)
Definition decimal (n : Z) : str :=
  lit (DecimalString.NilZero.string_of_int (Z.to_int n)).

Module Py.

(** Exceptions: the class, and the message for those that carry one.
    The messages of the two [raise] statements of the script, of
    [parsedate_to_datetime] and of [datetime] are the exact texts; for
    [int] and [strptime] the text is the fixed part of the library's
    message, without the quoted argument. *)
Inductive exn : Type :=
| ValueError (msg : str)
| OverflowError (msg : str)
| TypeError (msg : str)
| OSError (msg : str)
| HTTPError
| ConnectionError
| ParseError.

Inductive exc (A : Type) : Type :=
| Ok (a : A)
| Raise (e : exn).
Arguments Ok {A} a.
Arguments Raise {A} e.

Definition bind {A B : Type} (m : exc A) (k : A -> exc B) : exc B :=
  match m with
  | Ok a => k a
  | Raise e => Raise e
  end.

(** [str.isspace] on one character of code below 256: TAB..CR, FS..US,
    SPACE, NEL and NBSP. *)
Definition isspace (c : ascii) : bool :=
  let n := code c in
  ((9 <=? n) && (n <=? 13)) || ((28 <=? n) && (n <=? 32))
  || (n =? 133) || (n =? 160).

(** The decimal digits [0]..[9]: what [int] and [\d] take. *)
Definition isdigit (c : ascii) : bool :=
  let n := code c in (48 <=? n) && (n <=? 57).

(** [str.isdigit] on one character of code below 256: the decimal
    digits and the superscripts two, three and one. *)
Definition str_isdigit (c : ascii) : bool :=
  let n := code c in
  isdigit c || (n =? 178) || (n =? 179) || (n =? 185).

Definition isupper (c : ascii) : bool :=
  let n := code c in (65 <=? n) && (n <=? 90).

Definition islower (c : ascii) : bool :=
  let n := code c in (97 <=? n) && (n <=? 122).

Definition isalpha (c : ascii) : bool := isupper c || islower c.

Definition lower_char (c : ascii) : ascii :=
  if isupper c then chr (code c + 32) else c.

Definition upper_char (c : ascii) : ascii :=
  if islower c then chr (code c - 32) else c.

Definition lower (s : str) : str := map lower_char s.
Definition upper (s : str) : str := map upper_char s.

(** [c in s] for a character. *)
Definition has (c : ascii) (s : str) : bool := existsb (Ascii.eqb c) s.

(** [x in l] for a list of texts. *)
Definition mem (x : str) (l : list str) : bool := existsb (str_eqb x) l.

(** [s.find(c)]: the first index of [c], or [-1]. *)
Fixpoint find (c : ascii) (s : str) : Z :=
  match s with
  | [] => -1
  | x :: r =>
      if Ascii.eqb x c then 0
      else let i := find c r in if i <? 0 then -1 else i + 1
  end.

(** [s.rfind(c)]: the last index of [c], or [-1]. *)
Fixpoint rfind (c : ascii) (s : str) : Z :=
  match s with
  | [] => -1
  | x :: r =>
      let i := rfind c r in
      if 0 <=? i then i + 1 else if Ascii.eqb x c then 0 else -1
  end.

(** [s[:i]] and [s[i:]] for [0 <= i]. *)
Definition upto (s : str) (i : Z) : str := firstn (Z.to_nat i) s.
Definition from (s : str) (i : Z) : str := skipn (Z.to_nat i) s.

(** [s.endswith(c)] and [s.startswith(c)] for a character. *)
Definition endswith (c : ascii) (s : str) : bool :=
  match rev s with
  | x :: _ => Ascii.eqb x c
  | [] => false
  end.

Definition startswith (c : ascii) (s : str) : bool :=
  match s with
  | x :: _ => Ascii.eqb x c
  | [] => false
  end.

(** [s.split()]: the maximal runs of non-space characters. *)
Fixpoint split_ws_from (cur : str) (s : str) : list str :=
  match s with
  | [] => match cur with [] => [] | _ => [cur] end
  | c :: r =>
      if isspace c
      then match cur with
           | [] => split_ws_from [] r
           | _ => cur :: split_ws_from [] r
           end
      else split_ws_from (cur ++ [c]) r
  end.

Definition split_ws (s : str) : list str := split_ws_from [] s.

(** [s.split(c)]: the pieces between the occurrences of [c]; never
    empty, the pieces may be. *)
Fixpoint split (c : ascii) (s : str) : list str :=
  match s with
  | [] => [[]]
  | x :: r =>
      if Ascii.eqb x c then [] :: split c r
      else match split c r with
           | h :: t => (x :: h) :: t
           | [] => [[x]]
           end
  end.

(** [s.split(c, 1)] when [c in s]: the text before the first [c] and
    the text after it. *)
Definition split1 (c : ascii) (s : str) : str * str :=
  let i := find c s in (upto s i, from s (i + 1)).

(** [s.strip()], both ends, of white space. *)
Fixpoint lstrip (s : str) : str :=
  match s with
  | c :: r => if isspace c then lstrip r else s
  | [] => []
  end.

Definition strip (s : str) : str := rev (lstrip (rev (lstrip s))).

(** The white space [int] skips at both ends of its argument: that of C
    ([Py_ISSPACE]: TAB..CR and SPACE) and, of the characters above 126,
    the white space of [str.isspace]; FS..US are not skipped. *)
Definition int_space (c : ascii) : bool :=
  let n := code c in
  ((9 <=? n) && (n <=? 13)) || (n =? 32) || (n =? 133) || (n =? 160).

Fixpoint lstrip_by (p : ascii -> bool) (s : str) : str :=
  match s with
  | c :: r => if p c then lstrip_by p r else s
  | [] => []
  end.

Definition strip_by (p : ascii -> bool) (s : str) : str :=
  rev (lstrip_by p (rev (lstrip_by p s))).

(** The digits of an [int] literal after the sign: decimal digits, with
    single underscores allowed between two digits.  Returns the value
    and the number of digits.  [prev] tells whether the previous
    character was a digit. *)
Fixpoint int_digits (prev : bool) (acc count : Z) (s : str)
  : option (Z * Z) :=
  match s with
  | [] => if prev then Some (acc, count) else None
  | c :: r =>
      if isdigit c then int_digits true (10 * acc + (code c - 48)) (count + 1) r
      else if Ascii.eqb c "_" then
             if prev then int_digits false acc count r else None
           else None
  end.

(** [int(s)], base ten: surrounding white space, an optional sign, the
    digits; more than 4300 digits are refused. *)
Definition int (s : str) : exc Z :=
  let t := strip_by int_space s in
  let '(sign, body) :=
    match t with
    | c :: r =>
        if Ascii.eqb c "-" then (-1, r)
        else if Ascii.eqb c "+" then (1, r) else (1, t)
    | [] => (1, t)
    end in
  match int_digits false 0 0 body with
  | Some (n, count) =>
      if 4300 <? count
      then Raise (ValueError (lit "Exceeds the limit (4300 digits) for integer string conversion"))
      else Ok (sign * n)
  | None => Raise (ValueError (lit "invalid literal for int() with base 10"))
  end.

End Py.
Import Py.

Notation "x <- m ;; k" := (Py.bind m (fun x => k))
  (at level 61, m at next level, right associativity).

(** ** [datetime]: calendar dates, ordinals, fixed offsets *)

Module Datetime.

Definition MINYEAR : Z := 1.
Definition MAXYEAR : Z := 9999.
Definition _MAXORDINAL : Z := 3652059.

(** The two month tables, indexed by the month; index 0 is a
    placeholder. *)
Definition _DAYS_IN_MONTH (month : Z) : Z :=
  nth (Z.to_nat month) [-1; 31; 28; 31; 30; 31; 30; 31; 31; 30; 31; 30; 31] 0.

Definition _DAYS_BEFORE_MONTH (month : Z) : Z :=
  nth (Z.to_nat month)
      [-1; 0; 31; 59; 90; 120; 151; 181; 212; 243; 273; 304; 334] 0.

Definition _is_leap (year : Z) : bool :=
  (year mod 4 =? 0) && (negb (year mod 100 =? 0) || (year mod 400 =? 0)).

Definition _days_before_year (year : Z) : Z :=
  let y := year - 1 in y * 365 + y / 4 - y / 100 + y / 400.

Definition _days_in_month (year month : Z) : Z :=
  if (month =? 2) && _is_leap year then 29 else _DAYS_IN_MONTH month.

Definition _days_before_month (year month : Z) : Z :=
  _DAYS_BEFORE_MONTH month + (if (2 <? month) && _is_leap year then 1 else 0).

Definition _ymd2ord (year month day : Z) : Z :=
  _days_before_year year + _days_before_month year month + day.

Definition _DI400Y : Z := 146097.
Definition _DI100Y : Z := 36524.
Definition _DI4Y : Z := 1461.

Definition _ord2ymd (n : Z) : Z * Z * Z :=
  let n := n - 1 in
  let n400 := n / _DI400Y in
  let n := n mod _DI400Y in
  let year := n400 * 400 + 1 in
  let n100 := n / _DI100Y in
  let n := n mod _DI100Y in
  let n4 := n / _DI4Y in
  let n := n mod _DI4Y in
  let n1 := n / 365 in
  let n := n mod 365 in
  let year := year + (n100 * 100 + n4 * 4 + n1) in
  if (n1 =? 4) || (n100 =? 4) then (year - 1, 12, 31)
  else
    let leapyear := (n1 =? 3) && (negb (n4 =? 24) || (n100 =? 3)) in
    let month := Z.shiftr (n + 50) 5 in
    let preceding :=
      _DAYS_BEFORE_MONTH month + (if (2 <? month) && leapyear then 1 else 0) in
    let '(month, preceding) :=
      if n <? preceding
      then (month - 1,
            preceding - (_DAYS_IN_MONTH (month - 1)
                         + (if (month - 1 =? 2) && leapyear then 1 else 0)))
      else (month, preceding) in
    (year, month, n - preceding + 1).

(** [datetime.date]. *)
Record date : Type := mkdate { year : Z; month : Z; day : Z }.

(** The conversion of an argument to a C [int], as the constructors of
    the C implementation of [datetime] do it before any range check. *)
Definition c_int (v : Z) : exc unit :=
  if (v <? - 2 ^ 63) || (2 ^ 63 <=? v)
  then Raise (OverflowError (lit "Python int too large to convert to C long"))
  else if 2 ^ 31 <=? v
  then Raise (OverflowError (lit "signed integer is greater than maximum"))
  else if v <? - 2 ^ 31
  then Raise (OverflowError (lit "signed integer is less than minimum"))
  else Ok tt.

Definition _check_date_fields (y m d : Z) : exc unit :=
  if negb ((MINYEAR <=? y) && (y <=? MAXYEAR))
  then Raise (ValueError (lit "year " ++ decimal y ++ lit " is out of range"))
  else if negb ((1 <=? m) && (m <=? 12))
  then Raise (ValueError (lit "month must be in 1..12"))
  else if negb ((1 <=? d) && (d <=? _days_in_month y m))
  then Raise (ValueError (lit "day is out of range for month"))
  else Ok tt.

Definition _check_time_fields (hh mm ss : Z) : exc unit :=
  if negb ((0 <=? hh) && (hh <=? 23))
  then Raise (ValueError (lit "hour must be in 0..23"))
  else if negb ((0 <=? mm) && (mm <=? 59))
  then Raise (ValueError (lit "minute must be in 0..59"))
  else if negb ((0 <=? ss) && (ss <=? 59))
  then Raise (ValueError (lit "second must be in 0..59"))
  else Ok tt.

(** [date(y, m, d)]. *)
Definition date_new (y m d : Z) : exc date :=
  _ <- c_int y ;;
  _ <- c_int m ;;
  _ <- c_int d ;;
  _ <- _check_date_fields y m d ;; Ok (mkdate y m d).

Definition toordinal (d : date) : Z := _ymd2ord (year d) (month d) (day d).

Definition fromordinal (n : Z) : date :=
  let '(y, m, d) := _ord2ymd n in mkdate y m d.

(** Comparison of dates: that of the tuples [(year, month, day)]. *)
Definition date_cmp (a b : date) : comparison :=
  match year a ?= year b with
  | Eq => match month a ?= month b with
          | Eq => day a ?= day b
          | c => c
          end
  | c => c
  end.

Definition date_eqb (a b : date) : bool :=
  match date_cmp a b with Eq => true | _ => false end.
Definition date_ltb (a b : date) : bool :=
  match date_cmp a b with Lt => true | _ => false end.
Definition date_leb (a b : date) : bool :=
  match date_cmp a b with Gt => false | _ => true end.

(** [datetime.datetime], whole seconds.  [tzinfo] is [None] for a naive
    value and [Some off] for a fixed offset of [off] seconds east of
    UTC; [Some 0] is [timezone.utc]. *)
Record datetime : Type := mkdatetime {
  dt_date : date;
  hour : Z;
  minute : Z;
  second : Z;
  tzinfo : option Z
}.

Definition utc : Z := 0.

(** [repr(timedelta(seconds=s))] for an [s] of a day or more. *)
Definition timedelta_repr (s : Z) : str :=
  lit "datetime.timedelta(days=" ++ decimal (s / 86400)
  ++ (if s mod 86400 =? 0 then []
      else lit ", seconds=" ++ decimal (s mod 86400))
  ++ lit ")".

(** [timezone(timedelta(seconds=s))]: the days of the [timedelta] must
    fit; the offset must lie strictly between minus and plus 24 hours;
    a zero offset is [timezone.utc]. *)
Definition timezone (s : Z) : exc Z :=
  let days := s / 86400 in
  if (days <? - 2 ^ 31) || (2 ^ 31 <=? days)
  then Raise (OverflowError (lit "Python int too large to convert to C int"))
  else if 999999999 <? Z.abs days
  then Raise (OverflowError (lit "days=" ++ decimal days
                             ++ lit "; must have magnitude <= 999999999"))
  else if s =? 0 then Ok utc
  else if negb ((-86400 <? s) && (s <? 86400))
  then Raise (ValueError (lit "offset must be a timedelta strictly between -timedelta(hours=24) and timedelta(hours=24), not "
                          ++ timedelta_repr s ++ lit "."))
  else Ok s.

(** [datetime(y, m, d, hh, mm, ss, tzinfo=tz)]. *)
Definition datetime_new (y m d hh mm ss : Z) (tz : option Z) : exc datetime :=
  _ <- c_int y ;;
  _ <- c_int m ;;
  _ <- c_int d ;;
  _ <- c_int hh ;;
  _ <- c_int mm ;;
  _ <- c_int ss ;;
  _ <- _check_date_fields y m d ;;
  _ <- _check_time_fields hh mm ss ;;
  Ok (mkdatetime (mkdate y m d) hh mm ss tz).

(** [dt + timedelta(seconds=s)]. *)
Definition add_seconds (dt : datetime) (s : Z) : exc datetime :=
  let total :=
    toordinal (dt_date dt) * 86400
    + hour dt * 3600 + minute dt * 60 + second dt + s in
  let days := total / 86400 in
  let secs := total mod 86400 in
  let hh := secs / 3600 in
  let rem := secs mod 3600 in
  if (0 <? days) && (days <=? _MAXORDINAL)
  then Ok (mkdatetime (fromordinal days) hh (rem / 60) (rem mod 60) (tzinfo dt))
  else Raise (OverflowError (lit "date value out of range")).

(** [dt.replace(tzinfo=tz)]. *)
Definition replace_tzinfo (dt : datetime) (tz : option Z) : datetime :=
  mkdatetime (dt_date dt) (hour dt) (minute dt) (second dt) tz.

(** [dt.astimezone(timezone.utc)] for an aware [dt]; [myoffset] is its
    offset.  A value already in [timezone.utc] is returned as it is;
    otherwise the offset is subtracted and the result is labelled UTC
    ([fromutc] then adds the zero offset of UTC). *)
Definition astimezone_utc (dt : datetime) (myoffset : Z) : exc datetime :=
  if myoffset =? utc then Ok dt
  else
    u <- add_seconds dt (- myoffset) ;;
    add_seconds (replace_tzinfo u (Some utc)) 0.

(** [dt.date()]. *)
Definition date_of (dt : datetime) : date := dt_date dt.

End Datetime.
Import Datetime.

(** ** [email.utils]: the RFC 1123 / RFC 822 date parser *)

Module EmailUtils.

Definition _monthnames : list str :=
  map lit ["jan"; "feb"; "mar"; "apr"; "may"; "jun"; "jul";
           "aug"; "sep"; "oct"; "nov"; "dec";
           "january"; "february"; "march"; "april"; "may"; "june"; "july";
           "august"; "september"; "october"; "november"; "december"]%string.

Definition _daynames : list str :=
  map lit ["mon"; "tue"; "wed"; "thu"; "fri"; "sat"; "sun"]%string.

Definition _timezones : list (str * Z) :=
  [(lit "UT", 0); (lit "UTC", 0); (lit "GMT", 0); (lit "Z", 0);
   (lit "AST", -400); (lit "ADT", -300);
   (lit "EST", -500); (lit "EDT", -400);
   (lit "CST", -600); (lit "CDT", -500);
   (lit "MST", -700); (lit "MDT", -600);
   (lit "PST", -800); (lit "PDT", -700)].

(** [l.index(x)] for an [x] that is in [l]. *)
Fixpoint index (x : str) (l : list str) : Z :=
  match l with
  | [] => 0
  | y :: r => if str_eqb x y then 0 else 1 + index x r
  end.

(** [d.get(k)]. *)
Fixpoint lookup (k : str) (d : list (str * Z)) : option Z :=
  match d with
  | [] => None
  | (k', v) :: r => if str_eqb k k' then Some v else lookup k r
  end.

(** [s[-1] == c]. *)
Definition last_is (c : ascii) (s : str) : bool := endswith c s.

(** [s[:-1]]. *)
Definition drop_last (s : str) : str := removelast s.

(** The first steps of [_parsedate_tz]: the words of the text, without
    the day name, an RFC 850 date taken apart, the zone split from the
    time; the result has five words or the text is refused. *)
Definition date_words (data : str) : option (list str) :=
  match data with
  | [] => None
  | _ =>
    match split_ws data with
    | [] => None
    | d0 :: rest =>
      let data :=
        if endswith "," d0 || mem (lower d0) _daynames then rest
        else
          let i := rfind "," d0 in
          if 0 <=? i then from d0 (i + 1) :: rest else d0 :: rest in
      let data :=
        match data with
        | [a; b; c] =>
            let stuff := split "-" a in
            if len stuff =? 3 then stuff ++ [b; c] else data
        | _ => data
        end in
      let data :=
        match data with
        | [a; b; c; s] =>
            let i := find "+" s in
            let i := if i =? -1 then find "-" s else i in
            if 0 <? i then [a; b; c; upto s i; from s i]
            else [a; b; c; s; []]
        | _ => data
        end in
      if len data <? 5 then None else Some (firstn 5 data)
    end
  end.

(** The time of day: [hh:mm], [hh:mm:ss], or the same with dots. *)
Definition time_fields (tm : str) : option (str * str * str) :=
  match split ":" tm with
  | [thh; tmm] => Some (thh, tmm, lit "0")
  | [thh; tmm; tss] => Some (thh, tmm, tss)
  | [t0] =>
      if has "." t0
      then match split "." t0 with
           | [thh; tmm] => Some (thh, tmm, lit "0")
           | [thh; tmm; tss] => Some (thh, tmm, tss)
           | _ => None
           end
      else None
  | _ => None
  end.

(** [int(s)] under [try ... except ValueError]. *)
Definition try_int (s : str) : option Z :=
  match int s with
  | Ok n => Some n
  | Raise _ => None
  end.

(** The zone: a name of the table, or a signed [hhmm] number; [-0000]
    and anything else give no offset.  The result is in seconds. *)
Definition zone_offset (tz : str) : option Z :=
  let tz := upper tz in
  let tzoffset :=
    match lookup tz _timezones with
    | Some v => Some v
    | None =>
        match try_int tz with
        | Some v => if (v =? 0) && startswith "-" tz then None else Some v
        | None => None
        end
    end in
  match tzoffset with
  | Some v =>
      if v =? 0 then Some 0
      else
        let '(tzsign, v) := if v <? 0 then (-1, - v) else (1, v) in
        Some (tzsign * ((v / 100) * 3600 + (v mod 100) * 60))
  | None => None
  end.

(** [_parsedate_tz]: year, month, day, hour, minute, second and the
    offset in seconds, or [None] when the text is refused. *)
Definition _parsedate_tz (data : str)
  : option (Z * Z * Z * Z * Z * Z * option Z) :=
  match date_words data with
  | Some [dd; mm; yy; tm; tz] =>
    if negb (negb (len dd =? 0) && negb (len mm =? 0) && negb (len yy =? 0))
    then None
    else
      let mm := lower mm in
      let '(dd, mm) := if mem mm _monthnames then (dd, mm) else (mm, lower dd) in
      if negb (mem mm _monthnames) then None
      else
        let mm := index mm _monthnames + 1 in
        let mm := if 12 <? mm then mm - 12 else mm in
        let dd := if last_is "," dd then drop_last dd else dd in
        let '(yy, tm) := if 0 <? find ":" yy then (tm, yy) else (yy, tm) in
        let yy_comma := last_is "," yy in
        let yy := if yy_comma then drop_last yy else yy in
        if yy_comma && (len yy =? 0) then None
        else
          let '(yy, tz) :=
            match yy with
            | c :: _ => if str_isdigit c then (yy, tz) else (tz, yy)
            | [] => (yy, tz)
            end in
          let tm := if last_is "," tm then drop_last tm else tm in
          match time_fields tm with
          | None => None
          | Some (thh, tmm, tss) =>
            match try_int yy, try_int dd, try_int thh, try_int tmm, try_int tss with
            | Some yy, Some dd, Some thh, Some tmm, Some tss =>
                let yy :=
                  if yy <? 100
                  then (if 68 <? yy then yy + 1900 else yy + 2000)
                  else yy in
                Some (yy, mm, dd, thh, tmm, tss, zone_offset tz)
            | _, _, _, _, _ => None
            end
          end
  | _ => None
  end.

(** [parsedate_to_datetime]. *)
Definition parsedate_to_datetime (data : str) : exc datetime :=
  match _parsedate_tz data with
  | None =>
      Raise (ValueError (lit "Invalid date value or format " ++ [dquote]
                         ++ data ++ [dquote]))
  | Some (yy, mm, dd, thh, tmm, tss, tz) =>
      match tz with
      | None => datetime_new yy mm dd thh tmm tss None
      | Some s =>
          tzinfo <- timezone s ;;
          datetime_new yy mm dd thh tmm tss (Some tzinfo)
      end
  end.

End EmailUtils.
Import EmailUtils.

(** ** [datetime.strptime] with the format [%Y-%m-%d] *)

Module Strptime.

Definition between (lo hi c : ascii) : bool :=
  (code lo <=? code c) && (code c <=? code hi).

(** One alternative of a group: the characters it must match, each by
    its test.  The result is the matched text and the rest. *)
Fixpoint alt (tests : list (ascii -> bool)) (s : str) : option (str * str) :=
  match tests with
  | [] => Some ([], s)
  | t :: ts =>
      match s with
      | c :: r =>
          if t c
          then match alt ts r with
               | Some (m, rest) => Some (c :: m, rest)
               | None => None
               end
          else None
      | [] => None
      end
  end.

(** The alternatives of a group that match at the head of [s], in the
    order of the pattern. *)
Definition alts (group : list (list (ascii -> bool))) (s : str)
  : list (str * str) :=
  flat_map (fun tests => match alt tests s with
                         | Some r => [r]
                         | None => []
                         end) group.

Definition only (c : ascii) : ascii -> bool := Ascii.eqb c.

(** [%Y]: four digits. *)
Definition group_Y : list (list (ascii -> bool)) :=
  [[isdigit; isdigit; isdigit; isdigit]].

(** [%m]: 1[0-2] | 0[1-9] | [1-9]. *)
Definition group_m : list (list (ascii -> bool)) :=
  [[only "1"; between "0" "2"]; [only "0"; between "1" "9"]; [between "1" "9"]].

(** [%d]: 3[0-1] | [1-2]\d | 0[1-9] | [1-9] | (space)[1-9]. *)
Definition group_d : list (list (ascii -> bool)) :=
  [[only "3"; between "0" "1"]; [between "1" "2"; isdigit];
   [only "0"; between "1" "9"]; [between "1" "9"]; [only " "; between "1" "9"]].

(** The first way, in backtracking order, to match the head of [s]
    with the groups and the literal dashes between them. *)
Definition regex_match (s : str) : option (str * str * str * str) :=
  hd_error
    (flat_map (fun '(Y, s1) =>
       match s1 with
       | c1 :: s1' =>
         if only "-" c1 then
           flat_map (fun '(m, s2) =>
             match s2 with
             | c2 :: s2' =>
               if only "-" c2
               then map (fun '(d, rest) => (Y, m, d, rest)) (alts group_d s2')
               else []
             | [] => []
             end) (alts group_m s1')
         else []
       | [] => []
       end) (alts group_Y s)).

(** [datetime.strptime(value, "%Y-%m-%d").date()]. *)
Definition strptime_ymd (value : str) : exc date :=
  match regex_match value with
  | None => Raise (ValueError (lit "time data does not match format '%Y-%m-%d'"))
  | Some (Y, m, d, rest) =>
      match rest with
      | _ :: _ => Raise (ValueError (lit "unconverted data remains"))
      | [] =>
          year <- int Y ;;
          month <- int m ;;
          day <- int d ;;
          date_new year month day
      end
  end.

End Strptime.
Import Strptime.

(** ** [urllib.parse.urlparse] *)

Module UrlParse.

(** The checks [urlsplit] applies to the network location it has cut
    out of a URL (the brackets of an IPv6 literal, the characters that
    NFKC normalisation turns into delimiters): they look at the network
    location alone, raise [ValueError] or pass, and pass on an empty
    one.  They are an interface of the embedding. *)
Class NetlocCheck : Type := check_netloc : str -> exc unit.

Definition scheme_chars : str :=
  lit "abcdefghijklmnopqrstuvwxyzABCDEFGHIJKLMNOPQRSTUVWXYZ0123456789+-.".

Definition uses_params : list str :=
  map lit [""; "ftp"; "hdl"; "prospero"; "http"; "imap";
           "https"; "shttp"; "rtsp"; "rtspu"; "sip"; "sips";
           "mms"; "sftp"; "tel"]%string.

(** [url.lstrip(_WHATWG_C0_CONTROL_OR_SPACE)]: the characters of code
    0 to 32. *)
Fixpoint lstrip_c0 (url : str) : str :=
  match url with
  | c :: r => if code c <=? 32 then lstrip_c0 r else url
  | [] => []
  end.

(** Tab, carriage return and line feed are removed from the URL. *)
Definition unsafe (c : ascii) : bool :=
  (code c =? 9) || (code c =? 13) || (code c =? 10).

Definition remove_unsafe (url : str) : str :=
  filter (fun c => negb (unsafe c)) url.

Definition delim (c : ascii) : bool :=
  Ascii.eqb c "/" || Ascii.eqb c "?" || Ascii.eqb c "#".

(** The text before the first character that satisfies [p], and the
    text from that character on. *)
Fixpoint break (p : ascii -> bool) (s : str) : str * str :=
  match s with
  | [] => ([], [])
  | c :: r =>
      if p c then ([], s)
      else let '(a, b) := break p r in (c :: a, b)
  end.

(** [_splitnetloc(url, 2)]: the text from index 2 to the first of
    [/ ? #], and the rest. *)
Definition _splitnetloc (url : str) : str * str := break delim (from url 2).

Record SplitResult : Type := mkSplitResult {
  s_scheme : str;
  s_netloc : str;
  s_path : str;
  s_query : str;
  s_fragment : str
}.

(** [urlsplit(url)]. *)
Definition urlsplit `{NetlocCheck} (url : str) : exc SplitResult :=
  let url := lstrip_c0 url in
  let url := remove_unsafe url in
  let i := find ":" url in
  let '(scheme, url) :=
    if (0 <? i) && (match url with c :: _ => isalpha c | [] => false end)
       && forallb (fun c => has c scheme_chars) (upto url i)
    then (lower (upto url i), from url (i + 1))
    else ([], url) in
  let '(netloc, url) :=
    if str_eqb (upto url 2) (lit "//") then _splitnetloc url else ([], url) in
  _ <- (if len netloc =? 0 then Ok tt else check_netloc netloc) ;;
  let '(url, fragment) := if has "#" url then split1 "#" url else (url, []) in
  let '(url, query) := if has "?" url then split1 "?" url else (url, []) in
  Ok (mkSplitResult scheme netloc url query fragment).

Definition _splitparams (url : str) : str * str :=
  if has "/" url then
    let j := rfind "/" url in
    let i := find ";" (from url j) in
    if i <? 0 then (url, [])
    else (upto url (j + i), from url (j + i + 1))
  else
    let i := find ";" url in
    (upto url i, from url (i + 1)).

Record ParseResult : Type := mkParseResult {
  scheme : str;
  netloc : str;
  path : str;
  params : str;
  query : str;
  fragment : str
}.

(** [urlparse(url)]. *)
Definition urlparse `{NetlocCheck} (url : str) : exc ParseResult :=
  r <- urlsplit url ;;
  let '(url, params) :=
    if mem (s_scheme r) uses_params && has ";" (s_path r)
    then _splitparams (s_path r)
    else (s_path r, []) in
  Ok (mkParseResult (s_scheme r) (s_netloc r) url params
                    (s_query r) (s_fragment r)).

End UrlParse.
Import UrlParse.

(** ** The network and the runs of the script *)

Module Net.

(** The listing document of a response, as [list_blobs] reads it: the
    [Blob] elements in document order, each with the text of its [Name]
    and, when it has a [Properties] child, the texts of [Last-Modified]
    and [Content-Length]; and the text of [NextMarker].  [findtext]
    gives [None] for a missing element and the empty text for an empty
    one. *)
Record Properties : Type := mkProperties {
  Last_Modified : option str;
  Content_Length : option str
}.

Record Blob : Type := mkBlob {
  Name : option str;
  props : option Properties
}.

Record Listing : Type := mkListing {
  Blobs : list Blob;
  NextMarker : option str
}.

(** What a call of [SESSION.get] meets: [requests] refuses the URL
    before any contact ([MissingSchema], [InvalidSchema], [InvalidURL]:
    subclasses of [ValueError]); the transfer fails; or a response
    arrives, with its status (success or not) and, when its content is
    well-formed XML, the listing it holds. *)
Inductive response : Type :=
| Unreachable
| Refused (msg : str)
| Response (ok : bool) (content : option Listing).

(** A run: the URLs given to [SESSION.get], in order; the responses not
    yet consumed; and the outcome, [None] while the last call is still
    waiting for a response. *)
Record run (A : Type) : Type := mkrun {
  requests : list str;
  pending : list response;
  outcome : option (exc A)
}.
Arguments mkrun {A}.
Arguments requests {A}.
Arguments pending {A}.
Arguments outcome {A}.

Definition io (A : Type) : Type := list response -> run A.

Definition ret {A : Type} (a : A) : io A :=
  fun net => mkrun [] net (Some (Ok a)).

Definition throw {A : Type} (e : exn) : io A :=
  fun net => mkrun [] net (Some (Raise e)).

Definition lift {A : Type} (m : exc A) : io A :=
  fun net => mkrun [] net (Some m).

Definition after {A : Type} (urls : list str) (r : run A) : run A :=
  mkrun (urls ++ requests r) (pending r) (outcome r).

Definition iobind {A B : Type} (m : io A) (k : A -> io B) : io B :=
  fun net =>
    let r := m net in
    match outcome r with
    | Some (Ok a) => after (requests r) (k a (pending r))
    | Some (Raise e) => mkrun (requests r) (pending r) (Some (Raise e))
    | None => mkrun (requests r) (pending r) None
    end.

(** What the script makes of a response: [SESSION.get] raises when it
    refuses the URL or the transfer fails, [raise_for_status] when the
    status is not a success. *)
Definition receive (r : response) : exc (option Listing) :=
  match r with
  | Unreachable => Raise ConnectionError
  | Refused msg => Raise (ValueError msg)
  | Response ok content => if ok then Ok content else Raise HTTPError
  end.

(** [SESSION.get(url)] followed by [raise_for_status()]. *)
Definition get (url : str) : io (option Listing) :=
  fun net =>
    match net with
    | [] => mkrun [url] [] None
    | r :: rest => mkrun [url] rest (Some (receive r))
    end.

End Net.
Import Net.

Notation "x <~ m ;; k" := (Net.iobind m (fun x => k))
  (at level 61, m at next level, right associativity).

(** ** The local file system *)

Module Files.

(** What the script asks of the file system.  [disk] is a state of the
    file system; [makedirs name] is [os.makedirs(name, exist_ok=True)]
    and [write_file path] is [open(path, "wb")] with the writes of the
    body and the closing of the file.  Each returns the state it leaves
    or raises; what it does on a given state is left to the instance. *)
Class FileSystem : Type := {
  disk : Type;
  makedirs : str -> disk -> exc disk;
  write_file : str -> disk -> exc disk
}.

End Files.
Import Files.

(** ** The script *)

Module BlobDownloader.

Section Script.

Context `{NetlocCheck} `{FileSystem}.

(** A row of the listing: the dict [{name, last_modified, size}]. *)
Record blob : Type := mkblob {
  name : option str;
  last_modified : option str;
  size : Z
}.

Definition _sas_params (sas_url : str) : exc str :=
  parsed <- urlparse sas_url ;;
  Ok (query parsed).

Definition _base_url (sas_url : str) : exc str :=
  parsed <- urlparse sas_url ;;
  Ok (scheme parsed ++ lit "://" ++ netloc parsed ++ path parsed).

(** The dict appended for one [Blob] element. *)
Definition blob_of (b : Blob) : exc blob :=
  let last_modified :=
    match props b with Some p => Last_Modified p | None => None end in
  let size :=
    match props b with Some p => Content_Length p | None => None end in
  n <- match size with
       | Some (c :: s) => int (c :: s)
       | _ => Ok 0
       end ;;
  Ok (mkblob (Name b) last_modified n).

(** The [for blob in root.findall(".//Blob")] loop. *)
Fixpoint blobs_of (l : list Blob) : exc (list blob) :=
  match l with
  | [] => Ok []
  | b :: r =>
      x <- blob_of b ;;
      xs <- blobs_of r ;;
      Ok (x :: xs)
  end.

(** The URL of a listing request. *)
Definition list_url (base params : str) (marker : option str) : str :=
  let url := base ++ lit "?restype=container&comp=list&" ++ params in
  match marker with
  | Some (c :: m) => url ++ lit "&marker=" ++ (c :: m)
  | _ => url
  end.

(** What one turn of the loop reads from a response: the dicts of the
    page and the text of [NextMarker]. *)
Definition read_page (r : response) : exc (list blob * option str) :=
  content <- receive r ;;
  match content with
  | None => Raise ParseError
  | Some root =>
      page <- blobs_of (Blobs root) ;;
      Ok (page, NextMarker root)
  end.

(** The [while True] loop of [list_blobs]: one response per turn. *)
Fixpoint list_blobs_loop (base params : str) (marker : option str)
         (blobs : list blob) (net : list response) : run (list blob) :=
  let url := list_url base params marker in
  match net with
  | [] => mkrun [url] [] None
  | r :: rest =>
      match read_page r with
      | Raise e => mkrun [url] rest (Some (Raise e))
      | Ok (page, next_marker) =>
          let blobs := blobs ++ page in
          match next_marker with
          | Some (c :: m) =>
              after [url] (list_blobs_loop base params (Some (c :: m)) blobs rest)
          | _ => mkrun [url] rest (Some (Ok blobs))
          end
      end
  end.

Definition list_blobs (sas_url : str) : io (list blob) :=
  base <~ lift (_base_url sas_url) ;;
  params <~ lift (_sas_params sas_url) ;;
  list_blobs_loop base params None [].

(** [os.path.join(a, b)]. *)
Definition os_path_join (a b : str) : str :=
  if startswith "/" b then b
  else if (len a =? 0) || endswith "/" a then a ++ b
  else a ++ lit "/" ++ b.

(** The URL of a blob request. *)
Definition blob_url (base blob_name params : str) : str :=
  base ++ lit "/" ++ blob_name ++ lit "?" ++ params.

(** [os.path.dirname(p)]. *)
Definition os_path_dirname (p : str) : str :=
  let i := rfind "/" p + 1 in
  let head := upto p i in
  if negb (len head =? 0) && negb (forallb (Ascii.eqb "/") head)
  then rev (lstrip_by (Ascii.eqb "/") (rev head))
  else head.

(** [os.path.dirname(out_path) or dest_dir]. *)
Definition directory_of (out_path dest_dir : str) : str :=
  match os_path_dirname out_path with
  | [] => dest_dir
  | c :: r => c :: r
  end.

(** [download_blob] on the disk [d]: the result is the path written and
    the disk as the call leaves it. *)
Definition download_blob (blob_name : option str) (dest_dir sas_url : str)
           (d : disk) : io (str * disk) :=
  base <~ lift (_base_url sas_url) ;;
  params <~ lift (_sas_params sas_url) ;;
  match blob_name with
  | None => throw (TypeError (lit "expected str, bytes or os.PathLike object, not NoneType"))
  | Some n =>
      let out_path := os_path_join dest_dir n in
      d <~ lift (makedirs (directory_of out_path dest_dir) d) ;;
      _ <~ get (blob_url base n params) ;;
      d <~ lift (write_file out_path d) ;;
      ret (out_path, d)
  end.

Definition _parse_last_modified (date_str : str) : exc datetime :=
  parsedate_to_datetime date_str.

Definition _parse_yyyy_mm_dd (value : str) : exc date :=
  match strptime_ymd value with
  | Ok d => Ok d
  | Raise (ValueError _) =>
      Raise (ValueError (lit "Invalid date '" ++ value
                         ++ lit "'. Expected YYYY-MM-DD."))
  | Raise e => Raise e
  end.

Definition _blob_modified_date (b : blob) : exc (option date) :=
  match last_modified b with
  | None => Ok None
  | Some [] => Ok None
  | Some (c :: s) =>
      dt <- _parse_last_modified (c :: s) ;;
      let '(dt, offset) :=
        match tzinfo dt with
        | None => (replace_tzinfo dt (Some utc), utc)
        | Some off => (dt, off)
        end in
      dt <- astimezone_utc dt offset ;;
      Ok (Some (date_of dt))
  end.

(** [[x for x in l if cond(x)]] with a condition that may raise. *)
Fixpoint comprehension {A : Type} (cond : A -> exc bool) (l : list A)
  : exc (list A) :=
  match l with
  | [] => Ok []
  | x :: r =>
      keep <- cond x ;;
      rest <- comprehension cond r ;;
      Ok (if keep then x :: rest else rest)
  end.

(** [for blob in blobs: download_blob(blob["name"], dest_dir, sas_url)]. *)
Fixpoint download_each (blobs : list blob) (dest_dir sas_url : str)
         (d : disk) : io disk :=
  match blobs with
  | [] => ret d
  | b :: r =>
      path <~ download_blob (name b) dest_dir sas_url d ;;
      download_each r dest_dir sas_url (snd path)
  end.

Definition _download_filtered (blobs : list blob) (label dest_dir sas_url : str)
           (d : disk) : io disk :=
  download_each blobs dest_dir sas_url d.

Definition download_all (dest_dir sas_url : str) (d : disk) : io disk :=
  blobs <~ list_blobs sas_url ;;
  download_each blobs dest_dir sas_url d.

(** [d >= cutoff], [d == target] and [start <= d <= end], with the
    truth value of [None] in the [and] of the comprehensions. *)
Definition since_cond (cutoff : date) (b : blob) : exc bool :=
  modified_date <- _blob_modified_date b ;;
  Ok (match modified_date with
      | Some d => negb (date_ltb d cutoff)
      | None => false
      end).

Definition date_cond (target : date) (b : blob) : exc bool :=
  modified_date <- _blob_modified_date b ;;
  Ok (match modified_date with
      | Some d => date_eqb d target
      | None => false
      end).

Definition range_cond (start end_ : date) (b : blob) : exc bool :=
  modified_date <- _blob_modified_date b ;;
  Ok (match modified_date with
      | Some d => date_leb start d && date_leb d end_
      | None => false
      end).

Definition download_since (since dest_dir sas_url : str) (d : disk)
  : io disk :=
  cutoff <~ lift (_parse_yyyy_mm_dd since) ;;
  blobs <~ list_blobs sas_url ;;
  filtered <~ lift (comprehension (since_cond cutoff) blobs) ;;
  _download_filtered filtered (lit "modified since " ++ since) dest_dir sas_url d.

Definition download_date (target_date dest_dir sas_url : str) (d : disk)
  : io disk :=
  target <~ lift (_parse_yyyy_mm_dd target_date) ;;
  blobs <~ list_blobs sas_url ;;
  filtered <~ lift (comprehension (date_cond target) blobs) ;;
  _download_filtered filtered (lit "modified on " ++ target_date) dest_dir sas_url d.

Definition download_range (start_date end_date dest_dir sas_url : str)
           (d : disk) : io disk :=
  start <~ lift (_parse_yyyy_mm_dd start_date) ;;
  end_ <~ lift (_parse_yyyy_mm_dd end_date) ;;
  if date_ltb end_ start
  then throw (ValueError (lit "End date must be the same as or after start date."))
  else
    blobs <~ list_blobs sas_url ;;
    filtered <~ lift (comprehension (range_cond start end_) blobs) ;;
    _download_filtered filtered
      (lit "from " ++ start_date ++ lit " to " ++ end_date) dest_dir sas_url d.

End Script.

End BlobDownloader.
Import BlobDownloader.

(** ** The vocabulary of the statements *)

Module Spec.

(** The four selections of the script under the names the specification
    gives them.  [select] is the list the download loop of the
    operation runs over: the whole listing for [download_all], the
    comprehension of the operation for the three others. *)
Inductive DateFilterSpec : Type :=
| All
| SinceInclusive (cutoff : date)
| ExactDay (target : date)
| RangeInclusive (start end_ : date).

Definition select (spec : DateFilterSpec) (records : list blob)
  : exc (list blob) :=
  match spec with
  | All => Ok records
  | SinceInclusive cutoff => comprehension (since_cond cutoff) records
  | ExactDay target => comprehension (date_cond target) records
  | RangeInclusive start end_ => comprehension (range_cond start end_) records
  end.

Definition date_scoped (spec : DateFilterSpec) : Prop :=
  match spec with
  | All => False
  | _ => True
  end.

(** The normalisation of every record of the list returns. *)
Definition normalizable (records : list blob) : Prop :=
  forall b, In b records -> exists d, _blob_modified_date b = Ok d.

(** The order of the calendar. *)
Definition date_lt (a b : date) : Prop :=
  year a < year b
  \/ (year a = year b
      /\ (month a < month b \/ (month a = month b /\ day a < day b))).

Definition date_le (a b : date) : Prop := date_lt a b \/ a = b.

(** A date of the calendar: the fields [date(y, m, d)] accepts. *)
Definition valid_date (d : date) : Prop :=
  1 <= year d <= 9999 /\ 1 <= month d <= 12
  /\ 1 <= day d <= _days_in_month (year d) (month d).

(** The instant a [datetime] denotes, in seconds, counted so that day
    [n] of the proleptic calendar starts at [86400 * n] in UTC; a naive
    value is read as UTC. *)
Definition utc_instant (dt : datetime) : Z :=
  toordinal (dt_date dt) * 86400
  + hour dt * 3600 + minute dt * 60 + second dt
  - match tzinfo dt with Some off => off | None => 0 end.

(** [out] is [l] with some elements left out. *)
Inductive subseq {A : Type} : list A -> list A -> Prop :=
| subseq_nil : subseq [] []
| subseq_skip x out l : subseq out l -> subseq out (x :: l)
| subseq_keep x out l : subseq out l -> subseq (x :: out) (x :: l).

(** [t] occurs in [s]. *)
Definition contains (s t : str) : Prop :=
  exists pre post, s = pre ++ t ++ post.

(** A record with the given [Last-Modified] text. *)
Definition stamped (n s : String.string) : blob :=
  mkblob (Some (lit n)) (Some (lit s)) 0.

(** The records whose normalised date is defined and satisfies [p]. *)
Definition dated (p : date -> bool) (b : blob) : bool :=
  match _blob_modified_date b with
  | Ok (Some d) => p d
  | _ => false
  end.

(** The records of the examples. *)
Definition feb11 : date := mkdate 2026 2 11.
Definition feb11_first : blob := stamped "a" "Wed, 11 Feb 2026 00:00:00 GMT".
Definition feb11_last : blob := stamped "b" "Wed, 11 Feb 2026 23:59:59 GMT".
Definition feb12_first : blob := stamped "c" "Thu, 12 Feb 2026 00:00:01 GMT".
Definition unparsable : blob := stamped "d" "yesterday".
Definition undated : blob := mkblob (Some (lit "e")) None 0.

(** The access URL, the blob name and the directory of the examples. *)
Definition sample_url : str :=
  lit "https://acct.blob.core.windows.net/reports?sv=2022-11-02&sig=abc%3D".
Definition sample_base : str := lit "https://acct.blob.core.windows.net/reports".
Definition sample_token : str := lit "sv=2022-11-02&sig=abc%3D".
Definition sample_name : str := lit "2026/02/report.csv".
Definition downloads : str := lit "downloads".

(** The message of [parsedate_to_datetime] for a text it refuses. *)
Definition invalid_date (s : str) : exn :=
  ValueError (lit "Invalid date value or format " ++ [dquote] ++ s ++ [dquote]).

(** The error of [_parse_yyyy_mm_dd] for the argument [value]. *)
Definition invalid_argument (value : str) : exn :=
  ValueError (lit "Invalid date '" ++ value ++ lit "'. Expected YYYY-MM-DD.").

(** The error of [download_range] for an end before the start. *)
Definition end_before_start : exn :=
  ValueError (lit "End date must be the same as or after start date.").

(** A page that asks for more: the response, the dicts read from it and
    its [NextMarker], which is not empty. *)
Definition more_page : Type := response * list blob * str.

Definition page_response (p : more_page) : response := fst (fst p).
Definition page_blobs (p : more_page) : list blob := snd (fst p).
Definition page_marker (p : more_page) : str := snd p.

Definition is_more_page (p : more_page) : Prop :=
  read_page (page_response p) = Ok (page_blobs p, Some (page_marker p))
  /\ page_marker p <> [].

(** The marker in hand after the pages [pages], starting with [marker]. *)
Definition marker_after (marker : option str) (pages : list more_page)
  : option str :=
  fold_left (fun _ p => Some (page_marker p)) pages marker.

(** The URLs requested to obtain the pages [pages], starting with
    [marker]: each request carries the marker of the page before it. *)
Fixpoint page_urls (base params : str) (marker : option str)
         (pages : list more_page) : list str :=
  match pages with
  | [] => []
  | p :: rest =>
      list_url base params marker
      :: page_urls base params (Some (page_marker p)) rest
  end.

(** Two pages of a listing for the examples: the first names a marker,
    the second ends the listing. *)
Definition first_response : response :=
  Response true
    (Some (mkListing
             [mkBlob (Some (lit "a"))
                     (Some (mkProperties
                              (Some (lit "Wed, 11 Feb 2026 00:00:00 GMT"))
                              (Some (lit "10"))))]
             (Some (lit "page2")))).

Definition last_response : response :=
  Response true
    (Some (mkListing
             [mkBlob (Some (lit "c"))
                     (Some (mkProperties
                              (Some (lit "Thu, 12 Feb 2026 00:00:01 GMT"))
                              None))]
             (Some []))).

Definition first_page : more_page :=
  (first_response,
   [mkblob (Some (lit "a")) (Some (lit "Wed, 11 Feb 2026 00:00:00 GMT")) 10],
   lit "page2").

(** A character that [urlsplit] does not remove from a URL. *)
Definition safe (c : ascii) : Prop := unsafe c = false.

(** The text is empty or starts with one of [/ ? #]. *)
Definition starts_delim (s : str) : Prop :=
  match s with
  | [] => True
  | c :: _ => delim c = true
  end.

(** A scheme as [urlsplit] returns it: a letter first, characters of
    schemes, in lower case. *)
Definition scheme_like (s : str) : Prop :=
  s <> []
  /\ match s with c :: _ => isalpha c = true | [] => True end
  /\ forallb (fun c => has c scheme_chars) s = true
  /\ lower s = s.

(** The month and the day of the [n]-th day of a year, counted from 0:
    the last step of [_ord2ymd]. *)
Definition month_day (leapyear : bool) (n : Z) : Z * Z :=
  let month := Z.shiftr (n + 50) 5 in
  let preceding :=
    _DAYS_BEFORE_MONTH month + (if (2 <? month) && leapyear then 1 else 0) in
  let '(month, preceding) :=
    if n <? preceding
    then (month - 1,
          preceding - (_DAYS_IN_MONTH (month - 1)
                       + (if (month - 1 =? 2) && leapyear then 1 else 0)))
    else (month, preceding) in
  (month, n - preceding + 1).

Definition month_day_ok (leap : bool) (n : Z) : bool :=
  let '(m, d) := month_day leap n in
  (1 <=? m) && (m <=? 12) && (1 <=? d)
  && (d <=? (if (m =? 2) && leap then 29 else _DAYS_IN_MONTH m))
  && (_DAYS_BEFORE_MONTH m + (if (2 <? m) && leap then 1 else 0) + d =? n + 1).

(** A file system for the examples: the paths of its directories and
    of its files.  [makedirs] refuses a path that is a file, [open]
    refuses a path that is a directory or ends with a slash; nothing
    else fails. *)
Record tree : Type := mktree { folders : list str; files : list str }.

Definition small_disk : FileSystem :=
  {| disk := tree;
     makedirs := fun p t =>
       if mem p (files t) then Raise (OSError (lit "File exists"))
       else Ok (mktree (p :: folders t) (files t));
     write_file := fun p t =>
       if mem p (folders t) || endswith "/" p
       then Raise (OSError (lit "Is a directory"))
       else Ok (mktree (folders t) (p :: files t)) |}.

Definition empty_disk : tree := mktree [] [].

(** A check of network locations for the examples: it accepts the
    hosts without brackets, as [urlsplit] does for ASCII text. *)
Definition plain_hosts : NetlocCheck :=
  fun n =>
    if has "[" n || has "]" n
    then Raise (ValueError (lit "Invalid IPv6 URL"))
    else Ok tt.

End Spec.
Import Spec.

(** ** The environment file *)

Module Dotenv.

(** [os.environ]: the variables with their values, in the order in which
    they were set; a name occurs once. *)
Definition environ : Type := list (str * str).

(** [env.get(key)]. *)
Fixpoint getitem (env : environ) (key : str) : option str :=
  match env with
  | [] => None
  | (k, v) :: rest => if str_eqb key k then Some v else getitem rest key
  end.

(** [os.getenv(key, default)]. *)
Definition getenv (env : environ) (key default : str) : str :=
  match getitem env key with
  | Some v => v
  | None => default
  end.

Definition nul : ascii := chr 0.

(** [os.environ.setdefault(key, value)]: a variable that is set is left
    as it is; otherwise [putenv] refuses a NUL character and a name that
    is empty or holds [=], and the variable is set. *)
Definition setdefault (env : environ) (key value : str) : environ * exc unit :=
  match getitem env key with
  | Some _ => (env, Ok tt)
  | None =>
      if has nul key || has nul value
      then (env, Raise (ValueError (lit "embedded null byte")))
      else if (len key =? 0) || has "=" key
      then (env, Raise (ValueError (lit "illegal environment variable name")))
      else (env ++ [(key, value)], Ok tt)
  end.

(** [s.strip(c)] for the one-character set [c]. *)
Fixpoint lstrip_char (c : ascii) (s : str) : str :=
  match s with
  | x :: r => if Ascii.eqb x c then lstrip_char c r else s
  | [] => []
  end.

Definition strip_char (c : ascii) (s : str) : str :=
  rev (lstrip_char c (rev (lstrip_char c s))).

(** The name and the value a line assigns, if it assigns any: the line
    without surrounding white space is not empty, is not a comment and
    holds [=]; the name is the text before the first [=] and is not
    empty. *)
Definition assignment (raw_line : str) : option (str * str) :=
  let line := strip raw_line in
  if (len line =? 0) || startswith "#" line || negb (has "=" line) then None
  else
    let '(key, value) := split1 "=" line in
    let key := strip key in
    let value := strip_char dquote (strip_char "'" (strip value)) in
    if len key =? 0 then None else Some (key, value).

(** The [for raw_line in f] loop.  The environment is returned as the
    loop leaves it, also when [setdefault] raises. *)
Fixpoint load_lines (lines : list str) (env : environ) : environ * exc unit :=
  match lines with
  | [] => (env, Ok tt)
  | raw_line :: rest =>
      match assignment raw_line with
      | None => load_lines rest env
      | Some (key, value) =>
          match setdefault env key value with
          | (env', Ok _) => load_lines rest env'
          | (env', Raise e) => (env', Raise e)
          end
      end
  end.

(** [_load_dotenv(path)]: [file] is [None] when the path does not exist
    and the lines of the file otherwise. *)
Definition _load_dotenv (file : option (list str)) (env : environ)
  : environ * exc unit :=
  match file with
  | None => (env, Ok tt)
  | Some lines => load_lines lines env
  end.

(** The two statements at the top of the script: [_load_dotenv()] and
    [BASE_SAS_URL = os.getenv("BASE_SAS_URL", default)], where the
    default is the empty text. *)
Definition BASE_SAS_URL (file : option (list str)) (env : environ) : exc str :=
  match _load_dotenv file env with
  | (env', Ok _) => Ok (getenv env' (lit "BASE_SAS_URL") [])
  | (_, Raise e) => Raise e
  end.

End Dotenv.
Import Dotenv.

(** ** The command line *)

Module Cli.

Section Commands.

Context `{NetlocCheck} `{FileSystem}.

(** The arguments as [parse_args] returns them: the subcommand with its
    own arguments. *)
Inductive Command : Type :=
| ListBlobs
| DownloadAll (output : str)
| DownloadSince (date output : str)
| DownloadDate (date output : str)
| DownloadRange (start_date end_date output : str).

(** How [main] ends: it returns, [parser.error] exits with status 2 and
    a message, or an exception leaves it. *)
Inductive ending : Type :=
| Returned
| SystemExit (status : Z) (message : str)
| Uncaught (e : exn).

Record session : Type := mksession {
  sent : list str;
  unread : list response;
  ended : option ending
}.

(** The least size whose quotient by 1024 is too large for a float. *)
Definition float_overflow : Z := (2 ^ 54 - 1) * 2 ^ 980.

(** The row of the table printed for one blob: the size in KB is a
    float, and a name that is [None] cannot be formatted. *)
Definition print_row (b : blob) : exc unit :=
  if negb (size b =? 0) && (float_overflow <=? Z.abs (size b))
  then Raise (OverflowError (lit "integer division result too large for a float"))
  else match name b with
       | None => Raise (TypeError (lit "unsupported format string passed to NoneType.__format__"))
       | Some _ => Ok tt
       end.

Fixpoint print_rows (blobs : list blob) : exc unit :=
  match blobs with
  | [] => Ok tt
  | b :: rest => _ <- print_row b ;; print_rows rest
  end.

(** The branches of [main] on [args.command], on the disk [d]; the
    result is the disk as the branch leaves it. *)
Definition dispatch (command : Command) (sas_url : str) (d : disk)
  : io disk :=
  match command with
  | ListBlobs =>
      blobs <~ list_blobs sas_url ;;
      _ <~ lift (print_rows blobs) ;;
      ret d
  | DownloadAll output => download_all output sas_url d
  | DownloadSince date output => download_since date output sas_url d
  | DownloadDate date output => download_date date output sas_url d
  | DownloadRange start_date end_date output =>
      download_range start_date end_date output sas_url d
  end.

Definition no_sas_url : str :=
  lit "No SAS URL found. Set BASE_SAS_URL in .env or pass --sas-url.".

(** [main] from the line after [parse_args]: [command] and [sas_url] are
    [args.command] with its arguments and [args.sas_url]; [d] is the
    disk it starts on. *)
Definition main (command : Command) (sas_url : str) (d : disk)
           (net : list response) : session :=
  match sas_url with
  | [] => mksession [] net (Some (SystemExit 2 no_sas_url))
  | _ =>
      let r := dispatch command sas_url d net in
      mksession (requests r) (pending r)
                match outcome r with
                | None => None
                | Some (Ok _) => Some Returned
                | Some (Raise (ValueError msg)) => Some (SystemExit 2 msg)
                | Some (Raise e) => Some (Uncaught e)
                end
  end.

End Commands.

End Cli.
Import Cli.

(** ** The vocabulary of the further statements *)

Module More.

Section Vocabulary.

Context `{NetlocCheck} `{FileSystem}.

(** The first and the last character of a text satisfy [P]. *)
Definition ends (P : ascii -> Prop) (x : str) : Prop :=
  match x with [] => False | c :: _ => P c end
  /\ match rev x with [] => False | c :: _ => P c end.

(** A complete listing: pages that ask for more, then a page that does
    not.  The responses, the URLs requested for them and the records
    they hold. *)
Definition listing_responses (pages : list more_page) (last : response)
  : list response :=
  map page_response pages ++ [last].

Definition listing_urls (base params : str) (pages : list more_page)
  : list str :=
  page_urls base params None pages
  ++ [list_url base params (marker_after None pages)].

Definition listed (pages : list more_page) (last_blobs : list blob)
  : list blob :=
  concat (map page_blobs pages) ++ last_blobs.

Definition is_last_page (last : response) (last_blobs : list blob) : Prop :=
  read_page last = Ok (last_blobs, None)
  \/ read_page last = Ok (last_blobs, Some []).

(** The URL requested for a record that has a name. *)
Definition url_of (base params : str) (b : blob) : str :=
  blob_url base (match name b with Some n => n | None => [] end) params.

(** What the download of a record that has a name does to the disk, in
    the order of [download_blob]: the directory is made, then the file
    is written. *)
Definition store (dest : str) (b : blob) (d : disk) : exc disk :=
  let out_path :=
    os_path_join dest (match name b with Some n => n | None => [] end) in
  d <- makedirs (directory_of out_path dest) d ;;
  write_file out_path d.

Fixpoint store_each (dest : str) (blobs : list blob) (d : disk) : exc disk :=
  match blobs with
  | [] => Ok d
  | b :: rest => d <- store dest b d ;; store_each dest rest d
  end.

(** The response lets [raise_for_status] pass. *)
Definition succeeds (r : response) : Prop := exists content, receive r = Ok content.

(** A row of the table of [list] can be printed: the record has a name,
    and its size divided by 1024 fits a float. *)
Definition printable (b : blob) : Prop :=
  name b <> None /\ Z.abs (size b) < float_overflow.

(** What a subcommand checks before its first request, and the filter it
    then applies: none for [list], [All] for [download-all], the parsed
    date or dates for the three others. *)
Definition command_spec (command : Command) : exc (option DateFilterSpec) :=
  match command with
  | ListBlobs => Ok None
  | DownloadAll _ => Ok (Some All)
  | DownloadSince date _ =>
      cutoff <- _parse_yyyy_mm_dd date ;; Ok (Some (SinceInclusive cutoff))
  | DownloadDate date _ =>
      target <- _parse_yyyy_mm_dd date ;; Ok (Some (ExactDay target))
  | DownloadRange start_date end_date _ =>
      start <- _parse_yyyy_mm_dd start_date ;;
      end_ <- _parse_yyyy_mm_dd end_date ;;
      if date_ltb end_ start then Raise end_before_start
      else Ok (Some (RangeInclusive start end_))
  end.

(** The output directory of a download subcommand. *)
Definition output_of (command : Command) : str :=
  match command with
  | ListBlobs => []
  | DownloadAll output => output
  | DownloadSince _ output => output
  | DownloadDate _ output => output
  | DownloadRange _ _ output => output
  end.

(** Two decimal digits and four decimal digits. *)
Definition digit (n : Z) : ascii := chr (48 + n).

Definition two_digits (n : Z) : str := [digit (n / 10); digit (n mod 10)].

Definition four_digits (n : Z) : str :=
  [digit (n / 1000); digit (n / 100 mod 10); digit (n / 10 mod 10);
   digit (n mod 10)].

(** A date written [YYYY-MM-DD]. *)
Definition iso (d : date) : str :=
  four_digits (year d) ++ "-"%char :: two_digits (month d)
  ++ "-"%char :: two_digits (day d).

(** In the words of the specification: the argument conforms to
    [YYYY-MM-DD], four digits, two digits and two digits, and names the
    calendar date [d]. *)
Definition conforms_yyyy_mm_dd (value : str) (d : date) : Prop :=
  valid_date d /\ value = iso d.

(** The ways to write a month and a day that the script accepts: two
    digits; one digit, for a number below ten; and for such a day also
    a space and one digit. *)
Definition month_texts (m : Z) : list str :=
  two_digits m :: (if m <? 10 then [[digit m]] else []).

Definition day_texts (d : Z) : list str :=
  two_digits d
  :: (if d <? 10 then [[digit d]; [" "%char; digit d]] else []).

(** The argument is a four-digit year, a month and a day in one of
    these ways, with dashes between them, and names the calendar date
    [d]. *)
Definition accepted_form (value : str) (d : date) : Prop :=
  valid_date d
  /\ exists mt dt,
       In mt (month_texts (month d)) /\ In dt (day_texts (day d))
       /\ value = four_digits (year d) ++ "-"%char :: mt ++ "-"%char :: dt.

(** All characters, and all texts that a sequence of character tests
    matches. *)
Definition all_chars : list ascii := map ascii_of_nat (seq 0 256).

Fixpoint expand (tests : list (ascii -> bool)) : list str :=
  match tests with
  | [] => [[]]
  | t :: ts => flat_map (fun c => map (cons c) (expand ts)) (filter t all_chars)
  end.

(** The records of the second page of the examples, and a last page
    whose second record carries a text that is no date. *)
Definition last_records : list blob :=
  [mkblob (Some (lit "c")) (Some (lit "Thu, 12 Feb 2026 00:00:01 GMT")) 0].

Definition stale_response : response :=
  Response true
    (Some (mkListing
             [mkBlob (Some (lit "c"))
                     (Some (mkProperties
                              (Some (lit "Thu, 12 Feb 2026 00:00:01 GMT"))
                              None));
              mkBlob (Some (lit "d"))
                     (Some (mkProperties (Some (lit "yesterday")) None))]
             None)).

Definition stale_records : list blob := last_records ++ [unparsable].

(** A record whose name lies under the name of [feb11_first], and one
    whose name ends with a slash. *)
Definition nested : blob := mkblob (Some (lit "a/b")) None 0.

Definition slashed : blob := mkblob (Some (lit "c/")) None 0.

(** The record has a name. *)
Definition named (b : blob) : Prop := name b <> None.

(** Tests of a month and of a day as [strptime] takes them. *)
Definition month_text_ok (t : str) : bool :=
  match int t with
  | Ok n => (1 <=? n) && (n <=? 12) && mem t (month_texts n)
  | Raise _ => false
  end.

Definition day_text_ok (t : str) : bool :=
  match int t with
  | Ok n => (1 <=? n) && (n <=? 31) && mem t (day_texts n)
  | Raise _ => false
  end.

End Vocabulary.

End More.
Import More.

(** ** Timestamps as the specification writes them *)

Module Rfc1123.

(** The zone of a timestamp: a name of RFC 822 that stands for an
    offset, given by its place in [zones], or a signed [hhmm]. *)
Inductive zone : Type :=
| Named (i : nat)
| Numeric (west : bool) (hh mm : Z).

(** The names, each with its offset in minutes east of UTC. *)
Definition zones : list (String.string * Z) :=
  [("UT", 0); ("GMT", 0); ("EST", -300); ("EDT", -240); ("CST", -360);
   ("CDT", -300); ("MST", -420); ("MDT", -360); ("PST", -480);
   ("PDT", -420)]%string.

Definition weekdays : list String.string :=
  ["Mon"; "Tue"; "Wed"; "Thu"; "Fri"; "Sat"; "Sun"]%string.

Definition months : list String.string :=
  ["Jan"; "Feb"; "Mar"; "Apr"; "May"; "Jun"; "Jul"; "Aug"; "Sep"; "Oct";
   "Nov"; "Dec"]%string.

(** What a timestamp says, after the grammar of RFC 822 as RFC 1123
    amends it: a day of the week, which may be left out, by its place in
    [weekdays]; the day of the month, in two digits or, when
    [w_padded] is off, in as many as it needs; the month; the year, in
    four digits; the hour and the minute; the seconds, which may be
    left out; the zone. *)
Record stamp : Type := mkstamp {
  w_weekday : option nat;
  w_day : Z;
  w_padded : bool;
  w_month : Z;
  w_year : Z;
  w_hour : Z;
  w_minute : Z;
  w_second : option Z;
  w_zone : zone
}.

Definition weekday_words (w : stamp) : list str :=
  match w_weekday w with
  | Some i => [lit (nth i weekdays "Mon"%string) ++ [","%char]]
  | None => []
  end.

Definition day_text (w : stamp) : str :=
  if w_padded w || (10 <=? w_day w) then two_digits (w_day w)
  else [digit (w_day w)].

Definition month_text (w : stamp) : str :=
  lit (nth (Z.to_nat (w_month w - 1)) months "Jan"%string).

Definition time_text (w : stamp) : str :=
  two_digits (w_hour w) ++ ":"%char :: two_digits (w_minute w)
  ++ match w_second w with
     | Some s => ":"%char :: two_digits s
     | None => []
     end.

Definition zone_text (z : zone) : str :=
  match z with
  | Named i => lit (fst (nth i zones ("GMT"%string, 0)))
  | Numeric west hh mm =>
      (if west then "-" else "+")%char :: two_digits hh ++ two_digits mm
  end.

(** The words of a timestamp, and words with one space between them. *)
Definition words (w : stamp) : list str :=
  weekday_words w
  ++ [day_text w; month_text w; four_digits (w_year w); time_text w;
      zone_text (w_zone w)].

Fixpoint join (l : list str) : str :=
  match l with
  | [] => []
  | [t] => t
  | t :: rest => t ++ " "%char :: join rest
  end.

(** The text of a timestamp: [Www, DD Mon YYYY HH:MM:SS zone]. *)
Definition text (w : stamp) : str := join (words w).

Definition zone_ok (z : zone) : Prop :=
  match z with
  | Named i => (i < length zones)%nat
  | Numeric _ hh mm => 0 <= hh <= 23 /\ 0 <= mm <= 59
  end.

(** The date written in the timestamp. *)
Definition written_date (w : stamp) : date :=
  mkdate (w_year w) (w_month w) (w_day w).

(** A well-formed timestamp: a day of the week, if any; a year of four
    digits with a month and a day of that year; a time of day, where
    the seconds may be 60 for a leap second; a zone.  The day of the
    week need not be that of the date. *)
Definition well_formed (w : stamp) : Prop :=
  match w_weekday w with
  | Some i => (i < length weekdays)%nat
  | None => True
  end
  /\ (0 <= w_year w <= 9999 /\ 1 <= w_month w <= 12
      /\ 1 <= w_day w <= _days_in_month (w_year w) (w_month w))
  /\ 0 <= w_hour w <= 23 /\ 0 <= w_minute w <= 59
  /\ match w_second w with Some s => 0 <= s <= 60 | None => True end
  /\ zone_ok (w_zone w).

(** The offset of the zone, in seconds east of UTC. *)
Definition offset (z : zone) : Z :=
  match z with
  | Named i => 60 * snd (nth i zones ("GMT"%string, 0))
  | Numeric west hh mm => (if west then -1 else 1) * (hh * 3600 + mm * 60)
  end.

Definition seconds (w : stamp) : Z :=
  match w_second w with Some s => s | None => 0 end.

(** The instant the timestamp denotes, in seconds, counted so that day
    [n] of the proleptic calendar starts at [86400 * n] in UTC. *)
Definition instant (w : stamp) : Z :=
  toordinal (written_date w) * 86400
  + w_hour w * 3600 + w_minute w * 60 + seconds w
  - offset (w_zone w).

(** What [_parsedate_tz] makes of the year and of the zone: a year
    below 100 is taken for a year of two digits; the zone [-0000] is
    taken for no zone. *)
Definition read_year (y : Z) : Z :=
  if y <? 100 then (if 68 <? y then y + 1900 else y + 2000) else y.

Definition read_zone (z : zone) : option Z :=
  match z with
  | Numeric true 0 0 => None
  | _ => Some (offset z)
  end.

(** The same timestamp with the year that the parser reads. *)
Definition as_read (w : stamp) : stamp :=
  mkstamp (w_weekday w) (w_day w) (w_padded w) (w_month w)
          (read_year (w_year w)) (w_hour w) (w_minute w) (w_second w)
          (w_zone w).

(** The timestamps of the examples. *)
Definition gmt_noon : stamp :=
  mkstamp (Some 1%nat) 11 true 2 2026 12 0 (Some 0) (Named 1).
Definition est_evening : stamp :=
  mkstamp (Some 1%nat) 11 true 2 2026 23 30 (Some 0) (Numeric true 5 0).
Definition last_evening : stamp :=
  mkstamp (Some 4%nat) 31 true 12 9999 23 30 (Some 0) (Numeric true 5 0).
Definition first_noon : stamp :=
  mkstamp (Some 0%nat) 1 true 1 1 12 0 (Some 0) (Named 1).
Definition leap_second : stamp :=
  mkstamp (Some 1%nat) 30 true 6 2015 23 59 (Some 60) (Named 1).
Definition short_form : stamp :=
  mkstamp None 1 false 2 2026 23 30 None (Numeric false 1 0).

(** Tests over the finitely many words of a timestamp. *)
Definition upto_n (n : nat) : list Z := map Z.of_nat (seq 0 n).

Definition no_space (t : str) : bool := forallb (fun c => negb (isspace c)) t.

Definition number_ok (t : str) (n : Z) : bool :=
  negb (len t =? 0) && no_space t && negb (endswith "," t)
  && negb (has ":" t)
  && negb (mem (lower t) _daynames) && negb (0 <=? rfind "," t)
  && match try_int t with Some v => v =? n | None => false end.

Definition pair_ok (n : Z) : bool := number_ok (two_digits n) n.

Definition short_ok (n : Z) : bool := number_ok [digit n] n.

Definition numeric_zone_ok (west : bool) (v : Z) : bool :=
  let z := Numeric west (v / 60) (v mod 60) in
  no_space (zone_text z)
  && match zone_offset (zone_text z), read_zone z with
     | Some a, Some b => a =? b
     | None, None => true
     | _, _ => false
     end.

Definition leap_kept (y : Z) : bool :=
  Bool.eqb (_is_leap (read_year y)) (_is_leap y).

(** The months of a year follow one another: month [k / 12 + 1] ends
    before month [k mod 12 + 1] starts, when it is the earlier one. *)
Definition month_order_ok (leap : bool) (k : Z) : bool :=
  let a := k / 12 + 1 in
  let b := k mod 12 + 1 in
  (b <=? a)
  || (_DAYS_BEFORE_MONTH a + (if (2 <? a) && leap then 1 else 0)
      + (if (a =? 2) && leap then 29 else _DAYS_IN_MONTH a)
      <=? _DAYS_BEFORE_MONTH b + (if (2 <? b) && leap then 1 else 0)).

End Rfc1123.
Import Rfc1123.

(** * Proofs *)

(** ** Dates *)

Section Dates.

Lemma date_cmp_eq (a b : date) : date_cmp a b = Eq <-> a = b.
Proof.
  destruct a as [y m d], b as [y' m' d']. unfold date_cmp. cbn [year month day].
  split.
  - destruct (y ?= y') eqn:Ey; try discriminate.
    destruct (m ?= m') eqn:Em; try discriminate.
    intros Ed. apply Z.compare_eq in Ey, Em, Ed. congruence.
  - intros E. injection E as -> -> ->. now rewrite !Z.compare_refl.
Qed.

Lemma date_cmp_lt (a b : date) : date_cmp a b = Lt <-> date_lt a b.
Proof.
  destruct a as [y m d], b as [y' m' d'].
  unfold date_cmp, date_lt. cbn [year month day].
  destruct (Z.compare_spec y y') as [Ey | Ey | Ey].
  - destruct (Z.compare_spec m m') as [Em | Em | Em].
    + destruct (Z.compare_spec d d') as [Ed | Ed | Ed];
        (split; [try discriminate; intros _; lia
                | intros L; try reflexivity; exfalso; lia]).
    + split; [intros _; lia | reflexivity].
    + split; [discriminate | intros L; exfalso; lia].
  - split; [intros _; lia | reflexivity].
  - split; [discriminate | intros L; exfalso; lia].
Qed.

Lemma date_cmp_gt (a b : date) : date_cmp a b = Gt <-> date_lt b a.
Proof.
  destruct a as [y m d], b as [y' m' d'].
  unfold date_cmp, date_lt. cbn [year month day].
  destruct (Z.compare_spec y y') as [Ey | Ey | Ey].
  - destruct (Z.compare_spec m m') as [Em | Em | Em].
    + destruct (Z.compare_spec d d') as [Ed | Ed | Ed];
        (split; [try discriminate; intros _; lia
                | intros L; try reflexivity; exfalso; lia]).
    + split; [discriminate | intros L; exfalso; lia].
    + split; [intros _; lia | reflexivity].
  - split; [discriminate | intros L; exfalso; lia].
  - split; [intros _; lia | reflexivity].
Qed.

Lemma date_eqb_eq (a b : date) : date_eqb a b = true <-> a = b.
Proof.
  unfold date_eqb. rewrite <- date_cmp_eq.
  destruct (date_cmp a b); split; congruence.
Qed.

Lemma date_ltb_lt (a b : date) : date_ltb a b = true <-> date_lt a b.
Proof.
  unfold date_ltb. rewrite <- date_cmp_lt.
  destruct (date_cmp a b); split; congruence.
Qed.

Lemma date_lt_irrefl (a : date) : ~ date_lt a a.
Proof. unfold date_lt. lia. Qed.

Lemma date_lt_asym (a b : date) : date_lt a b -> ~ date_lt b a.
Proof. unfold date_lt. lia. Qed.

Lemma date_leb_le (a b : date) : date_leb a b = true <-> date_le a b.
Proof.
  unfold date_leb, date_le.
  destruct (date_cmp a b) eqn:E.
  - apply date_cmp_eq in E. tauto.
  - apply date_cmp_lt in E. tauto.
  - apply date_cmp_gt in E. split; [discriminate|].
    intros [L | ->].
    + exfalso. exact (date_lt_asym _ _ L E).
    + exfalso. exact (date_lt_irrefl _ E).
Qed.

(** [d >= cutoff], as the script tests it, is the order of the
    calendar. *)
Lemma date_geb_le (d cutoff : date) :
  negb (date_ltb d cutoff) = true <-> date_le cutoff d.
Proof.
  rewrite negb_true_iff. unfold date_ltb, date_le.
  destruct (date_cmp d cutoff) eqn:E.
  - apply date_cmp_eq in E. split; auto.
  - apply date_cmp_lt in E. split; [discriminate|].
    intros [L | ->].
    + exfalso. exact (date_lt_asym _ _ L E).
    + exfalso. exact (date_lt_irrefl _ E).
  - apply date_cmp_gt in E. split; auto.
Qed.



End Dates.

(** ** Comprehensions and subsequences *)

Section Comprehension.

Context {A : Type}.
Implicit Types (cond : A -> exc bool) (l out : list A).


Lemma comprehension_filter cond (p : A -> bool) l :
  (forall x, In x l -> cond x = Ok (p x)) ->
  comprehension cond l = Ok (filter p l).
Proof.
  induction l as [|x l IH]; intros E; [reflexivity|].
  cbn [comprehension filter]. rewrite (E x (or_introl eq_refl)).
  rewrite IH by (intros y Hy; apply E; now right).
  cbn [bind]. now destruct (p x).
Qed.

Lemma comprehension_inv cond l out :
  comprehension cond l = Ok out ->
  exists p : A -> bool,
    (forall x, In x l -> cond x = Ok (p x)) /\ out = filter p l.
Proof.
  revert out. induction l as [|x l IH]; intros out E.
  - injection E as <-. exists (fun _ => true). split; [intros x []|reflexivity].
  - cbn [comprehension] in E.
    destruct (cond x) as [k|e] eqn:Ex; [|discriminate].
    cbn [bind] in E.
    destruct (comprehension cond l) as [rest|e] eqn:El; [|discriminate].
    cbn [bind] in E. injection E as <-.
    destruct (IH rest eq_refl) as (p & Hp & ->).
    exists (fun y => match cond y with Ok b => b | Raise _ => false end).
    split.
    + intros y [<- | Hy].
      * now rewrite Ex.
      * now rewrite (Hp y Hy).
    + cbn [filter]. rewrite Ex.
      assert (filter p l
              = filter (fun y => match cond y with Ok b => b | Raise _ => false end) l)
        as ->.
      { apply filter_ext_in. intros y Hy. now rewrite (Hp y Hy). }
      reflexivity.
Qed.

Lemma comprehension_In cond l out :
  comprehension cond l = Ok out ->
  forall x, In x out <-> In x l /\ cond x = Ok true.
Proof.
  intros E x. destruct (comprehension_inv _ _ _ E) as (p & Hp & ->).
  rewrite filter_In. split.
  - intros [Hx Px]. split; [assumption|]. rewrite (Hp x Hx). now f_equal.
  - intros [Hx Cx]. split; [assumption|]. rewrite (Hp x Hx) in Cx. congruence.
Qed.

Lemma comprehension_raises cond l x e :
  In x l -> cond x = Raise e -> forall out, comprehension cond l <> Ok out.
Proof.
  intros Hx Cx out E. destruct (comprehension_inv _ _ _ E) as (p & Hp & _).
  rewrite (Hp x Hx) in Cx. discriminate.
Qed.

Lemma filter_subseq (p : A -> bool) l : subseq (filter p l) l.
Proof.
  induction l as [|x l IH]; cbn [filter]; [constructor|].
  destruct (p x); now constructor.
Qed.

Lemma comprehension_subseq cond l out :
  comprehension cond l = Ok out -> subseq out l.
Proof.
  intros E. destruct (comprehension_inv _ _ _ E) as (p & _ & ->).
  apply filter_subseq.
Qed.

Lemma subseq_refl l : subseq l l.
Proof. induction l; now constructor. Qed.

Lemma subseq_In out l : subseq out l -> forall x, In x out -> In x l.
Proof.
  induction 1 as [|y out l _ IH|y out l _ IH]; intros x Hx.
  - assumption.
  - right. now apply IH.
  - destruct Hx as [<- | Hx]; [now left | right; now apply IH].
Qed.

Lemma subseq_NoDup out l : subseq out l -> NoDup l -> NoDup out.
Proof.
  induction 1 as [|y out l S IH|y out l S IH]; intros N.
  - assumption.
  - inversion N; subst. now apply IH.
  - inversion N as [|? ? Hy N']; subst. constructor.
    + intros Hin. apply Hy. exact (subseq_In _ _ S _ Hin).
    + now apply IH.
Qed.

Lemma subseq_length out l : subseq out l -> (length out <= length l)%nat.
Proof. induction 1; cbn [length]; lia. Qed.

End Comprehension.

(** ** The three conditions *)

Section Conditions.

Lemma date_cond_true (target : date) (b : blob) :
  date_cond target b = Ok true <-> _blob_modified_date b = Ok (Some target).
Proof.
  unfold date_cond. destruct (_blob_modified_date b) as [[d|]|e]; cbn [bind].
  - split; intros E.
    + injection E as E. apply date_eqb_eq in E. now subst.
    + injection E as ->. f_equal. now apply date_eqb_eq.
  - split; discriminate.
  - split; discriminate.
Qed.

Lemma since_cond_true (cutoff : date) (b : blob) :
  since_cond cutoff b = Ok true
  <-> exists d, _blob_modified_date b = Ok (Some d) /\ date_le cutoff d.
Proof.
  unfold since_cond. destruct (_blob_modified_date b) as [[d|]|e]; cbn [bind].
  - split.
    + intros E. injection E as E. exists d. split; [reflexivity|].
      now apply date_geb_le.
    + intros (d' & E & L). injection E as <-. f_equal. now apply date_geb_le.
  - split; [discriminate | intros (d & E & _); discriminate].
  - split; [discriminate | intros (d & E & _); discriminate].
Qed.

Lemma range_cond_true (start end_ : date) (b : blob) :
  range_cond start end_ b = Ok true
  <-> exists d, _blob_modified_date b = Ok (Some d)
                /\ date_le start d /\ date_le d end_.
Proof.
  unfold range_cond. destruct (_blob_modified_date b) as [[d|]|e]; cbn [bind].
  - split.
    + intros E. injection E as E. apply andb_true_iff in E. destruct E as [E1 E2].
      exists d. rewrite <- !date_leb_le. auto.
    + intros (d' & E & L1 & L2). injection E as <-. f_equal.
      apply andb_true_iff. rewrite !date_leb_le. auto.
  - split; [discriminate | intros (d & E & _); discriminate].
  - split; [discriminate | intros (d & E & _); discriminate].
Qed.

(** A condition returns when the normalisation does, and raises what
    the normalisation raises. *)
Lemma cond_returns (spec : DateFilterSpec) (b : blob) (d : option date) :
  _blob_modified_date b = Ok d ->
  match spec with
  | All => True
  | SinceInclusive cutoff => exists k, since_cond cutoff b = Ok k
  | ExactDay target => exists k, date_cond target b = Ok k
  | RangeInclusive start end_ => exists k, range_cond start end_ b = Ok k
  end.
Proof.
  intros E. destruct spec; unfold since_cond, date_cond, range_cond;
    rewrite ?E; cbn [bind]; eauto.
Qed.

Lemma cond_raises (spec : DateFilterSpec) (b : blob) (e : exn) :
  _blob_modified_date b = Raise e ->
  match spec with
  | All => True
  | SinceInclusive cutoff => since_cond cutoff b = Raise e
  | ExactDay target => date_cond target b = Raise e
  | RangeInclusive start end_ => range_cond start end_ b = Raise e
  end.
Proof.
  intros E. destruct spec; unfold since_cond, date_cond, range_cond;
    rewrite ?E; cbn [bind]; eauto.
Qed.

Lemma select_returns (spec : DateFilterSpec) (records : list blob) :
  normalizable records -> exists out, select spec records = Ok out.
Proof.
  intros N.
  assert (forall cond : blob -> exc bool,
             (forall b, In b records -> exists k, cond b = Ok k) ->
             exists out, comprehension cond records = Ok out) as K.
  { intros cond Hc. clear N.
    induction records as [|b l IH]; [now exists []|].
    destruct (Hc b (or_introl eq_refl)) as (k & Ek).
    destruct IH as (rest & Er); [intros; apply Hc; now right|].
    cbn [comprehension]. rewrite Ek, Er. cbn [bind]. eauto. }
  destruct spec; cbn [select]; [eauto | apply K | apply K | apply K];
    intros b Hb; destruct (N b Hb) as (d & Ed).
  - exact (cond_returns (SinceInclusive cutoff) b d Ed).
  - exact (cond_returns (ExactDay target) b d Ed).
  - exact (cond_returns (RangeInclusive start end_) b d Ed).
Qed.

(** A record whose normalisation raises leaves a date-scoped selection
    without a result. *)
Lemma select_aborts (spec : DateFilterSpec) (records : list blob)
      (b : blob) (e : exn) :
  date_scoped spec -> In b records -> _blob_modified_date b = Raise e ->
  forall out, select spec records <> Ok out.
Proof.
  intros S Hb E.
  pose proof (cond_raises spec b e E) as R.
  destruct spec; cbn [select]; [destruct S | | |];
    eapply comprehension_raises; eauto.
Qed.

End Conditions.

(** ** Runs *)

Section Runs.

Lemma iobind_ext {A B : Type} (m : io A) (k k' : A -> io B) (net : list response) :
  (forall a net', k a net' = k' a net') -> iobind m k net = iobind m k' net.
Proof.
  intros E. unfold iobind. destruct (outcome (m net)) as [[a|e]|]; [|reflexivity..].
  now rewrite E.
Qed.

Lemma iobind_lift_ok {A B : Type} (a : A) (k : A -> io B) (net : list response) :
  iobind (lift (Ok a)) k net = k a net.
Proof.
  unfold iobind, lift, after. cbn. now destruct (k a net).
Qed.

Lemma iobind_lift_raise {A B : Type} (e : exn) (k : A -> io B) (net : list response) :
  iobind (lift (Raise e)) k net = mkrun [] net (Some (Raise e)).
Proof. reflexivity. Qed.

End Runs.

(** ** The date filters *)

Section Filters.

Context `{NetlocCheck} `{FileSystem}.

(** [select] is the list each operation downloads. *)
Lemma operations_select (dest sas_url : str) (fs : disk) (net : list response) :
  download_all dest sas_url fs net
  = (blobs <~ list_blobs sas_url ;;
     filtered <~ lift (select All blobs) ;;
     download_each filtered dest sas_url fs) net
  /\ (forall since,
        download_since since dest sas_url fs net
        = (cutoff <~ lift (_parse_yyyy_mm_dd since) ;;
           blobs <~ list_blobs sas_url ;;
           filtered <~ lift (select (SinceInclusive cutoff) blobs) ;;
           download_each filtered dest sas_url fs) net)
  /\ (forall target_date,
        download_date target_date dest sas_url fs net
        = (target <~ lift (_parse_yyyy_mm_dd target_date) ;;
           blobs <~ list_blobs sas_url ;;
           filtered <~ lift (select (ExactDay target) blobs) ;;
           download_each filtered dest sas_url fs) net).
Proof.
  split; [|split; reflexivity].
  unfold download_all. apply iobind_ext. intros blobs net'.
  cbn [select]. now rewrite iobind_lift_ok.
Qed.


(** C8.  What a filter returns is its input with some records left out:
    the order is kept, every record comes from the input, and a record
    is not repeated more often than in the input. *)
Theorem filter_output_is_subsequence
        (spec : DateFilterSpec) (records out : list blob) :
  select spec records = Ok out ->
  subseq out records
  /\ (forall b, In b out -> In b records)
  /\ (NoDup records -> NoDup out)
  /\ (length out <= length records)%nat.
Proof.
  intros E.
  assert (subseq out records) as S.
  { destruct spec; cbn [select] in E.
    - injection E as <-. apply subseq_refl.
    - exact (comprehension_subseq _ _ _ E).
    - exact (comprehension_subseq _ _ _ E).
    - exact (comprehension_subseq _ _ _ E). }
  split; [exact S|]. split; [exact (subseq_In _ _ S)|].
  split; [exact (subseq_NoDup _ _ S) | exact (subseq_length _ _ S)].
Qed.

End Filters.

Section DateScopedFilters.

Lemma dated_cond (cond : blob -> exc bool) (p : date -> bool) (records : list blob) :
  normalizable records ->
  (forall b, cond b = (d <- _blob_modified_date b ;;
                       Ok (match d with Some d => p d | None => false end))) ->
  comprehension cond records = Ok (filter (dated p) records).
Proof.
  intros N E. apply comprehension_filter. intros b Hb.
  destruct (N b Hb) as (d & Ed). rewrite E. unfold dated. rewrite Ed.
  cbn [bind]. now destruct d.
Qed.

Lemma three_normalizable : normalizable [feb11_first; feb11_last; feb12_first].
Proof.
  intros b [<- | [<- | [<- | []]]]; eexists; vm_compute; reflexivity.
Qed.

(** C3, as the script has it.  When the normalisation of every record
    of the list returns (the timestamp is absent, empty, or parses to a
    representable date), the exact-day filter returns, in the order of
    the input, the records whose normalised UTC date is the target, and
    no other; for 2026-02-11 and records of 2026-02-11 00:00:00,
    2026-02-11 23:59:59 and 2026-02-12 00:00:01 UTC these are the first
    two. *)
Theorem exact_day_selects_the_day (target : date) (records : list blob) :
  normalizable records ->
  (exists out,
      select (ExactDay target) records = Ok out
      /\ out = filter (dated (fun d => date_eqb d target)) records
      /\ forall b, In b out
                   <-> In b records /\ _blob_modified_date b = Ok (Some target))
  /\ (target <- _parse_yyyy_mm_dd (lit "2026-02-11") ;;
      select (ExactDay target) [feb11_first; feb11_last; feb12_first])
     = Ok [feb11_first; feb11_last].
Proof.
  intros N. split; [|vm_compute; reflexivity].
  assert (select (ExactDay target) records
          = Ok (filter (dated (fun d => date_eqb d target)) records)) as E.
  { cbn [select]. apply dated_cond; [exact N | reflexivity]. }
  eexists. split; [exact E|]. split; [reflexivity|].
  intros b. rewrite (comprehension_In _ _ _ E). now rewrite date_cond_true.
Qed.

Lemma exact_day_selects_the_day_witness :
  (exists out,
      select (ExactDay feb11) [feb11_first; feb11_last; feb12_first] = Ok out
      /\ out = filter (dated (fun d => date_eqb d feb11))
                      [feb11_first; feb11_last; feb12_first]
      /\ forall b, In b out
                   <-> In b [feb11_first; feb11_last; feb12_first]
                       /\ _blob_modified_date b = Ok (Some feb11))
  /\ (target <- _parse_yyyy_mm_dd (lit "2026-02-11") ;;
      select (ExactDay target) [feb11_first; feb11_last; feb12_first])
     = Ok [feb11_first; feb11_last].
Proof.
  apply (exact_day_selects_the_day feb11 [feb11_first; feb11_last; feb12_first]).
  exact three_normalizable.
Defined.

(** C3 as stated fails: with a record of the target day and a record
    whose timestamp does not parse, the exact-day filter raises and
    retains nothing. *)
Lemma exact_day_aborts_on_unparsable :
  In feb11_first [feb11_first; unparsable]
  /\ _blob_modified_date feb11_first = Ok (Some feb11)
  /\ select (ExactDay feb11) [feb11_first; unparsable]
     = Raise (invalid_date (lit "yesterday"))
  /\ forall out, select (ExactDay feb11) [feb11_first; unparsable] <> Ok out.
Proof.
  split; [now left|]. split; [vm_compute; reflexivity|].
  assert (select (ExactDay feb11) [feb11_first; unparsable]
          = Raise (invalid_date (lit "yesterday"))) as E
      by (vm_compute; reflexivity).
  split; [exact E|]. intros out. rewrite E. discriminate.
Qed.

(** C4, as the script has it.  When the normalisation of every record
    of the list returns, the since filter returns, in the order of the
    input, the records whose normalised UTC date is defined and is the
    cutoff day or a later day, and no other. *)
Theorem since_selects_from_cutoff (cutoff : date) (records : list blob) :
  normalizable records ->
  exists out,
    select (SinceInclusive cutoff) records = Ok out
    /\ out = filter (dated (fun d => negb (date_ltb d cutoff))) records
    /\ (forall b, In b out
                  <-> In b records
                      /\ exists d, _blob_modified_date b = Ok (Some d)
                                   /\ date_le cutoff d)
    /\ (forall b, In b records ->
                  _blob_modified_date b = Ok (Some cutoff) -> In b out).
Proof.
  intros N.
  assert (select (SinceInclusive cutoff) records
          = Ok (filter (dated (fun d => negb (date_ltb d cutoff))) records)) as E.
  { cbn [select]. apply dated_cond; [exact N | reflexivity]. }
  eexists. split; [exact E|]. split; [reflexivity|].
  assert (forall b, In b (filter (dated (fun d => negb (date_ltb d cutoff))) records)
                    <-> In b records
                        /\ exists d, _blob_modified_date b = Ok (Some d)
                                     /\ date_le cutoff d) as M.
  { intros b. rewrite (comprehension_In _ _ _ E). now rewrite since_cond_true. }
  split; [exact M|].
  intros b Hb Eb. apply M. split; [exact Hb|].
  exists cutoff. split; [exact Eb | right; reflexivity].
Qed.

Lemma since_selects_from_cutoff_witness :
  exists out,
    select (SinceInclusive feb11) [feb11_first; feb11_last; feb12_first] = Ok out
    /\ out = filter (dated (fun d => negb (date_ltb d feb11)))
                    [feb11_first; feb11_last; feb12_first]
    /\ (forall b, In b out
                  <-> In b [feb11_first; feb11_last; feb12_first]
                      /\ exists d, _blob_modified_date b = Ok (Some d)
                                   /\ date_le feb11 d)
    /\ (forall b, In b [feb11_first; feb11_last; feb12_first] ->
                  _blob_modified_date b = Ok (Some feb11) -> In b out).
Proof.
  apply (since_selects_from_cutoff feb11 [feb11_first; feb11_last; feb12_first]).
  exact three_normalizable.
Defined.

(** C4 as stated fails: with a record of the cutoff day and a record
    whose timestamp does not parse, the since filter raises and retains
    nothing. *)
Lemma since_aborts_on_unparsable :
  In feb11_first [feb11_first; unparsable]
  /\ _blob_modified_date feb11_first = Ok (Some feb11)
  /\ date_le feb11 feb11
  /\ select (SinceInclusive feb11) [feb11_first; unparsable]
     = Raise (invalid_date (lit "yesterday"))
  /\ forall out, select (SinceInclusive feb11) [feb11_first; unparsable] <> Ok out.
Proof.
  split; [now left|]. split; [vm_compute; reflexivity|].
  split; [right; reflexivity|].
  assert (select (SinceInclusive feb11) [feb11_first; unparsable]
          = Raise (invalid_date (lit "yesterday"))) as E
      by (vm_compute; reflexivity).
  split; [exact E|]. intros out. rewrite E. discriminate.
Qed.

End DateScopedFilters.

Section MissingTimestamps.

(** C1, as the script has it.  For a record whose [last_modified] is
    absent or empty the normalisation returns [None]; the record is in
    no result of a date-scoped filter and is kept under [All].  For a
    record whose [last_modified] is a non-empty text that
    [parsedate_to_datetime] refuses, the normalisation raises the error
    of the parser: a date-scoped filter over a listing that holds the
    record raises and returns nothing, and [All], which normalises
    nothing, keeps the record. *)
Theorem missing_timestamp_normalization (b : blob) :
  ((last_modified b = None \/ last_modified b = Some []) ->
   _blob_modified_date b = Ok None
   /\ (forall spec records out,
          date_scoped spec -> select spec records = Ok out -> ~ In b out)
   /\ (forall records, In b records ->
          exists out, select All records = Ok out /\ In b out))
  /\ (forall s e,
         last_modified b = Some s -> s <> [] ->
         parsedate_to_datetime s = Raise e ->
         _blob_modified_date b = Raise e
         /\ (forall spec records,
                date_scoped spec -> In b records ->
                forall out, select spec records <> Ok out)
         /\ (forall records, In b records ->
                exists out, select All records = Ok out /\ In b out)).
Proof.
  assert (forall records, In b records ->
             exists out, select All records = Ok out /\ In b out) as KeepAll.
  { intros records Hb. exists records. split; [reflexivity | exact Hb]. }
  split.
  - intros Hlm.
    assert (_blob_modified_date b = Ok None) as N.
    { unfold _blob_modified_date. destruct Hlm as [-> | ->]; reflexivity. }
    split; [exact N|]. split; [|exact KeepAll].
    intros spec records out S E Hin.
    destruct spec; cbn [select] in E; [destruct S | | |];
      apply (comprehension_In _ _ _ E) in Hin; destruct Hin as [_ C].
    + apply since_cond_true in C. destruct C as (d & Ed & _). congruence.
    + apply date_cond_true in C. congruence.
    + apply range_cond_true in C. destruct C as (d & Ed & _). congruence.
  - intros s e Hlm Hs P.
    assert (_blob_modified_date b = Raise e) as R.
    { unfold _blob_modified_date, _parse_last_modified. rewrite Hlm.
      destruct s as [|c s]; [congruence|]. now rewrite P. }
    split; [exact R|]. split; [|exact KeepAll].
    intros spec records S Hb. exact (select_aborts spec records b e S Hb R).
Qed.

Lemma missing_timestamp_normalization_witness :
  (_blob_modified_date undated = Ok None
   /\ (forall spec records out,
          date_scoped spec -> select spec records = Ok out -> ~ In undated out)
   /\ (forall records, In undated records ->
          exists out, select All records = Ok out /\ In undated out))
  /\ (_blob_modified_date unparsable = Raise (invalid_date (lit "yesterday"))
      /\ (forall spec records,
             date_scoped spec -> In unparsable records ->
             forall out, select spec records <> Ok out)
      /\ (forall records, In unparsable records ->
             exists out, select All records = Ok out /\ In unparsable out)).
Proof.
  split.
  - apply (proj1 (missing_timestamp_normalization undated)). left. reflexivity.
  - apply (proj2 (missing_timestamp_normalization unparsable)
                 (lit "yesterday") (invalid_date (lit "yesterday"))).
    + reflexivity.
    + discriminate.
    + vm_compute. reflexivity.
Defined.

(** C1 as stated fails: the normalisation of a record whose timestamp
    does not parse raises [ValueError]; it does not return [None], and
    the filter that meets the record raises with it. *)
Lemma unparsable_timestamp_raises :
  _blob_modified_date unparsable = Raise (invalid_date (lit "yesterday"))
  /\ _blob_modified_date unparsable <> Ok None
  /\ select (SinceInclusive feb11) [unparsable]
     = Raise (invalid_date (lit "yesterday"))
  /\ select (ExactDay feb11) [unparsable]
     = Raise (invalid_date (lit "yesterday"))
  /\ select (RangeInclusive feb11 feb11) [unparsable]
     = Raise (invalid_date (lit "yesterday")).
Proof.
  assert (_blob_modified_date unparsable = Raise (invalid_date (lit "yesterday")))
    as E by (vm_compute; reflexivity).
  split; [exact E|]. split; [rewrite E; discriminate|].
  repeat split; vm_compute; reflexivity.
Qed.

End MissingTimestamps.

(** ** The calendar *)

Section Calendar.

Lemma month_day_table :
  forallb (fun k => month_day_ok false (Z.of_nat k) && month_day_ok true (Z.of_nat k))
          (seq 0 365) = true.
Proof. vm_compute. reflexivity. Qed.

Lemma month_day_spec (leap : bool) (n : Z) :
  0 <= n < 365 -> month_day_ok leap n = true.
Proof.
  intros Hn.
  pose proof month_day_table as T.
  rewrite forallb_forall in T.
  specialize (T (Z.to_nat n)).
  rewrite Z2Nat.id in T by lia.
  assert (In (Z.to_nat n) (seq 0 365)) as Hin by (apply in_seq; lia).
  apply T in Hin. apply andb_true_iff in Hin. destruct leap; tauto.
Qed.

(** A year written by its place in the 400, 100 and 4 year cycles. *)
Lemma year_cycles (a b c e : Z) :
  0 <= b <= 3 -> 0 <= c <= 24 -> 0 <= e <= 3 ->
  let y := 400 * a + 100 * b + 4 * c + e + 1 in
  _days_before_year y = 146097 * a + 36524 * b + 1461 * c + 365 * e
  /\ _is_leap y = (e =? 3) && (negb (c =? 24) || (b =? 3)).
Proof.
  intros Hb Hc He y. split.
  - unfold _days_before_year, y. cbv zeta. Z.div_mod_to_equations. lia.
  - unfold _is_leap.
    assert (M4 : y mod 4 = (e + 1) mod 4).
    { unfold y. replace (400 * a + 100 * b + 4 * c + e + 1)
        with ((e + 1) + (100 * a + 25 * b + c) * 4) by lia.
      apply Z.mod_add. lia. }
    assert (M100 : y mod 100 = (4 * c + e + 1) mod 100).
    { unfold y. replace (400 * a + 100 * b + 4 * c + e + 1)
        with ((4 * c + e + 1) + (4 * a + b) * 100) by lia.
      apply Z.mod_add. lia. }
    assert (M400 : y mod 400 = (100 * b + 4 * c + e + 1) mod 400).
    { unfold y. replace (400 * a + 100 * b + 4 * c + e + 1)
        with ((100 * b + 4 * c + e + 1) + a * 400) by lia.
      apply Z.mod_add. lia. }
    rewrite M4, M100, M400. clear M4 M100 M400 y.
    assert (E4 : ((e + 1) mod 4 =? 0) = (e =? 3)).
    { assert (e = 0 \/ e = 1 \/ e = 2 \/ e = 3) as [->|[->|[->| ->]]] by lia;
        reflexivity. }
    rewrite E4.
    destruct (e =? 3) eqn:E3; [apply Z.eqb_eq in E3 | reflexivity].
    subst e. rewrite !andb_true_l.
    destruct (c =? 24) eqn:C24; [apply Z.eqb_eq in C24 | apply Z.eqb_neq in C24].
    + subst c.
      replace ((4 * 24 + 3 + 1) mod 100 =? 0) with true by reflexivity.
      rewrite !orb_false_l.
      destruct (b =? 3) eqn:B3; [apply Z.eqb_eq in B3 | apply Z.eqb_neq in B3].
      * subst b. reflexivity.
      * apply Z.eqb_neq. rewrite Z.mod_small by lia. lia.
    + rewrite !orb_true_l.
      assert ((4 * c + 3 + 1) mod 100 <> 0) as N
        by (rewrite Z.mod_small by lia; lia).
      apply Z.eqb_neq in N. rewrite N. reflexivity.
Qed.

Lemma ord2ymd_year (n : Z) :
  1 <= n <= _MAXORDINAL ->
  let '(y, m, d) := _ord2ymd n in
  1 <= y <= 9999 /\ 1 <= m <= 12 /\ 1 <= d <= _days_in_month y m
  /\ _ymd2ord y m d = n.
Proof.
  intros Hn. unfold _ord2ymd, _MAXORDINAL, _DI400Y, _DI100Y, _DI4Y in *.
  set (n0 := n - 1).
  set (n400 := n0 / 146097). set (r400 := n0 mod 146097).
  set (n100 := r400 / 36524). set (r100 := r400 mod 36524).
  set (n4 := r100 / 1461). set (r4 := r100 mod 1461).
  set (n1 := r4 / 365). set (r1 := r4 mod 365).
  assert (E0 : n0 = 146097 * n400 + r400 /\ 0 <= r400 < 146097)
    by (unfold n400, r400; split; [apply Z.div_mod; lia | apply Z.mod_pos_bound; lia]).
  assert (E1 : r400 = 36524 * n100 + r100 /\ 0 <= r100 < 36524)
    by (unfold n100, r100; split; [apply Z.div_mod; lia | apply Z.mod_pos_bound; lia]).
  assert (E2 : r100 = 1461 * n4 + r4 /\ 0 <= r4 < 1461)
    by (unfold n4, r4; split; [apply Z.div_mod; lia | apply Z.mod_pos_bound; lia]).
  assert (E3 : r4 = 365 * n1 + r1 /\ 0 <= r1 < 365)
    by (unfold n1, r1; split; [apply Z.div_mod; lia | apply Z.mod_pos_bound; lia]).
  assert (Hn0 : n0 = n - 1) by reflexivity.
  clearbody n0 n400 r400 n100 r100 n4 r4 n1 r1.
  assert (B : 0 <= n400 <= 24 /\ 0 <= n100 <= 4 /\ 0 <= n4 <= 24 /\ 0 <= n1 <= 4) by lia.
  destruct ((n1 =? 4) || (n100 =? 4)) eqn:Hc.
  - (* the last day of a leap year *)
    assert (exists b c, 0 <= b <= 3 /\ 0 <= c <= 24 /\ (c <= 23 \/ b = 3)
              /\ n400 * 400 + 1 + (n100 * 100 + n4 * 4 + n1) - 1
                 = 400 * n400 + 100 * b + 4 * c + 3 + 1
              /\ n0 = 146097 * n400 + 36524 * b + 1461 * c + 1460)
      as (b & c & Hb & Hc24 & Hc' & HY & Hn0').
    { apply orb_true_iff in Hc. destruct (Z.eq_dec n100 4) as [E|E].
      - exists 3, 24. lia.
      - destruct Hc as [Hc|Hc]; apply Z.eqb_eq in Hc; [|lia].
        exists n100, n4. lia. }
    rewrite HY.
    destruct (year_cycles n400 b c 3 Hb Hc24 ltac:(lia)) as [D L].
    cbv zeta in D, L.
    assert (L' : _is_leap (400 * n400 + 100 * b + 4 * c + 3 + 1) = true).
    { rewrite L. rewrite Z.eqb_refl, andb_true_l.
      destruct Hc' as [Hc'|Hc'].
      - assert (c <> 24) as N by lia. apply Z.eqb_neq in N. rewrite N. reflexivity.
      - subst b. rewrite Z.eqb_refl. apply orb_true_r. }
    unfold _ymd2ord, _days_in_month, _days_before_month.
    rewrite D, L'.
    change (_DAYS_IN_MONTH 12) with 31. change (_DAYS_BEFORE_MONTH 12) with 334.
    change ((12 =? 2) && true) with false. change ((2 <? 12) && true) with true.
    cbv iota. lia.
  - apply orb_false_iff in Hc. destruct Hc as [H1 H100].
    apply Z.eqb_neq in H1. apply Z.eqb_neq in H100.
    destruct (year_cycles n400 n100 n4 n1 ltac:(lia) ltac:(lia) ltac:(lia)) as [D L].
    cbv zeta in D, L.
    replace (n400 * 400 + 1 + (n100 * 100 + n4 * 4 + n1))
      with (400 * n400 + 100 * n100 + 4 * n4 + n1 + 1) by lia.
    set (y := 400 * n400 + 100 * n100 + 4 * n4 + n1 + 1) in *.
    rewrite <- L.
    pose proof (month_day_spec (_is_leap y) r1 ltac:(lia)) as MD.
    unfold month_day_ok, month_day in MD.
    destruct (if r1 <? _ then _ else _) as [m p] eqn:Em in MD |- *.
    repeat (apply andb_true_iff in MD; destruct MD as [MD ?]).
    unfold _ymd2ord, _days_in_month, _days_before_month.
    rewrite D.
    split; [unfold y; lia|]. lia.
Qed.

Lemma fromordinal_valid (n : Z) :
  1 <= n <= _MAXORDINAL ->
  valid_date (fromordinal n) /\ toordinal (fromordinal n) = n.
Proof.
  intros Hn. pose proof (ord2ymd_year n Hn) as K.
  unfold fromordinal, toordinal, valid_date.
  destruct (_ord2ymd n) as [[y m] d]. cbn [year month day]. tauto.
Qed.

(** The entries of the month tables at a given month. *)
Ltac month_tables :=
  repeat match goal with
    | H : context [_DAYS_IN_MONTH ?k] |- _ =>
        let v := eval vm_compute in (_DAYS_IN_MONTH k) in
        change (_DAYS_IN_MONTH k) with v in H
    | |- context [_DAYS_BEFORE_MONTH ?k] =>
        let v := eval vm_compute in (_DAYS_BEFORE_MONTH k) in
        change (_DAYS_BEFORE_MONTH k) with v
    | H : context [(?k =? 2) && ?l] |- _ =>
        let v := eval vm_compute in ((k =? 2) && l) in
        change ((k =? 2) && l) with v in H
    | |- context [(2 <? ?k) && ?l] =>
        let v := eval vm_compute in ((2 <? k) && l) in
        change ((2 <? k) && l) with v
    end;
  cbv iota in *.

(** The days of a year before and in a valid month. *)
Lemma day_of_year_bounds (y m d : Z) :
  1 <= m <= 12 -> 1 <= d <= _days_in_month y m ->
  1 <= _days_before_month y m + d <= 365 + (if _is_leap y then 1 else 0).
Proof.
  intros Hm Hd. unfold _days_in_month, _days_before_month in *.
  assert (m = 1 \/ m = 2 \/ m = 3 \/ m = 4 \/ m = 5 \/ m = 6 \/ m = 7 \/ m = 8
          \/ m = 9 \/ m = 10 \/ m = 11 \/ m = 12) as Cases by lia.
  destruct (_is_leap y);
    repeat (destruct Cases as [-> | Cases]); try subst m;
    month_tables; lia.
Qed.

Lemma toordinal_range (d : date) :
  valid_date d -> 1 <= toordinal d <= _MAXORDINAL.
Proof.
  intros (Hy & Hm & Hd). unfold toordinal, _ymd2ord, _MAXORDINAL.
  pose proof (day_of_year_bounds _ _ _ Hm Hd) as B.
  assert (0 <= _days_before_year (year d)
          /\ _days_before_year (year d)
             + (if _is_leap (year d) then 1 else 0) <= 3651694) as Y.
  { unfold _days_before_year, _is_leap. cbv zeta.
    destruct ((year d mod 4 =? 0)
              && (negb (year d mod 100 =? 0) || (year d mod 400 =? 0))) eqn:L.
    - apply andb_true_iff in L. destruct L as [L4 _]. apply Z.eqb_eq in L4.
      Z.div_mod_to_equations. lia.
    - Z.div_mod_to_equations. lia. }
  lia.
Qed.

End Calendar.

(** ** Date normalisation *)

Section Normalization.

Lemma c_int_fits (v : Z) : - 2 ^ 31 <= v < 2 ^ 31 -> c_int v = Ok tt.
Proof.
  intros V. unfold c_int.
  assert ((v <? - 2 ^ 63) || (2 ^ 63 <=? v) = false) as ->
      by (apply orb_false_iff; split; [apply Z.ltb_ge | apply Z.leb_gt]; lia).
  assert ((2 ^ 31 <=? v) = false) as -> by (apply Z.leb_gt; lia).
  assert ((v <? - 2 ^ 31) = false) as -> by (apply Z.ltb_ge; lia).
  reflexivity.
Qed.

Lemma c_int_raises (v : Z) (e : exn) :
  c_int v = Raise e ->
  (exists msg, e = OverflowError msg) /\ ~ - 2 ^ 31 <= v < 2 ^ 31.
Proof.
  intros E. split.
  - unfold c_int in E.
    repeat match type of E with
           | (if ?c then _ else _) = _ =>
               destruct c; [injection E as <-; eauto|]
           end.
    discriminate E.
  - intros V. now rewrite (c_int_fits v V) in E.
Qed.

Lemma datetime_new_inv (y m d hh mi ss : Z) (tz : option Z) (dt : datetime) :
  datetime_new y m d hh mi ss tz = Ok dt ->
  dt = mkdatetime (mkdate y m d) hh mi ss tz
  /\ valid_date (mkdate y m d)
  /\ 0 <= hh <= 23 /\ 0 <= mi <= 59 /\ 0 <= ss <= 59.
Proof.
  unfold datetime_new.
  repeat match goal with
         | |- context [c_int ?v] =>
             destruct (c_int v) as [[]|]; cbn [bind]; [|discriminate]
         end.
  unfold _check_date_fields, _check_time_fields, valid_date, MINYEAR, MAXYEAR.
  cbn [year month day].
  repeat match goal with
         | |- context [if negb ?c then _ else _] =>
             let E := fresh "E" in
             destruct c eqn:E; cbn [negb bind]; [|discriminate]
         end.
  intros K. injection K as <-.
  repeat match goal with
         | E : _ && _ = true |- _ => apply andb_true_iff in E; destruct E
         end.
  repeat match goal with
         | E : (_ <=? _) = true |- _ => apply Z.leb_le in E
         end.
  split; [reflexivity | lia].
Qed.

Lemma timezone_inv (s off : Z) :
  timezone s = Ok off -> off = s /\ -86400 < s < 86400.
Proof.
  unfold timezone, utc. cbv zeta.
  destruct ((s / 86400 <? - 2 ^ 31) || (2 ^ 31 <=? s / 86400)); [discriminate|].
  destruct (999999999 <? Z.abs (s / 86400)); [discriminate|].
  destruct (s =? 0) eqn:E0.
  - apply Z.eqb_eq in E0. intros K. injection K as <-. lia.
  - destruct ((-86400 <? s) && (s <? 86400)) eqn:E; cbn [negb]; [|discriminate].
    intros K. injection K as <-. apply andb_true_iff in E. lia.
Qed.

Lemma parsedate_inv (s : str) (dt : datetime) :
  parsedate_to_datetime s = Ok dt ->
  s <> []
  /\ valid_date (dt_date dt)
  /\ 0 <= hour dt <= 23 /\ 0 <= minute dt <= 59 /\ 0 <= second dt <= 59
  /\ (forall off, tzinfo dt = Some off -> -86400 < off < 86400).
Proof.
  intros P. split; [intros ->; discriminate P|].
  unfold parsedate_to_datetime in P.
  destruct (_parsedate_tz s) as [[[[[[[yy mm] dd] thh] tmm] tss] [tz|]]|];
    [| |discriminate].
  - destruct (timezone tz) as [off|e] eqn:T; [|discriminate]. cbn [bind] in P.
    apply datetime_new_inv in P. destruct P as (-> & V & Hh & Hm & Hs).
    cbn [dt_date hour minute second tzinfo].
    repeat (split; [assumption|]).
    intros off' K. injection K as <-. apply timezone_inv in T. lia.
  - apply datetime_new_inv in P. destruct P as (-> & V & Hh & Hm & Hs).
    cbn [dt_date hour minute second tzinfo].
    repeat (split; [assumption|]). discriminate.
Qed.

(** Subtracting a non-zero offset: the date is the day of the instant, or
    the instant is out of the calendar. *)
Lemma astimezone_utc_shift (dt : datetime) (off : Z) :
  valid_date (dt_date dt) ->
  0 <= hour dt <= 23 -> 0 <= minute dt <= 59 -> 0 <= second dt <= 59 ->
  tzinfo dt = Some off -> off <> 0 ->
  let days := utc_instant dt / 86400 in
  (1 <= days <= _MAXORDINAL ->
   exists u, astimezone_utc dt off = Ok u /\ date_of u = fromordinal days)
  /\ (~ 1 <= days <= _MAXORDINAL ->
      astimezone_utc dt off = Raise (OverflowError (lit "date value out of range"))).
Proof.
  intros V Hh Hm Hs Tz Off days.
  unfold astimezone_utc, utc.
  assert ((off =? 0) = false) as -> by now apply Z.eqb_neq.
  set (secs := utc_instant dt mod 86400).
  assert (add_seconds dt (- off)
          = if (0 <? days) && (days <=? _MAXORDINAL)
            then Ok (mkdatetime (fromordinal days) (secs / 3600)
                                (secs mod 3600 / 60) ((secs mod 3600) mod 60)
                                (tzinfo dt))
            else Raise (OverflowError (lit "date value out of range"))) as ->.
  { unfold add_seconds.
    assert (toordinal (dt_date dt) * 86400 + hour dt * 3600 + minute dt * 60
            + second dt + - off = utc_instant dt) as ->
        by (unfold utc_instant; rewrite Tz; lia).
    reflexivity. }
  split.
  - intros R.
    assert ((0 <? days) && (days <=? _MAXORDINAL) = true) as InRange
        by (apply andb_true_iff; split; [apply Z.ltb_lt | apply Z.leb_le]; lia).
    rewrite InRange. cbn [bind]. unfold add_seconds, replace_tzinfo.
    cbn [dt_date hour minute second tzinfo].
    destruct (fromordinal_valid days R) as [_ ->].
    assert (0 <= secs < 86400) as Hsecs by (apply Z.mod_pos_bound; lia).
    assert (days * 86400 + secs / 3600 * 3600 + secs mod 3600 / 60 * 60
            + (secs mod 3600) mod 60 + 0 = secs + days * 86400) as ->.
    { pose proof (Z.div_mod secs 3600 ltac:(lia)).
      pose proof (Z.div_mod (secs mod 3600) 60 ltac:(lia)). lia. }
    rewrite Z.div_add by lia. rewrite (Z.div_small secs) by lia.
    rewrite Z.add_0_l, InRange.
    eexists. split; reflexivity.
  - intros R.
    assert ((0 <? days) && (days <=? _MAXORDINAL) = false) as ->; [|reflexivity].
    apply andb_false_iff.
    destruct (Z.ltb_spec 0 days); [right | now left].
    apply Z.leb_gt. lia.
Qed.

(** The normalisation of a timestamp that [parsedate_to_datetime]
    accepts, by what the parser read: the date is the UTC calendar day
    that holds the instant read (the local time less the offset; no
    offset counts as UTC), when that day lies in the calendar of [date];
    when it does not, [OverflowError] is raised.  A timestamp read
    without an offset gives the date read. *)
Lemma normalization_of_parsed (b : blob) (s : str) (dt : datetime) :
  last_modified b = Some s ->
  parsedate_to_datetime s = Ok dt ->
  (1 <= utc_instant dt / 86400 <= _MAXORDINAL ->
   exists d, _blob_modified_date b = Ok (Some d)
             /\ valid_date d
             /\ 86400 * toordinal d <= utc_instant dt < 86400 * (toordinal d + 1))
  /\ (~ 1 <= utc_instant dt / 86400 <= _MAXORDINAL ->
      _blob_modified_date b = Raise (OverflowError (lit "date value out of range")))
  /\ (tzinfo dt = None -> _blob_modified_date b = Ok (Some (dt_date dt))).
Proof.
  intros Hlm P.
  destruct (parsedate_inv s dt P) as (Hs & V & Hh & Hm & Hsec & Hoff).
  assert (_blob_modified_date b
          = (let '(dt0, offset) :=
               match tzinfo dt with
               | None => (replace_tzinfo dt (Some utc), utc)
               | Some off => (dt, off)
               end in
             dt1 <- astimezone_utc dt0 offset ;; Ok (Some (date_of dt1)))) as Unfold.
  { unfold _blob_modified_date. rewrite Hlm.
    destruct s as [|c s]; [congruence|]. unfold _parse_last_modified. now rewrite P. }
  assert (0 <= hour dt * 3600 + minute dt * 60 + second dt < 86400) as Day by lia.
  (* a value that is already in UTC is returned as it is *)
  assert (forall off, off = 0 ->
            (tzinfo dt = None \/ tzinfo dt = Some off) ->
            _blob_modified_date b = Ok (Some (dt_date dt))
            /\ utc_instant dt / 86400 = toordinal (dt_date dt)) as Same.
  { intros off -> Tz. split.
    - rewrite Unfold. destruct Tz as [-> | ->]; reflexivity.
    - unfold utc_instant.
      replace (match tzinfo dt with Some off => off | None => 0 end) with 0
        by (destruct Tz as [-> | ->]; reflexivity).
      replace (toordinal (dt_date dt) * 86400 + hour dt * 3600 + minute dt * 60
               + second dt - 0)
        with ((hour dt * 3600 + minute dt * 60 + second dt)
              + toordinal (dt_date dt) * 86400) by lia.
      rewrite Z.div_add by lia. rewrite Z.div_small by lia. lia. }
  assert (forall d, utc_instant dt / 86400 = toordinal d ->
            86400 * toordinal d <= utc_instant dt < 86400 * (toordinal d + 1)) as Bounds.
  { intros d <-. pose proof (Z.div_mod (utc_instant dt) 86400 ltac:(lia)).
    pose proof (Z.mod_pos_bound (utc_instant dt) 86400 ltac:(lia)). lia. }
  pose proof (toordinal_range _ V) as Range.
  assert (Shape : tzinfo dt = None \/ tzinfo dt = Some 0
                  \/ exists off, tzinfo dt = Some off /\ off <> 0).
  { destruct (tzinfo dt) as [off|]; [|now left].
    destruct (Z.eq_dec off 0) as [-> | N]; [right; now left|].
    right; right. now exists off. }
  split; [|split].
  - intros R. destruct Shape as [Tz | [Tz | (off & Tz & N)]].
    + destruct (Same 0 eq_refl (or_introl Tz)) as [E D].
      exists (dt_date dt). split; [exact E|]. split; [exact V | now apply Bounds].
    + destruct (Same 0 eq_refl (or_intror Tz)) as [E D].
      exists (dt_date dt). split; [exact E|]. split; [exact V | now apply Bounds].
    + destruct (astimezone_utc_shift dt off V Hh Hm Hsec Tz N) as [Shift _].
      destruct (Shift R) as (u & Eu & Du).
      destruct (fromordinal_valid _ R) as [Vd Od].
      exists (fromordinal (utc_instant dt / 86400)).
      split; [|split; [exact Vd | apply Bounds; now rewrite Od]].
      rewrite Unfold, Tz, Eu. cbn [bind]. now rewrite Du.
  - intros R. destruct Shape as [Tz | [Tz | (off & Tz & N)]].
    + destruct (Same 0 eq_refl (or_introl Tz)) as [_ D]. rewrite D in R. tauto.
    + destruct (Same 0 eq_refl (or_intror Tz)) as [_ D]. rewrite D in R. tauto.
    + destruct (astimezone_utc_shift dt off V Hh Hm Hsec Tz N) as [_ Over].
      rewrite Unfold, Tz, (Over R). reflexivity.
  - intros Tz. exact (proj1 (Same 0 eq_refl (or_introl Tz))).
Qed.

End Normalization.

Section NormalizationExamples.

Lemma filter_output_is_subsequence_witness :
  subseq [feb11_first; feb11_last] [feb11_first; feb11_last; feb12_first]
  /\ (forall b, In b [feb11_first; feb11_last] ->
                In b [feb11_first; feb11_last; feb12_first])
  /\ (NoDup [feb11_first; feb11_last; feb12_first] ->
      NoDup [feb11_first; feb11_last])
  /\ (length [feb11_first; feb11_last]
      <= length [feb11_first; feb11_last; feb12_first])%nat.
Proof.
  apply (filter_output_is_subsequence (ExactDay feb11)).
  vm_compute. reflexivity.
Defined.

End NormalizationExamples.

(** ** Argument validation and the network *)

Section Validation.

Context `{NetlocCheck} `{FileSystem}.

Lemma int_raises (s : str) (e : exn) :
  int s = Raise e -> exists msg, e = ValueError msg.
Proof.
  unfold int.
  destruct (match strip_by int_space s with
            | [] => (1, strip_by int_space s)
            | c :: r =>
                if Ascii.eqb c "-" then (-1, r)
                else if Ascii.eqb c "+" then (1, r)
                     else (1, strip_by int_space s)
            end) as [sign body].
  destruct (int_digits false 0 0 body) as [[n count]|].
  - destruct (4300 <? count); [|discriminate].
    intros K. injection K as <-. eauto.
  - intros K. injection K as <-. eauto.
Qed.

Lemma date_new_raises (y m d : Z) (e : exn) :
  - 2 ^ 31 <= y < 2 ^ 31 -> - 2 ^ 31 <= m < 2 ^ 31 -> - 2 ^ 31 <= d < 2 ^ 31 ->
  date_new y m d = Raise e -> exists msg, e = ValueError msg.
Proof.
  intros Y M D. unfold date_new.
  rewrite (c_int_fits y Y), (c_int_fits m M), (c_int_fits d D). cbn [bind].
  unfold _check_date_fields.
  repeat match goal with
         | |- context [if negb ?c then _ else _] =>
             destruct c; cbn [negb bind];
             [|intros K; injection K as <-; eauto]
         end.
  discriminate.
Qed.

(** What a group of the pattern matches: a text at the head, character
    by character as one of its alternatives asks. *)
Lemma alt_inv (tests : list (ascii -> bool)) :
  forall s m rest,
    alt tests s = Some (m, rest) ->
    s = m ++ rest /\ Forall2 (fun t c => t c = true) tests m.
Proof.
  induction tests as [|t ts IH]; intros s m rest; cbn [alt].
  - intros [= <- <-]. split; [reflexivity | constructor].
  - destruct s as [|c r]; [discriminate|].
    destruct (t c) eqn:T; [|discriminate].
    destruct (alt ts r) as [[m' rest']|] eqn:A; [|discriminate].
    intros [= <- <-]. destruct (IH _ _ _ A) as [-> F].
    split; [reflexivity | now constructor].
Qed.

Lemma alts_inv (group : list (list (ascii -> bool))) (s m rest : str) :
  In (m, rest) (alts group s) ->
  exists tests,
    In tests group /\ s = m ++ rest
    /\ Forall2 (fun t c => t c = true) tests m.
Proof.
  unfold alts. rewrite in_flat_map. intros (tests & G & I).
  destruct (alt tests s) as [[m' rest']|] eqn:A; [|destruct I].
  destruct I as [[= <- <-]|[]]. exists tests.
  destruct (alt_inv _ _ _ _ A). auto.
Qed.

Lemma regex_match_inv (s Y m d rest : str) :
  regex_match s = Some (Y, m, d, rest) ->
  s = Y ++ "-"%char :: m ++ "-"%char :: d ++ rest
  /\ (exists t, In t group_Y /\ Forall2 (fun t c => t c = true) t Y)
  /\ (exists t, In t group_m /\ Forall2 (fun t c => t c = true) t m)
  /\ (exists t, In t group_d /\ Forall2 (fun t c => t c = true) t d).
Proof.
  unfold regex_match. intros E.
  assert (forall A (l : list A) x, hd_error l = Some x -> In x l) as Hd
      by (intros A [|y l] x [= <-]; now left).
  apply Hd in E. apply in_flat_map in E. destruct E as ([Y' s1] & IY & E).
  destruct s1 as [|c1 s1']; [destruct E|].
  destruct (only "-" c1) eqn:C1; [|destruct E].
  apply Ascii.eqb_eq in C1. subst c1.
  apply in_flat_map in E. destruct E as ([m' s2] & Im & E).
  destruct s2 as [|c2 s2']; [destruct E|].
  destruct (only "-" c2) eqn:C2; [|destruct E].
  apply Ascii.eqb_eq in C2. subst c2.
  apply in_map_iff in E. destruct E as ([d' rest'] & [= <- <- <- <-] & Id).
  destruct (alts_inv _ _ _ _ IY) as (tY & GY & -> & FY).
  destruct (alts_inv _ _ _ _ Im) as (tm & Gm & -> & Fm).
  destruct (alts_inv _ _ _ _ Id) as (td & Gd & -> & Fd).
  split; [reflexivity|]. eauto 10.
Qed.

(** [int] of a text is below the power of ten of its length. *)
Lemma lstrip_by_length (p : ascii -> bool) (s : str) :
  (length (lstrip_by p s) <= length s)%nat.
Proof.
  induction s as [|c r IH]; cbn [lstrip_by]; [lia|].
  destruct (p c); cbn [length]; lia.
Qed.

Lemma strip_by_length (p : ascii -> bool) (s : str) :
  (length (strip_by p s) <= length s)%nat.
Proof.
  unfold strip_by. rewrite length_rev.
  pose proof (lstrip_by_length p (rev (lstrip_by p s))) as A.
  rewrite length_rev in A. pose proof (lstrip_by_length p s). lia.
Qed.

Lemma int_digits_bound (s : str) :
  forall prev acc count n c,
    0 <= acc ->
    int_digits prev acc count s = Some (n, c) ->
    0 <= n /\ 0 <= c - count <= len s
    /\ n + 1 <= (acc + 1) * 10 ^ (c - count).
Proof.
  unfold len.
  induction s as [|x r IH]; intros prev acc count n c A; cbn [int_digits].
  - destruct prev; [|discriminate]. intros [= <- <-].
    rewrite Z.sub_diag. cbn [length]. lia.
  - destruct (isdigit x) eqn:D.
    + intros E. unfold isdigit in D. cbv zeta in D.
      apply andb_true_iff in D. destruct D as [D1 D2].
      apply Z.leb_le in D1, D2.
      destruct (IH true (10 * acc + (code x - 48)) (count + 1) n c
                  ltac:(lia) E) as (N & C & B).
      cbn [length]. split; [exact N|]. split; [lia|].
      replace (c - count) with (Z.succ (c - (count + 1))) by lia.
      rewrite Z.pow_succ_r by lia.
      assert (0 < 10 ^ (c - (count + 1))) by (apply Z.pow_pos_nonneg; lia).
      nia.
    + destruct (Ascii.eqb x "_"); [|discriminate].
      destruct prev; [|discriminate]. intros E.
      destruct (IH _ _ _ _ _ A E) as (N & C & B).
      cbn [length]. split; [exact N|]. split; [lia | exact B].
Qed.

Lemma int_bound (s : str) (n : Z) : int s = Ok n -> Z.abs n < 10 ^ len s.
Proof.
  unfold int. pose proof (strip_by_length int_space s) as L.
  set (t := strip_by int_space s) in *.
  assert (exists sign body,
             (match t with
              | [] => (1, t)
              | c :: r =>
                  if Ascii.eqb c "-" then (-1, r)
                  else if Ascii.eqb c "+" then (1, r) else (1, t)
              end) = (sign, body)
             /\ Z.abs sign = 1 /\ (length body <= length t)%nat)
    as (sign & body & -> & S & B).
  { destruct t as [|c r]; [now exists 1, []|].
    destruct (Ascii.eqb c "-"); [exists (-1), r; cbn [length]; auto|].
    destruct (Ascii.eqb c "+"); [exists 1, r; cbn [length]; auto|].
    exists 1, (c :: r). auto. }
  clearbody t.
  destruct (int_digits false 0 0 body) as [[v count]|] eqn:E; [|discriminate].
  destruct (4300 <? count); [discriminate|]. intros [= <-].
  destruct (int_digits_bound body false 0 0 v count ltac:(lia) E) as (V & C & Bd).
  rewrite Z.sub_0_r in *. rewrite Z.abs_mul, S, Z.mul_1_l, Z.abs_eq by lia.
  assert (10 ^ count <= 10 ^ len s) by (apply Z.pow_le_mono_r; unfold len in *; lia).
  lia.
Qed.

Lemma Forall2_length_le {A B : Type} (R : A -> B -> Prop) (l : list A) (m : list B) :
  Forall2 R l m -> length m = length l.
Proof. induction 1; cbn [length]; congruence. Qed.

(** The numbers of an argument that matches the pattern are small. *)
Lemma matched_numbers (value Y m d rest : str) (y mo da : Z) :
  regex_match value = Some (Y, m, d, rest) ->
  int Y = Ok y -> int m = Ok mo -> int d = Ok da ->
  Z.abs y < 10000 /\ Z.abs mo < 100 /\ Z.abs da < 100.
Proof.
  intros R EY Em Ed.
  destruct (regex_match_inv _ _ _ _ _ R)
    as (_ & (tY & GY & FY) & (tm & Gm & Fm) & (td & Gd & Fd)).
  apply int_bound in EY, Em, Ed.
  apply Forall2_length_le in FY, Fm, Fd. unfold len in *.
  assert (length tY = 4%nat) as LY
      by (destruct GY as [<-|[]]; reflexivity).
  assert ((length tm <= 2)%nat) as Lm
      by (repeat (destruct Gm as [<-|Gm]; [cbn [length]; lia|]); destruct Gm).
  assert ((length td <= 2)%nat) as Ld
      by (repeat (destruct Gd as [<-|Gd]; [cbn [length]; lia|]); destruct Gd).
  rewrite FY, LY in EY.
  assert (10 ^ Z.of_nat (length m) <= 10 ^ 2)
    by (apply Z.pow_le_mono_r; lia).
  assert (10 ^ Z.of_nat (length d) <= 10 ^ 2)
    by (apply Z.pow_le_mono_r; lia).
  change (10 ^ Z.of_nat 4) with 10000 in EY. change (10 ^ 2) with 100 in *.
  lia.
Qed.

(** [strptime] raises nothing but [ValueError]. *)
Lemma strptime_raises (value : str) (e : exn) :
  strptime_ymd value = Raise e -> exists msg, e = ValueError msg.
Proof.
  unfold strptime_ymd.
  destruct (regex_match value) as [[[[Y m] d] rest]|] eqn:R;
    [|intros K; injection K as <-; eauto].
  destruct rest; [|intros K; injection K as <-; eauto].
  destruct (int Y) as [y|e1] eqn:EY; cbn [bind];
    [|intros K; injection K as <-; eapply int_raises; eauto].
  destruct (int m) as [mo|e1] eqn:Em; cbn [bind];
    [|intros K; injection K as <-; eapply int_raises; eauto].
  destruct (int d) as [da|e1] eqn:Ed; cbn [bind];
    [|intros K; injection K as <-; eapply int_raises; eauto].
  destruct (matched_numbers _ _ _ _ _ _ _ _ R EY Em Ed) as (By & Bm & Bd).
  apply date_new_raises; lia.
Qed.

(** A date argument that [strptime] refuses is reported with its text. *)
Lemma parse_refuses (value : str) :
  (forall d, strptime_ymd value <> Ok d) ->
  _parse_yyyy_mm_dd value = Raise (invalid_argument value).
Proof.
  intros N. unfold _parse_yyyy_mm_dd.
  destruct (strptime_ymd value) as [d|e] eqn:E; [now destruct (N d)|].
  destruct (strptime_raises value e E) as (msg & ->). reflexivity.
Qed.

Lemma parse_accepts (value : str) (d : date) :
  _parse_yyyy_mm_dd value = Ok d -> strptime_ymd value = Ok d.
Proof.
  unfold _parse_yyyy_mm_dd.
  destruct (strptime_ymd value) as [d'|[]]; congruence.
Qed.

(** The first request of the listing loop. *)
Lemma loop_first_request (base params : str) (marker : option str)
      (blobs : list blob) (net : list response) :
  exists more,
    requests (list_blobs_loop base params marker blobs net)
    = list_url base params marker :: more.
Proof.
  destruct net as [|r rest]; cbn [list_blobs_loop].
  - exists []. reflexivity.
  - destruct (read_page r) as [[page [[|c m]|]]|e];
      cbn [requests after app]; eexists; reflexivity.
Qed.

Lemma list_blobs_loop_run (sas_url base params : str) (net : list response) :
  _base_url sas_url = Ok base -> _sas_params sas_url = Ok params ->
  list_blobs sas_url net = list_blobs_loop base params None [] net.
Proof.
  intros B P. unfold list_blobs. rewrite B, iobind_lift_ok, P, iobind_lift_ok.
  reflexivity.
Qed.

Lemma iobind_first_request {A B : Type} (m : io A) (k : A -> io B)
      (net : list response) (url : str) (more : list str) :
  requests (m net) = url :: more ->
  exists more', requests (iobind m k net) = url :: more'.
Proof.
  intros E. unfold iobind.
  destruct (outcome (m net)) as [[a|e]|]; cbn [requests after]; rewrite E; eauto.
  cbn [app]. eauto.
Qed.

(** C5.  With two date arguments that parse, an end before the start
    makes [download_range] raise [ValueError] before any request: the
    run has requested nothing and consumed nothing.  With an end on or
    after the start the operation goes on to the listing, the range
    filter and the downloads; its first request is the first listing
    request. *)
Theorem range_order_is_checked_before_listing
        (start_date end_date dest sas_url : str) (start end_ : date)
        (fs : disk) (net : list response) :
  _parse_yyyy_mm_dd start_date = Ok start ->
  _parse_yyyy_mm_dd end_date = Ok end_ ->
  (date_lt end_ start ->
   download_range start_date end_date dest sas_url fs net
   = mkrun [] net (Some (Raise end_before_start)))
  /\ (date_le start end_ ->
      download_range start_date end_date dest sas_url fs net
      = (blobs <~ list_blobs sas_url ;;
         filtered <~ lift (select (RangeInclusive start end_) blobs) ;;
         download_each filtered dest sas_url fs) net
      /\ forall base params,
          _base_url sas_url = Ok base -> _sas_params sas_url = Ok params ->
          exists more,
            requests (download_range start_date end_date dest sas_url fs net)
            = list_url base params None :: more).
Proof.
  intros Ps Pe.
  assert (download_range start_date end_date dest sas_url fs net
          = (if date_ltb end_ start
             then throw end_before_start
             else (blobs <~ list_blobs sas_url ;;
                   filtered <~ lift (select (RangeInclusive start end_) blobs) ;;
                   download_each filtered dest sas_url fs)) net) as E.
  { unfold download_range. rewrite Ps, iobind_lift_ok, Pe, iobind_lift_ok.
    reflexivity. }
  split.
  - intros L. apply date_ltb_lt in L. rewrite E, L. reflexivity.
  - intros L.
    assert (date_ltb end_ start = false) as F.
    { destruct (date_ltb end_ start) eqn:K; [|reflexivity].
      apply date_ltb_lt in K. destruct L as [L | ->].
      - now destruct (date_lt_asym _ _ L K).
      - now destruct (date_lt_irrefl _ K). }
    rewrite E, F. split; [reflexivity|].
    intros base params B P.
    destruct (loop_first_request base params None [] net) as (more & R).
    rewrite <- (list_blobs_loop_run sas_url base params net B P) in R.
    exact (iobind_first_request _ _ net _ _ R).
Qed.

End Validation.

Section ValidationExamples.

Lemma range_order_is_checked_before_listing_witness :
  @download_range plain_hosts small_disk (lit "2026-02-03") (lit "2026-02-01")
                  downloads sample_url empty_disk []
  = mkrun [] [] (Some (Raise end_before_start))
  /\ exists more,
      requests (@download_range plain_hosts small_disk (lit "2026-02-01") (lit "2026-02-03")
                                downloads sample_url empty_disk [])
      = list_url sample_base sample_token None :: more.
Proof.
  split.
  - apply (proj1 (@range_order_is_checked_before_listing plain_hosts small_disk
                    (lit "2026-02-03") (lit "2026-02-01") downloads sample_url
                    (mkdate 2026 2 3) (mkdate 2026 2 1) empty_disk []
                    ltac:(vm_compute; reflexivity) ltac:(vm_compute; reflexivity))).
    right. split; [reflexivity|]. right. split; [reflexivity|].
    cbn [day]. lia.
  - apply (proj2 (@range_order_is_checked_before_listing plain_hosts small_disk
                    (lit "2026-02-01") (lit "2026-02-03") downloads sample_url
                    (mkdate 2026 2 1) (mkdate 2026 2 3) empty_disk []
                    ltac:(vm_compute; reflexivity) ltac:(vm_compute; reflexivity))).
    + left. right. split; [reflexivity|]. right. split; [reflexivity|].
      cbn [day]. lia.
    + vm_compute. reflexivity.
    + vm_compute. reflexivity.
Defined.

End ValidationExamples.

(** ** Pagination *)

Section Pagination.

Context `{NetlocCheck}.

Lemma after_nil {A : Type} (r : run A) : after [] r = r.
Proof. now destruct r. Qed.

Lemma after_after {A : Type} (a b : list str) (r : run A) :
  after a (after b r) = after (a ++ b) r.
Proof. unfold after. cbn [requests pending outcome]. now rewrite app_assoc. Qed.

(** A page with a non-empty [NextMarker]: the loop goes on with it. *)
Lemma loop_more (base params : str) (marker : option str) (blobs : list blob)
      (p : more_page) (rest : list response) :
  is_more_page p ->
  list_blobs_loop base params marker blobs (page_response p :: rest)
  = after [list_url base params marker]
          (list_blobs_loop base params (Some (page_marker p))
                           (blobs ++ page_blobs p) rest).
Proof.
  intros [R N]. cbn [list_blobs_loop]. rewrite R.
  destruct (page_marker p) as [|c m]; [congruence | reflexivity].
Qed.

(** A page without [NextMarker], or with an empty one: the loop ends. *)
Lemma loop_last (base params : str) (marker : option str) (blobs : list blob)
      (r : response) (page : list blob) (next_marker : option str)
      (rest : list response) :
  read_page r = Ok (page, next_marker) ->
  next_marker = None \/ next_marker = Some [] ->
  list_blobs_loop base params marker blobs (r :: rest)
  = mkrun [list_url base params marker] rest (Some (Ok (blobs ++ page))).
Proof.
  intros R N. cbn [list_blobs_loop]. rewrite R.
  destruct N as [-> | ->]; reflexivity.
Qed.

Lemma loop_pages (base params : str) (pages : list more_page) :
  Forall is_more_page pages ->
  forall (marker : option str) (blobs : list blob) (rest : list response),
    list_blobs_loop base params marker blobs (map page_response pages ++ rest)
    = after (page_urls base params marker pages)
            (list_blobs_loop base params (marker_after marker pages)
                             (blobs ++ concat (map page_blobs pages)) rest).
Proof.
  induction 1 as [|p pages Hp _ IH]; intros marker blobs rest.
  - cbn [map app page_urls concat]. unfold marker_after. cbn [fold_left].
    now rewrite after_nil, app_nil_r.
  - cbn [map app page_urls concat]. rewrite (loop_more _ _ _ _ _ _ Hp), IH.
    rewrite after_after. unfold marker_after. cbn [fold_left app].
    now rewrite app_assoc.
Qed.

(** The request after page [i] carries the marker of page [i]. *)
Lemma page_urls_next (base params : str) (pages : list more_page) :
  forall (marker : option str) (more : list str) (i : nat) (p : more_page),
    nth_error pages i = Some p ->
    nth_error (page_urls base params marker pages
               ++ list_url base params (marker_after marker pages) :: more) (S i)
    = Some (list_url base params (Some (page_marker p))).
Proof.
  induction pages as [|q pages IH]; intros marker more i p E.
  - destruct i; discriminate.
  - cbn [page_urls app nth_error]. unfold marker_after. cbn [fold_left].
    destruct i as [|i].
    + injection E as ->. destruct pages; reflexivity.
    + cbn [nth_error] in E. exact (IH (Some (page_marker q)) more i p E).
Qed.

Lemma list_url_marker (base params m : str) :
  m <> [] ->
  list_url base params (Some m)
  = base ++ lit "?restype=container&comp=list&" ++ params ++ lit "&marker=" ++ m.
Proof.
  intros N. unfold list_url. destruct m; [congruence|].
  now rewrite <- !app_assoc.
Qed.

(** C7.  While the pages carry a non-empty [NextMarker], the request that
    follows page [i] is the listing URL with [&marker=] and the marker of
    page [i]; the first request carries no marker.  When a page carries
    no [NextMarker] or an empty one, the run ends there: it has made one
    request per page, the responses that follow are left unread, and the
    result is the records of all pages in page order. *)
Theorem pagination_follows_next_marker
        (sas_url base params : str) (pages : list more_page)
        (last : response) (last_blobs : list blob) (last_marker : option str)
        (rest : list response) :
  _base_url sas_url = Ok base -> _sas_params sas_url = Ok params ->
  Forall is_more_page pages ->
  (forall i p,
      nth_error pages i = Some p ->
      nth_error (requests (list_blobs sas_url (map page_response pages ++ rest)))
                (S i)
      = Some (base ++ lit "?restype=container&comp=list&" ++ params
              ++ lit "&marker=" ++ page_marker p))
  /\ nth_error (requests (list_blobs sas_url (map page_response pages ++ rest))) 0
     = Some (base ++ lit "?restype=container&comp=list&" ++ params)
  /\ (read_page last = Ok (last_blobs, last_marker) ->
      last_marker = None \/ last_marker = Some [] ->
      list_blobs sas_url (map page_response pages ++ last :: rest)
      = mkrun (page_urls base params None pages
               ++ [list_url base params (marker_after None pages)])
              rest
              (Some (Ok (concat (map page_blobs pages) ++ last_blobs)))).
Proof.
  intros B P F.
  assert (forall rest',
             exists more,
               requests (list_blobs sas_url (map page_response pages ++ rest'))
               = page_urls base params None pages
                 ++ list_url base params (marker_after None pages) :: more) as Req.
  { intros rest'. rewrite (list_blobs_loop_run _ _ _ _ B P), (loop_pages _ _ _ F).
    destruct (loop_first_request base params (marker_after None pages)
                ([] ++ concat (map page_blobs pages)) rest') as (more & E).
    exists more. cbn [after requests]. now rewrite E. }
  split; [|split].
  - intros i p E. destruct (Req rest) as (more & ->).
    rewrite (page_urls_next _ _ _ _ _ _ _ E).
    f_equal. apply list_url_marker.
    apply nth_error_In in E. rewrite Forall_forall in F. exact (proj2 (F p E)).
  - destruct (Req rest) as (more & ->).
    destruct pages; reflexivity.
  - intros R N.
    rewrite (list_blobs_loop_run _ _ _ _ B P), (loop_pages _ _ _ F).
    rewrite (loop_last _ _ _ _ _ _ _ _ R N). reflexivity.
Qed.

End Pagination.

Section PaginationExamples.

Lemma pagination_follows_next_marker_witness :
  (forall i p,
      nth_error [first_page] i = Some p ->
      nth_error (requests (@list_blobs plain_hosts sample_url
                             (map page_response [first_page] ++ [Unreachable])))
                (S i)
      = Some (sample_base ++ lit "?restype=container&comp=list&" ++ sample_token
              ++ lit "&marker=" ++ page_marker p))
  /\ nth_error (requests (@list_blobs plain_hosts sample_url
                            (map page_response [first_page] ++ [Unreachable]))) 0
     = Some (sample_base ++ lit "?restype=container&comp=list&" ++ sample_token)
  /\ @list_blobs plain_hosts sample_url
       (map page_response [first_page] ++ last_response :: [Unreachable])
     = mkrun [lit "https://acct.blob.core.windows.net/reports?restype=container&comp=list&sv=2022-11-02&sig=abc%3D";
              lit "https://acct.blob.core.windows.net/reports?restype=container&comp=list&sv=2022-11-02&sig=abc%3D&marker=page2"]
             [Unreachable]
             (Some (Ok [mkblob (Some (lit "a"))
                               (Some (lit "Wed, 11 Feb 2026 00:00:00 GMT")) 10;
                        mkblob (Some (lit "c"))
                               (Some (lit "Thu, 12 Feb 2026 00:00:01 GMT")) 0])).
Proof.
  destruct (@pagination_follows_next_marker plain_hosts
              sample_url sample_base sample_token [first_page] last_response
              [mkblob (Some (lit "c")) (Some (lit "Thu, 12 Feb 2026 00:00:01 GMT")) 0]
              (Some []) [Unreachable]
              ltac:(vm_compute; reflexivity) ltac:(vm_compute; reflexivity))
    as (Next & First & Stop).
  - constructor; [|constructor]. split; [vm_compute; reflexivity | discriminate].
  - split; [exact Next|]. split; [exact First|].
    exact (Stop ltac:(vm_compute; reflexivity) (or_intror eq_refl)).
Defined.

End PaginationExamples.

(** ** The access URL *)

Section Chars.

Lemma scheme_char_lower (c : ascii) :
  has c scheme_chars = true ->
  has (lower_char c) scheme_chars = true
  /\ lower_char (lower_char c) = lower_char c
  /\ Ascii.eqb (lower_char c) ":" = false
  /\ unsafe (lower_char c) = false
  /\ (code (lower_char c) <=? 32) = false
  /\ (isalpha c = true -> isalpha (lower_char c) = true).
Proof.
  destruct c as [[] [] [] [] [] [] [] []]; vm_compute; intros K;
    try discriminate K; repeat split; congruence.
Qed.

End Chars.

Section Texts.

Lemma has_app (c : ascii) (a b : str) : has c (a ++ b) = has c a || has c b.
Proof. apply existsb_app. Qed.

Lemma has_cons (c x : ascii) (s : str) : has c (x :: s) = Ascii.eqb c x || has c s.
Proof. reflexivity. Qed.

Lemma find_nonneg (c : ascii) (s : str) : 0 <= find c s <-> has c s = true.
Proof.
  induction s as [|x s IH]; cbn [find has existsb].
  - split; [lia | discriminate].
  - rewrite (Ascii.eqb_sym c x). destruct (Ascii.eqb x c); [split; [reflexivity | lia]|].
    cbn [orb]. fold (has c s). rewrite <- IH.
    destruct (Z.ltb_spec (find c s) 0); lia.
Qed.

Lemma find_bounds (c : ascii) (s : str) : -1 <= find c s < len s.
Proof.
  unfold len. induction s as [|x s IH]; cbn [find length]; [lia|].
  destruct (Ascii.eqb x c); [lia|].
  destruct (Z.ltb_spec (find c s) 0); lia.
Qed.

(** The first occurrence: nothing before it, the character at it. *)
Lemma find_split (c : ascii) (s : str) :
  has c s = true ->
  s = upto s (find c s) ++ c :: from s (find c s + 1)
  /\ has c (upto s (find c s)) = false.
Proof.
  unfold upto, from.
  induction s as [|x s IH]; cbn [find has existsb]; [discriminate|].
  rewrite (Ascii.eqb_sym c x). destruct (Ascii.eqb x c) eqn:E.
  - intros _. apply Ascii.eqb_eq in E. subst x. cbn. split; reflexivity.
  - cbn [orb]. fold (has c s). intros Hs. destruct (IH Hs) as [Sp N].
    pose proof (proj2 (find_nonneg c s) Hs) as P.
    destruct (Z.ltb_spec (find c s) 0); [lia|].
    replace (Z.to_nat (find c s + 1)) with (S (Z.to_nat (find c s))) by lia.
    replace (Z.to_nat (find c s + 1 + 1)) with (S (Z.to_nat (find c s + 1))) by lia.
    cbn [firstn skipn app]. split.
    + f_equal. exact Sp.
    + cbn [has existsb]. rewrite (Ascii.eqb_sym c x), E. exact N.
Qed.

Lemma find_app (c : ascii) (a b : str) :
  has c a = false -> find c (a ++ c :: b) = len a.
Proof.
  unfold len. induction a as [|x a IH]; cbn [app find length has existsb].
  - intros _. now rewrite Ascii.eqb_refl.
  - rewrite (Ascii.eqb_sym c x). destruct (Ascii.eqb x c); [discriminate|].
    cbn [orb]. intros N. rewrite (IH N).
    destruct (Z.ltb_spec (Z.of_nat (length a)) 0); lia.
Qed.

Lemma upto_app (a b : str) : upto (a ++ b) (len a) = a.
Proof.
  unfold upto, len. rewrite Nat2Z.id.
  rewrite firstn_app, Nat.sub_diag, firstn_all. cbn. apply app_nil_r.
Qed.

Lemma from_app (a b : str) : from (a ++ b) (len a) = b.
Proof.
  unfold from, len. rewrite Nat2Z.id.
  rewrite skipn_app, Nat.sub_diag, skipn_all. reflexivity.
Qed.

Lemma from_app_cons (a b : str) (c : ascii) : from (a ++ c :: b) (len a + 1) = b.
Proof.
  replace (a ++ c :: b) with ((a ++ [c]) ++ b) by now rewrite <- app_assoc.
  replace (len a + 1) with (len (a ++ [c])); [apply from_app|].
  unfold len. rewrite length_app. cbn [length]. lia.
Qed.

Lemma split1_app (c : ascii) (a b : str) :
  has c a = false -> split1 c (a ++ c :: b) = (a, b).
Proof.
  intros N. unfold split1. rewrite (find_app c a b N).
  now rewrite upto_app, from_app_cons.
Qed.

Lemma break_spec (p : ascii -> bool) (s : str) :
  s = fst (break p s) ++ snd (break p s)
  /\ forallb (fun c => negb (p c)) (fst (break p s)) = true
  /\ match snd (break p s) with [] => True | c :: _ => p c = true end.
Proof.
  induction s as [|x s IH]; cbn [break]; [repeat split|].
  destruct (p x) eqn:E; [cbn; repeat split; exact E|].
  destruct (break p s) as [a b]. cbn [fst snd] in *.
  destruct IH as (Sp & F & D). cbn [app forallb]. rewrite E. cbn.
  repeat split; [now f_equal | exact F | exact D].
Qed.

Lemma break_app (p : ascii -> bool) (a b : str) :
  forallb (fun c => negb (p c)) a = true ->
  match b with [] => True | c :: _ => p c = true end ->
  break p (a ++ b) = (a, b).
Proof.
  intros F D. induction a as [|x a IH]; cbn [app].
  - destruct b as [|c b]; [reflexivity|]. cbn [break]. now rewrite D.
  - cbn [forallb] in F. apply andb_true_iff in F. destruct F as [Fx F].
    cbn [break]. apply negb_true_iff in Fx. rewrite Fx, (IH F). reflexivity.
Qed.

Lemma str_eqb_eq (a b : str) : str_eqb a b = true <-> a = b.
Proof.
  revert b. induction a as [|x a IH]; intros [|y b]; cbn [str_eqb];
    try (split; [discriminate | congruence]); [tauto|].
  rewrite andb_true_iff, Ascii.eqb_eq, IH. split.
  - intros [-> ->]. reflexivity.
  - intros K. injection K as -> ->. auto.
Qed.

End Texts.

Section UrlSplit.

Context `{NetlocCheck}.

Lemma scheme_char_plain (c : ascii) :
  has c scheme_chars = true ->
  Ascii.eqb ":" c = false /\ unsafe c = false /\ (code c <=? 32) = false.
Proof.
  destruct c as [[] [] [] [] [] [] [] []]; vm_compute; intros K;
    try discriminate K; repeat split; congruence.
Qed.

Lemma alpha_is_scheme_char (c : ascii) :
  isalpha c = true -> (code c <=? 32) = false.
Proof.
  destruct c as [[] [] [] [] [] [] [] []]; vm_compute; intros K;
    try discriminate K; reflexivity.
Qed.

Lemma remove_unsafe_safe (s : str) : Forall safe s -> remove_unsafe s = s.
Proof.
  unfold remove_unsafe, safe. induction 1 as [|c s Hc _ IH]; [reflexivity|].
  cbn [filter]. rewrite Hc. cbn. now f_equal.
Qed.

Lemma remove_unsafe_is_safe (s : str) : Forall safe (remove_unsafe s).
Proof.
  unfold remove_unsafe, safe. apply Forall_forall. intros c Hc.
  apply filter_In in Hc. now apply negb_true_iff.
Qed.

Lemma remove_unsafe_app (a b : str) :
  remove_unsafe (a ++ b) = remove_unsafe a ++ remove_unsafe b.
Proof. apply filter_app. Qed.

Lemma has_remove_unsafe (c : ascii) (s : str) :
  has c s = false -> has c (remove_unsafe s) = false.
Proof.
  unfold has, remove_unsafe. induction s as [|x s IH]; [reflexivity|].
  cbn [existsb filter]. intros K. apply orb_false_iff in K. destruct K as [Kx K].
  destruct (negb (unsafe x)); [cbn [existsb]; rewrite Kx|]; now apply IH.
Qed.

Lemma scheme_like_facts (s : str) :
  scheme_like s ->
  has ":" s = false /\ Forall safe s /\ (forall x, lstrip_c0 (s ++ x) = s ++ x)
  /\ 0 < len s.
Proof.
  intros (N & A & F & L).
  rewrite forallb_forall in F.
  split; [|split; [|split]].
  - unfold has. apply not_true_is_false. intros K. apply existsb_exists in K.
    destruct K as (c & Hc & E). destruct (scheme_char_plain c (F c Hc)) as (K & _).
    congruence.
  - apply Forall_forall. intros c Hc. exact (proj1 (proj2 (scheme_char_plain c (F c Hc)))).
  - intros x. destruct s as [|c s]; [congruence|]. cbn [app lstrip_c0].
    now rewrite (alpha_is_scheme_char c A).
  - unfold len. destruct s; [congruence | cbn [length]; lia].
Qed.

(** A URL of the shape [scheme://netloc path?query] splits into its
    parts. *)
Lemma urlsplit_shape (url s n pre q : str) :
  remove_unsafe (lstrip_c0 url) = s ++ lit "://" ++ n ++ pre ++ "?"%char :: q ->
  scheme_like s ->
  n <> [] -> forallb (fun c => negb (delim c)) n = true ->
  check_netloc n = Ok tt ->
  starts_delim pre -> has "?" pre = false -> has "#" pre = false ->
  has "#" q = false ->
  urlsplit url = Ok (mkSplitResult s n pre q []).
Proof.
  intros U S N D C P Q1 Q2 Q3.
  destruct (scheme_like_facts s S) as (Colon & _ & _ & Pos).
  destruct S as (_ & A & F & L).
  unfold urlsplit. rewrite U. clear U.
  change (s ++ lit "://" ++ n ++ pre ++ "?"%char :: q)
    with (s ++ ":"%char :: ("/"%char :: "/"%char :: n ++ pre ++ "?"%char :: q)).
  rewrite (find_app ":" s _ Colon), upto_app, from_app_cons.
  assert ((0 <? len s) = true) as -> by now apply Z.ltb_lt.
  assert (match s ++ ":"%char :: "/"%char :: "/"%char :: n ++ pre ++ "?"%char :: q with
          | [] => false
          | c :: _ => isalpha c
          end = true) as ->.
  { destruct s as [|c s]; [unfold len in Pos; cbn in Pos; lia | exact A]. }
  rewrite F, L. cbn [andb].
  change (upto ("/"%char :: "/"%char :: n ++ pre ++ "?"%char :: q) 2)
    with (match n ++ pre ++ "?"%char :: q with _ => lit "//" end).
  change (str_eqb (lit "//") (lit "//")) with true. cbn iota.
  unfold _splitnetloc.
  change (from ("/"%char :: "/"%char :: n ++ pre ++ "?"%char :: q) 2)
    with (n ++ pre ++ "?"%char :: q).
  rewrite (break_app delim n (pre ++ "?"%char :: q) D).
  2:{ destruct pre as [|c pre]; [reflexivity | exact P]. }
  assert ((len n =? 0) = false) as ->.
  { apply Z.eqb_neq. unfold len. destruct n; [congruence | cbn [length]; lia]. }
  rewrite C. cbn [bind].
  assert (has "#" (pre ++ "?"%char :: q) = false) as ->.
  { rewrite has_app, Q2. cbn [orb]. rewrite has_cons, Q3. reflexivity. }
  assert (has "?" (pre ++ "?"%char :: q) = true) as ->.
  { rewrite has_app, has_cons. cbn. apply orb_true_r. }
  rewrite (split1_app "?" pre q Q1). reflexivity.
Qed.

Lemma Forall_firstn {A : Type} (P : A -> Prop) (n : nat) (l : list A) :
  Forall P l -> Forall P (firstn n l).
Proof.
  intros F. apply Forall_forall. intros x Hx. rewrite Forall_forall in F.
  apply F. rewrite <- (firstn_skipn n l). apply in_or_app. now left.
Qed.

Lemma Forall_skipn {A : Type} (P : A -> Prop) (n : nat) (l : list A) :
  Forall P l -> Forall P (skipn n l).
Proof.
  intros F. apply Forall_forall. intros x Hx. rewrite Forall_forall in F.
  apply F. rewrite <- (firstn_skipn n l). apply in_or_app. now right.
Qed.

Lemma has_firstn (c : ascii) (n : nat) (s : str) :
  has c s = false -> has c (firstn n s) = false.
Proof.
  intros K. rewrite <- (firstn_skipn n s), has_app in K.
  now apply orb_false_iff in K.
Qed.

Lemma has_skipn (c : ascii) (n : nat) (s : str) :
  has c s = false -> has c (skipn n s) = false.
Proof.
  intros K. rewrite <- (firstn_skipn n s), has_app in K.
  now apply orb_false_iff in K.
Qed.

Lemma starts_delim_firstn (n : nat) (s : str) :
  starts_delim s -> starts_delim (firstn n s).
Proof. destruct s, n; cbn; auto. Qed.

(** What [split1] gives when the character occurs. *)
Lemma split1_parts (c : ascii) (s : str) :
  has c s = true ->
  exists n m, split1 c s = (firstn n s, skipn m s) /\ has c (firstn n s) = false.
Proof.
  intros Hs. destruct (find_split c s Hs) as [_ N].
  exists (Z.to_nat (find c s)), (Z.to_nat (find c s + 1)). split; [reflexivity | exact N].
Qed.

Lemma lower_lower (s : str) :
  forallb (fun c => has c scheme_chars) s = true -> lower (lower s) = lower s.
Proof.
  unfold lower. rewrite forallb_forall. intros F. rewrite map_map.
  apply map_ext_in. intros c Hc. exact (proj1 (proj2 (scheme_char_lower c (F c Hc)))).
Qed.

Lemma lower_scheme_like (s : str) :
  s <> [] ->
  match s with c :: _ => isalpha c = true | [] => True end ->
  forallb (fun c => has c scheme_chars) s = true ->
  scheme_like (lower s).
Proof.
  intros N A F. split; [|split; [|split]].
  - destruct s; [congruence | discriminate].
  - destruct s as [|c s]; [exact I|]. cbn [lower map].
    cbn [forallb] in F. apply andb_true_iff in F.
    exact (proj2 (proj2 (proj2 (proj2 (proj2 (scheme_char_lower c (proj1 F)))))) A).
  - unfold lower. rewrite forallb_forall in *. intros c Hc.
    apply in_map_iff in Hc. destruct Hc as (x & <- & Hx).
    exact (proj1 (scheme_char_lower x (F x Hx))).
  - now apply lower_lower.
Qed.

(** The parts of a URL that [urlsplit] accepts with a scheme and a
    network location. *)
Lemma urlsplit_inv (url : str) (r : SplitResult) :
  urlsplit url = Ok r -> s_scheme r <> [] -> s_netloc r <> [] ->
  scheme_like (s_scheme r)
  /\ forallb (fun c => negb (delim c)) (s_netloc r) = true
  /\ check_netloc (s_netloc r) = Ok tt
  /\ Forall safe (s_netloc r)
  /\ starts_delim (s_path r)
  /\ has "?" (s_path r) = false /\ has "#" (s_path r) = false
  /\ Forall safe (s_path r)
  /\ has "#" (s_query r) = false /\ Forall safe (s_query r).
Proof.
  unfold urlsplit.
  set (u1 := remove_unsafe (lstrip_c0 url)).
  assert (Forall safe u1) as S1 by apply remove_unsafe_is_safe.
  set (i := find ":" u1).
  destruct (if (0 <? i) && match u1 with c :: _ => isalpha c | [] => false end
               && forallb (fun c => has c scheme_chars) (upto u1 i)
            then (lower (upto u1 i), from u1 (i + 1)) else ([], u1))
    as [sch u2] eqn:E1.
  destruct (if str_eqb (upto u2 2) (lit "//") then _splitnetloc u2 else ([], u2))
    as [nl u3] eqn:E2.
  destruct (if len nl =? 0 then Ok tt else check_netloc nl) as [[]|e] eqn:E3;
    cbn [bind]; [|discriminate].
  destruct (if has "#" u3 then split1 "#" u3 else (u3, [])) as [u4 frag] eqn:E4.
  destruct (if has "?" u4 then split1 "?" u4 else (u4, [])) as [pth qry] eqn:E5.
  intros K. injection K as <-. cbn [s_scheme s_netloc s_path s_query].
  intros Nsch Nnl.
  (* the scheme *)
  destruct ((0 <? i) && match u1 with c :: _ => isalpha c | [] => false end
            && forallb (fun c => has c scheme_chars) (upto u1 i)) eqn:C;
    [|injection E1 as <- <-; congruence].
  injection E1 as <- <-.
  apply andb_true_iff in C. destruct C as [C C3].
  apply andb_true_iff in C. destruct C as [C1 C2]. apply Z.ltb_lt in C1.
  assert (Forall safe (from u1 (i + 1))) as S2 by now apply Forall_skipn.
  (* the network location *)
  destruct (str_eqb (upto (from u1 (i + 1)) 2) (lit "//")) eqn:Sl;
    [|injection E2 as <- <-; congruence].
  unfold _splitnetloc in E2.
  pose proof (break_spec delim (from (from u1 (i + 1)) 2)) as (B1 & B2 & B3).
  rewrite E2 in B1, B2, B3. cbn [fst snd] in B1, B2, B3.
  assert (Forall safe (from (from u1 (i + 1)) 2)) as S3 by now apply Forall_skipn.
  rewrite B1 in S3. apply Forall_app in S3. destruct S3 as [Snl Su3].
  assert ((len nl =? 0) = false) as Ln.
  { apply Z.eqb_neq. unfold len. destruct nl; [congruence | cbn [length]; lia]. }
  rewrite Ln in E3.
  (* the fragment and the query *)
  assert (exists n, u4 = firstn n u3 /\ has "#" u4 = false) as (n4 & U4 & H4).
  { destruct (has "#" u3) eqn:Hh.
    - destruct (split1_parts "#" u3 Hh) as (n & m & Sp & Nh).
      rewrite Sp in E4. injection E4 as <- <-. eauto.
    - injection E4 as <- <-. exists (length u3). now rewrite firstn_all. }
  assert (exists n, pth = firstn n u4 /\ has "?" pth = false
                    /\ has "#" qry = false /\ Forall safe qry)
    as (n5 & U5 & H5 & H6 & S6).
  { assert (Forall safe u4) as Su4 by (rewrite U4; now apply Forall_firstn).
    destruct (has "?" u4) eqn:Hq.
    - destruct (split1_parts "?" u4 Hq) as (n & m & Sp & Nq).
      rewrite Sp in E5. injection E5 as <- <-. exists n.
      split; [reflexivity|]. split; [exact Nq|].
      split; [now apply has_skipn | now apply Forall_skipn].
    - injection E5 as <- <-. exists (length u4). rewrite firstn_all.
      repeat split; [exact Hq | constructor]. }
  split.
  { apply lower_scheme_like.
    - destruct u1 as [|c u1']; [discriminate C2|].
      unfold upto. destruct (Z.to_nat i) eqn:Ei; [lia | discriminate].
    - destruct u1 as [|c u1']; [discriminate C2|].
      unfold upto. destruct (Z.to_nat i) eqn:Ei; [lia | exact C2].
    - exact C3. }
  split; [exact B2|]. split; [exact E3|]. split; [exact Snl|].
  subst pth u4.
  split; [apply starts_delim_firstn, starts_delim_firstn; exact B3|].
  split; [exact H5|]. split; [now apply has_firstn|].
  split; [apply Forall_firstn, Forall_firstn; exact Su3|].
  split; assumption.
Qed.

End UrlSplit.

Section Rejoin.

Context `{NetlocCheck}.

Lemma urlparse_inv (url : str) (p : ParseResult) :
  urlparse url = Ok p ->
  exists r n,
    urlsplit url = Ok r
    /\ scheme p = s_scheme r /\ netloc p = s_netloc r
    /\ path p = firstn n (s_path r) /\ query p = s_query r.
Proof.
  unfold urlparse. destruct (urlsplit url) as [r|e]; cbn [bind]; [|discriminate].
  destruct (mem (s_scheme r) uses_params && has ";" (s_path r)).
  - unfold _splitparams.
    destruct (has "/" (s_path r)).
    + destruct (find ";" (from (s_path r) (rfind "/" (s_path r))) <? 0).
      * intros K. injection K as <-. exists r, (length (s_path r)).
        cbn [scheme netloc path query]. rewrite firstn_all. auto.
      * intros K. injection K as <-. eexists r, _.
        cbn [scheme netloc path query]. unfold upto. auto.
    + intros K. injection K as <-. eexists r, _.
      cbn [scheme netloc path query]. unfold upto. auto.
  - intros K. injection K as <-. exists r, (length (s_path r)).
    cbn [scheme netloc path query]. rewrite firstn_all. auto.
Qed.

Lemma sas_params_of_split (url : str) (r : SplitResult) :
  urlsplit url = Ok r -> _sas_params url = Ok (s_query r).
Proof.
  intros E. unfold _sas_params, urlparse. rewrite E. cbn [bind].
  now destruct (mem (s_scheme r) uses_params && has ";" (s_path r));
    [destruct (_splitparams (s_path r))|].
Qed.

(** C9.  For an access URL that [urlparse] accepts with a scheme and a
    host, the base is the scheme, the host and the path, and the token is
    the query.  The listing URL built from the two parses again and its
    query is the listing parameters followed by the token.  The blob URL
    is the base, the name and the token after [?]; for a name without
    [?] and [#] it parses again and its query is the token. *)
Theorem token_survives_split_and_rejoin
        (sas_url blob_name : str) (p : ParseResult) :
  urlparse sas_url = Ok p -> scheme p <> [] -> netloc p <> [] ->
  exists base,
    _base_url sas_url = Ok base
    /\ base = scheme p ++ lit "://" ++ netloc p ++ path p
    /\ _sas_params sas_url = Ok (query p)
    /\ _sas_params (list_url base (query p) None)
       = Ok (lit "restype=container&comp=list&" ++ query p)
    /\ blob_url base blob_name (query p)
       = base ++ lit "/" ++ blob_name ++ lit "?" ++ query p
    /\ (has "?" blob_name = false -> has "#" blob_name = false ->
        _sas_params (blob_url base blob_name (query p)) = Ok (query p)).
Proof.
  intros P Ns Nn.
  destruct (urlparse_inv sas_url p P) as (r & k & R & Es & En & Ep & Eq).
  rewrite Es in Ns. rewrite En in Nn.
  destruct (urlsplit_inv sas_url r R Ns Nn)
    as (Sch & Dn & Cn & Sn & Dp & Qp & Hp & Sp & Hq & Sq).
  destruct (scheme_like_facts _ Sch) as (_ & Ss & Strip & _).
  exists (scheme p ++ lit "://" ++ netloc p ++ path p).
  split; [unfold _base_url; rewrite P; reflexivity|].
  split; [reflexivity|].
  split; [unfold _sas_params; rewrite P; reflexivity|].
  rewrite Es, En, Ep, Eq.
  set (pth := firstn k (s_path r)).
  assert (starts_delim pth) as Dp' by now apply starts_delim_firstn.
  assert (has "?" pth = false) as Qp' by now apply has_firstn.
  assert (has "#" pth = false) as Hp' by now apply has_firstn.
  assert (Forall safe pth) as Sp' by now apply Forall_firstn.
  assert (Forall safe (lit "://")) as Sl by (repeat constructor).
  split; [|split; [reflexivity|]].
  - (* the listing URL *)
    rewrite (sas_params_of_split _
               (mkSplitResult (s_scheme r) (s_netloc r) pth
                              (lit "restype=container&comp=list&" ++ s_query r) []));
      [reflexivity|].
    apply urlsplit_shape; try assumption.
    + unfold list_url. rewrite <- !app_assoc. rewrite Strip.
      assert (Forall safe (lit "?restype=container&comp=list&")) as Sr
          by (repeat constructor).
      rewrite !remove_unsafe_app.
      rewrite (remove_unsafe_safe _ Ss), (remove_unsafe_safe _ Sl),
        (remove_unsafe_safe _ Sn), (remove_unsafe_safe _ Sp'),
        (remove_unsafe_safe _ Sq), (remove_unsafe_safe _ Sr).
      reflexivity.
  - (* the blob URL *)
    intros Q1 Q2.
    rewrite (sas_params_of_split _
               (mkSplitResult (s_scheme r) (s_netloc r)
                              (pth ++ "/"%char :: remove_unsafe blob_name)
                              (s_query r) [])); [reflexivity|].
    apply urlsplit_shape; try assumption.
    + unfold blob_url. rewrite <- !app_assoc. rewrite Strip.
      rewrite !remove_unsafe_app.
      rewrite (remove_unsafe_safe _ Ss), (remove_unsafe_safe _ Sl),
        (remove_unsafe_safe _ Sn), (remove_unsafe_safe _ Sp'),
        (remove_unsafe_safe _ Sq).
      change (remove_unsafe (lit "/")) with (lit "/").
      change (remove_unsafe (lit "?")) with (lit "?").
      reflexivity.
    + destruct pth; [reflexivity | exact Dp'].
    + rewrite has_app, Qp'. cbn [orb]. rewrite has_cons.
      now rewrite (has_remove_unsafe _ _ Q1).
    + rewrite has_app, Hp'. cbn [orb]. rewrite has_cons.
      now rewrite (has_remove_unsafe _ _ Q2).
Qed.

End Rejoin.

Section RejoinExamples.

Lemma token_survives_split_and_rejoin_witness :
  exists base,
    @_base_url plain_hosts sample_url = Ok base
    /\ base = lit "https" ++ lit "://" ++ lit "acct.blob.core.windows.net"
              ++ lit "/reports"
    /\ @_sas_params plain_hosts sample_url = Ok sample_token
    /\ @_sas_params plain_hosts (list_url base sample_token None)
       = Ok (lit "restype=container&comp=list&" ++ sample_token)
    /\ blob_url base sample_name sample_token
       = base ++ lit "/" ++ sample_name ++ lit "?" ++ sample_token
    /\ @_sas_params plain_hosts (blob_url base sample_name sample_token)
       = Ok sample_token.
Proof.
  destruct (@token_survives_split_and_rejoin plain_hosts sample_url sample_name
              (mkParseResult (lit "https") (lit "acct.blob.core.windows.net")
                             (lit "/reports") [] sample_token [])
              ltac:(vm_compute; reflexivity) ltac:(discriminate) ltac:(discriminate))
    as (base & B & E & T & L & U & R).
  exists base. repeat (split; [assumption|]).
  apply R; vm_compute; reflexivity.
Defined.

End RejoinExamples.

(** * Further properties of the script

    The properties below cover the environment file, the listing loop,
    the download loop, the subcommands with [main], the date arguments
    and the two halves of the access URL.  As in the rest of the
    development a request is a step of the run, and creating a
    directory and writing a file are steps on the state of the file
    system, each of which may raise. *)

(** ** The environment file *)

Section DotenvProofs.

Lemma getitem_app (env : environ) (key k v : str) :
  getitem (env ++ [(k, v)]) key
  = match getitem env key with
    | Some x => Some x
    | None => if str_eqb key k then Some v else None
    end.
Proof.
  induction env as [|[k' v'] env IH]; cbn [app getitem]; [reflexivity|].
  destruct (str_eqb key k'); [reflexivity | exact IH].
Qed.

Lemma setdefault_keeps (env : environ) (k v key x : str) :
  getitem env key = Some x ->
  getitem (fst (setdefault env k v)) key = Some x.
Proof.
  intros G. unfold setdefault.
  destruct (getitem env k); [exact G|].
  destruct (has nul k || has nul v); [exact G|].
  destruct ((len k =? 0) || has "=" k); [exact G|].
  cbn [fst]. now rewrite getitem_app, G.
Qed.

Lemma load_lines_keeps (lines : list str) :
  forall (env : environ) (key x : str),
    getitem env key = Some x ->
    getitem (fst (load_lines lines env)) key = Some x.
Proof.
  induction lines as [|raw lines IH]; intros env key x G; [exact G|].
  cbn [load_lines]. destruct (assignment raw) as [[k v]|]; [|now apply IH].
  pose proof (setdefault_keeps env k v key x G) as K.
  destruct (setdefault env k v) as [env' [[]|e]]; cbn [fst] in K |- *;
    [now apply IH | exact K].
Qed.

Lemma str_eqb_refl (s : str) : str_eqb s s = true.
Proof. induction s; cbn [str_eqb]; [reflexivity|]. now rewrite Ascii.eqb_refl. Qed.

Lemma str_eqb_true (a b : str) : str_eqb a b = true -> a = b.
Proof.
  revert b. induction a as [|x a IH]; intros [|y b]; cbn [str_eqb];
    try discriminate; [reflexivity|].
  intros K. apply andb_true_iff in K. destruct K as [E K].
  apply Ascii.eqb_eq in E. subst y. f_equal. now apply IH.
Qed.

(** X1.  A variable that is set when the file is loaded keeps its value,
    whatever the file holds: the environment wins over the file.  In
    particular a [BASE_SAS_URL] of the environment is the default URL of
    the script. *)
Theorem dotenv_never_overrides
        (file : option (list str)) (env : environ) (key value : str) :
  getitem env key = Some value ->
  getitem (fst (_load_dotenv file env)) key = Some value
  /\ (key = lit "BASE_SAS_URL" ->
      forall url, BASE_SAS_URL file env = Ok url -> url = value).
Proof.
  intros G.
  assert (getitem (fst (_load_dotenv file env)) key = Some value) as K.
  { destruct file as [lines|]; [now apply load_lines_keeps | exact G]. }
  split; [exact K|].
  intros -> url. unfold BASE_SAS_URL, getenv.
  destruct (_load_dotenv file env) as [env' [[]|e]]; [|discriminate].
  cbn [fst] in K. rewrite K. congruence.
Qed.

Lemma dotenv_never_overrides_witness :
  getitem (fst (_load_dotenv (Some [lit "BASE_SAS_URL=https://file/c?t"])
                             [(lit "BASE_SAS_URL", lit "https://env/c?t")]))
          (lit "BASE_SAS_URL")
  = Some (lit "https://env/c?t")
  /\ (lit "BASE_SAS_URL" = lit "BASE_SAS_URL" ->
      forall url,
        BASE_SAS_URL (Some [lit "BASE_SAS_URL=https://file/c?t"])
                     [(lit "BASE_SAS_URL", lit "https://env/c?t")] = Ok url ->
        url = lit "https://env/c?t").
Proof.
  apply (dotenv_never_overrides
           (Some [lit "BASE_SAS_URL=https://file/c?t"])
           [(lit "BASE_SAS_URL", lit "https://env/c?t")]).
  reflexivity.
Defined.

Lemma setdefault_other (env : environ) (k v key : str) :
  str_eqb key k = false ->
  getitem (fst (setdefault env k v)) key = getitem env key.
Proof.
  intros N. unfold setdefault.
  destruct (getitem env k); [reflexivity|].
  destruct (has nul k || has nul v); [reflexivity|].
  destruct ((len k =? 0) || has "=" k); [reflexivity|].
  cbn [fst]. rewrite getitem_app, N. now destruct (getitem env key).
Qed.

(** X2.  When the file loads without error, a name that was not set gets
    the value of the first line that assigns it; later assignments of
    the name change nothing. *)
Theorem dotenv_first_assignment_wins
        (before after : list str) (raw_line key value : str)
        (env env' : environ) :
  getitem env key = None ->
  (forall r v, In r before -> assignment r <> Some (key, v)) ->
  assignment raw_line = Some (key, value) ->
  _load_dotenv (Some (before ++ raw_line :: after)) env = (env', Ok tt) ->
  getitem env' key = Some value.
Proof.
  cbn [_load_dotenv]. revert env.
  induction before as [|r before IH]; intros env G NB A L.
  - cbn [app load_lines] in L. rewrite A in L.
    unfold setdefault in L. rewrite G in L.
    destruct (has nul key || has nul value); [discriminate L|].
    destruct ((len key =? 0) || has "=" key); [discriminate L|].
    assert (getitem (env ++ [(key, value)]) key = Some value) as K
        by now rewrite getitem_app, G, str_eqb_refl.
    pose proof (load_lines_keeps after _ _ _ K) as K'.
    rewrite L in K'. exact K'.
  - cbn [app load_lines] in L.
    assert (forall r' v, In r' before -> assignment r' <> Some (key, v)) as NB'
        by (intros r' v Hr; apply NB; now right).
    destruct (assignment r) as [[k v]|] eqn:Ar; [|exact (IH env G NB' A L)].
    assert (str_eqb key k = false) as Nk.
    { destruct (str_eqb key k) eqn:E; [|reflexivity].
      apply str_eqb_true in E. subst k.
      now destruct (NB r v (or_introl eq_refl)). }
    pose proof (setdefault_other env k v key Nk) as S.
    destruct (setdefault env k v) as [env1 [[]|e]]; [|discriminate L].
    cbn [fst] in S. apply (IH env1); [now rewrite S | exact NB' | exact A | exact L].
Qed.

Lemma dotenv_first_assignment_wins_witness :
  getitem [(lit "HOME", lit "/root"); (lit "A", lit "1")] (lit "A")
  = Some (lit "1").
Proof.
  apply (dotenv_first_assignment_wins
           [lit "# settings"] [lit "A=2"] (lit " A = '1' ") (lit "A") (lit "1")
           [(lit "HOME", lit "/root")]).
  - reflexivity.
  - intros r v [<- | []]. vm_compute. discriminate.
  - vm_compute. reflexivity.
  - vm_compute. reflexivity.
Defined.

(** X3.  Loading the file sets nothing but what a line of the file
    assigns: a name that was not set and is set afterwards comes, with
    its value, from a line of the file; it is not empty and has no [=],
    and neither it nor the value holds a NUL character. *)
Theorem dotenv_sets_only_assigned
        (file : option (list str)) (env : environ) (key value : str) :
  getitem env key = None ->
  getitem (fst (_load_dotenv file env)) key = Some value ->
  exists lines raw_line,
    file = Some lines /\ In raw_line lines
    /\ assignment raw_line = Some (key, value)
    /\ key <> [] /\ has "=" key = false
    /\ has nul key = false /\ has nul value = false.
Proof.
  destruct file as [lines|]; cbn [_load_dotenv fst]; [|congruence].
  intros G K. exists lines.
  revert env G K. induction lines as [|r lines IH]; intros env G K.
  - cbn [load_lines fst] in K. congruence.
  - cbn [load_lines] in K.
    destruct (assignment r) as [[k v]|] eqn:A.
    + destruct (getitem (fst (setdefault env k v)) key) as [x|] eqn:S.
      * (* this line sets the name *)
        assert (getitem (fst (match setdefault env k v with
                              | (env', Ok _) => load_lines lines env'
                              | (env', Raise e) => (env', Raise e)
                              end)) key = Some x) as Kx.
        { destruct (setdefault env k v) as [env1 [[]|e]]; cbn [fst] in S |- *;
            [now apply load_lines_keeps | exact S]. }
        rewrite Kx in K. injection K as ->.
        unfold setdefault in S. rewrite ?G in S.
        destruct (getitem env k) eqn:Gk; [cbn [fst] in S; congruence|].
        destruct (has nul k || has nul v) eqn:N; [cbn [fst] in S; congruence|].
        destruct ((len k =? 0) || has "=" k) eqn:E; [cbn [fst] in S; congruence|].
        cbn [fst] in S. rewrite getitem_app, G in S.
        destruct (str_eqb key k) eqn:Ek; [|discriminate].
        apply str_eqb_true in Ek. subst k. injection S as ->.
        apply orb_false_iff in N, E. destruct N as [N1 N2]. destruct E as [E1 E2].
        exists r. split; [reflexivity|]. split; [now left|]. split; [exact A|].
        split; [intros ->; discriminate E1|]. auto.
      * destruct (setdefault env k v) as [env1 [[]|e]]; cbn [fst] in S, K;
          [|congruence].
        destruct (IH env1 S K) as (raw & _ & Hin & Rest).
        exists raw. split; [reflexivity|]. split; [now right | exact Rest].
    + destruct (IH env G K) as (raw & _ & Hin & Rest).
      exists raw. split; [reflexivity|]. split; [now right | exact Rest].
Qed.

Lemma dotenv_sets_only_assigned_witness :
  exists lines raw_line,
    Some [lit "# settings"; lit " A = '1' "] = Some lines /\ In raw_line lines
    /\ assignment raw_line = Some (lit "A", lit "1")
    /\ lit "A" <> [] /\ has "=" (lit "A") = false
    /\ has nul (lit "A") = false /\ has nul (lit "1") = false.
Proof.
  apply (dotenv_sets_only_assigned
           (Some [lit "# settings"; lit " A = '1' "]) [(lit "HOME", lit "/root")]).
  - reflexivity.
  - vm_compute. reflexivity.
Defined.

(** Stripping a text of its padding. *)
Lemma lstrip_pad (w x : str) :
  Forall (fun c => isspace c = true) w ->
  match x with [] => True | c :: _ => isspace c = false end ->
  lstrip (w ++ x) = x.
Proof.
  intros W X. induction W as [|c w Hc _ IH]; cbn [app lstrip].
  - destruct x as [|c x]; [reflexivity|]. cbn [lstrip]. now rewrite X.
  - now rewrite Hc.
Qed.

Lemma strip_pad (w1 x w2 : str) :
  Forall (fun c => isspace c = true) w1 ->
  Forall (fun c => isspace c = true) w2 ->
  match x with [] => True | c :: _ => isspace c = false end ->
  match rev x with [] => True | c :: _ => isspace c = false end ->
  strip (w1 ++ x ++ w2) = x.
Proof.
  intros W1 W2 H T. unfold strip.
  destruct x as [|c x].
  - cbn [app]. rewrite <- (app_nil_r (w1 ++ w2)).
    rewrite lstrip_pad; [reflexivity | | exact I].
    apply Forall_app. now split.
  - rewrite (lstrip_pad w1 ((c :: x) ++ w2) W1 H).
    rewrite rev_app_distr.
    rewrite (lstrip_pad (rev w2) (rev (c :: x))); [apply rev_involutive | | exact T].
    now apply Forall_rev.
Qed.

Lemma lstrip_char_pad (q : ascii) (w x : str) :
  Forall (fun c => Ascii.eqb c q = true) w ->
  match x with [] => True | c :: _ => Ascii.eqb c q = false end ->
  lstrip_char q (w ++ x) = x.
Proof.
  intros W X. induction W as [|c w Hc _ IH]; cbn [app lstrip_char].
  - destruct x as [|c x]; [reflexivity|]. cbn [lstrip_char]. now rewrite X.
  - now rewrite Hc.
Qed.

Lemma strip_char_pad (q : ascii) (w1 x w2 : str) :
  Forall (fun c => Ascii.eqb c q = true) w1 ->
  Forall (fun c => Ascii.eqb c q = true) w2 ->
  x <> [] ->
  match x with [] => True | c :: _ => Ascii.eqb c q = false end ->
  match rev x with [] => True | c :: _ => Ascii.eqb c q = false end ->
  strip_char q (w1 ++ x ++ w2) = x.
Proof.
  intros W1 W2 N H T. unfold strip_char.
  destruct x as [|c x]; [congruence|].
  rewrite (lstrip_char_pad q w1 ((c :: x) ++ w2) W1 H).
  rewrite rev_app_distr.
  rewrite (lstrip_char_pad q (rev w2) (rev (c :: x))); [apply rev_involutive | | exact T].
  now apply Forall_rev.
Qed.

Lemma rev_last (x y : str) (c : ascii) : rev (x ++ y ++ [c]) = c :: rev (x ++ y).
Proof. now rewrite app_assoc, rev_app_distr. Qed.

Lemma rev_head_app (a x r : str) (c : ascii) :
  rev x = c :: r -> rev (a ++ x) = c :: (r ++ rev a).
Proof. intros E. now rewrite rev_app_distr, E. Qed.

Lemma spaces_have_no (c : ascii) (w : str) :
  isspace c = false -> Forall (fun x => isspace x = true) w -> has c w = false.
Proof.
  intros N W. unfold has. induction W as [|x w Hx _ IH]; [reflexivity|].
  cbn [existsb]. rewrite IH, orb_false_r.
  destruct (Ascii.eqb c x) eqn:E; [|reflexivity].
  apply Ascii.eqb_eq in E. congruence.
Qed.

(** X4.  A line [NAME=VALUE], with white space allowed around the line,
    the name and the value, and the value bare or in single or double
    quotes, assigns [VALUE] to [NAME].  The name does not begin with [#]
    nor hold [=]; the ends of the name are not white space and the ends
    of the value are neither white space nor quotes.  White space is
    that of [str.isspace]. *)
Theorem dotenv_line_assigns
        (w1 w2 w3 w4 key value quote : str) :
  Forall (fun c => isspace c = true) w1 ->
  Forall (fun c => isspace c = true) w2 ->
  Forall (fun c => isspace c = true) w3 ->
  Forall (fun c => isspace c = true) w4 ->
  ends (fun c => isspace c = false) key ->
  has "=" key = false -> startswith "#" key = false ->
  ends (fun c => isspace c = false /\ Ascii.eqb c "'" = false
                 /\ Ascii.eqb c dquote = false) value ->
  quote = [] \/ quote = lit "'" \/ quote = [dquote] ->
  assignment (w1 ++ key ++ w2 ++ "="%char :: w3 ++ quote ++ value ++ quote ++ w4)
  = Some (key, value).
Proof.
  intros W1 W2 W3 W4 [Kh Kt] Ke Kc [Vh Vt] Q.
  destruct key as [|k0 key]; [destruct Kh|].
  destruct value as [|v0 value]; [destruct Vh|].
  destruct (rev (k0 :: key)) as [|kl kr] eqn:Rk; [destruct Kt|].
  destruct (rev (v0 :: value)) as [|vl vr] eqn:Rv; [destruct Vt|].
  destruct Vh as (Vh1 & Vh2 & Vh3). destruct Vt as (Vt1 & Vt2 & Vt3).
  set (val := quote ++ (v0 :: value) ++ quote).
  assert (Hval : exists c r, val = c :: r /\ isspace c = false) .
  { unfold val. destruct Q as [-> | [-> | ->]]; cbn [app lit String.list_ascii_of_string];
      eexists _, _; (split; [reflexivity|]); first [exact Vh1 | reflexivity]. }
  assert (Tval : exists c r, rev val = c :: r /\ isspace c = false).
  { unfold val. destruct Q as [-> | [-> | ->]].
    - rewrite app_nil_r. cbn [app]. rewrite Rv. eauto.
    - change (lit "'") with ["'"%char].
      rewrite (rev_last ["'"%char] (v0 :: value) "'"). eexists _, _.
      split; reflexivity.
    - rewrite (rev_last [dquote] (v0 :: value) dquote). eexists _, _.
      split; reflexivity. }
  destruct Hval as (hc & hr & Hv & Hs). destruct Tval as (tc & tr & Tv & Ts).
  set (body := (k0 :: key) ++ w2 ++ "="%char :: w3 ++ val).
  assert ((w1 ++ (k0 :: key) ++ w2 ++ "="%char :: w3 ++ quote ++ (v0 :: value) ++ quote ++ w4)
          = w1 ++ body ++ w4) as ->.
  { unfold body, val.
    repeat (rewrite <- ?app_assoc, <- ?app_comm_cons). reflexivity. }
  unfold assignment.
  assert (strip (w1 ++ body ++ w4) = body) as ->.
  { apply strip_pad; [exact W1 | exact W4 | exact Kh |].
    assert (body = ((k0 :: key) ++ w2 ++ "="%char :: w3) ++ val) as ->.
    { unfold body. repeat (rewrite <- ?app_assoc, <- ?app_comm_cons). reflexivity. }
    rewrite (rev_head_app ((k0 :: key) ++ w2 ++ "="%char :: w3) val tr tc).
    - exact Ts.
    - exact Tv. }
  assert (has "=" (k0 :: key ++ w2) = false) as Ne.
  { change (k0 :: key ++ w2) with ((k0 :: key) ++ w2).
    unfold has. rewrite existsb_app. fold (has "=" (k0 :: key)). rewrite Ke.
    exact (spaces_have_no "=" w2 eq_refl W2). }
  assert (body = (k0 :: key ++ w2) ++ "="%char :: w3 ++ val) as ->.
  { unfold body. repeat (rewrite <- ?app_assoc, <- ?app_comm_cons). reflexivity. }
  assert ((len ((k0 :: key ++ w2) ++ "="%char :: w3 ++ val) =? 0) = false) as ->.
  { apply Z.eqb_neq. unfold len. cbn [app length]. lia. }
  assert (startswith "#" ((k0 :: key ++ w2) ++ "="%char :: w3 ++ val) = false) as ->
      by exact Kc.
  assert (has "=" ((k0 :: key ++ w2) ++ "="%char :: w3 ++ val) = true) as ->.
  { unfold has. rewrite existsb_app. cbn [existsb]. rewrite Ascii.eqb_refl.
    cbn. apply orb_true_r. }
  cbn [orb negb].
  rewrite (split1_app "=" _ _ Ne).
  assert (strip (k0 :: key ++ w2) = k0 :: key) as ->.
  { change (k0 :: key ++ w2) with ([] ++ (k0 :: key) ++ w2).
    apply strip_pad; [constructor | exact W2 | exact Kh | now rewrite Rk]. }
  assert (strip (w3 ++ val) = val) as ->.
  { rewrite <- (app_nil_r val) at 1.
    apply strip_pad; [exact W3 | constructor | now rewrite Hv | now rewrite Tv]. }
  assert ((len (k0 :: key) =? 0) = false) as ->.
  { apply Z.eqb_neq. unfold len. cbn [length]. lia. }
  f_equal. f_equal. unfold val.
  assert (forall q, Ascii.eqb v0 q = false -> Ascii.eqb vl q = false ->
                    strip_char q (v0 :: value) = v0 :: value) as Bare.
  { intros q A B.
    change (v0 :: value) with ([] ++ (v0 :: value)) at 1.
    rewrite <- (app_nil_r ([] ++ v0 :: value)). rewrite <- app_assoc.
    apply strip_char_pad; [constructor | constructor | discriminate | exact A |].
    now rewrite Rv. }
  destruct Q as [-> | [-> | ->]].
  - rewrite app_nil_r. cbn [app].
    rewrite (Bare "'"%char Vh2 Vt2). exact (Bare dquote Vh3 Vt3).
  - assert (strip_char "'" (lit "'" ++ (v0 :: value) ++ lit "'") = v0 :: value) as ->.
    { apply strip_char_pad; [repeat constructor | repeat constructor | discriminate
                             | exact Vh2 | now rewrite Rv]. }
    exact (Bare dquote Vh3 Vt3).
  - assert (strip_char "'" ([dquote] ++ (v0 :: value) ++ [dquote])
            = [dquote] ++ (v0 :: value) ++ [dquote]) as ->.
    { set (x := [dquote] ++ (v0 :: value) ++ [dquote]).
      change x with ([] ++ x) at 1. rewrite <- (app_nil_r ([] ++ x)).
      rewrite <- app_assoc.
      apply strip_char_pad; [constructor | constructor | discriminate | reflexivity |].
      unfold x. now rewrite (rev_last [dquote] (v0 :: value) dquote). }
    apply strip_char_pad; [repeat constructor | repeat constructor | discriminate
                           | exact Vh3 | now rewrite Rv].
Qed.

Lemma dotenv_line_assigns_witness :
  assignment (lit " " ++ lit "BASE_SAS_URL" ++ lit " " ++ "="%char :: lit " "
              ++ [dquote] ++ lit "https://h/c?sig=a" ++ [dquote] ++ lit " ")
  = Some (lit "BASE_SAS_URL", lit "https://h/c?sig=a").
Proof.
  apply (dotenv_line_assigns (lit " ") (lit " ") (lit " ") (lit " ")
           (lit "BASE_SAS_URL") (lit "https://h/c?sig=a") [dquote]).
  - repeat constructor.
  - repeat constructor.
  - repeat constructor.
  - repeat constructor.
  - split; reflexivity.
  - reflexivity.
  - reflexivity.
  - split; repeat split; reflexivity.
  - right. right. reflexivity.
Defined.

End DotenvProofs.

(** ** More on the listing *)

Section ListingProofs.

Context `{NetlocCheck}.

(** X5.  A page that cannot be read ends the listing with its error: the
    records of the pages read before are not returned, no further page
    is requested, and the responses that follow stay unread. *)
Theorem listing_aborts_on_failed_page
        (sas_url base params : str) (pages : list more_page)
        (r : response) (e : exn) (rest : list response) :
  _base_url sas_url = Ok base -> _sas_params sas_url = Ok params ->
  Forall is_more_page pages ->
  read_page r = Raise e ->
  list_blobs sas_url (map page_response pages ++ r :: rest)
  = mkrun (page_urls base params None pages
           ++ [list_url base params (marker_after None pages)])
          rest (Some (Raise e)).
Proof.
  intros B P F R.
  rewrite (list_blobs_loop_run _ _ _ _ B P), (loop_pages _ _ _ F).
  cbn [list_blobs_loop]. rewrite R. reflexivity.
Qed.

(** X6.  The listing has no bound on the number of pages and does not
    look at the markers it has seen: as long as every page carries a
    non-empty marker, also one that it carried before, the listing asks
    for the next page and has returned nothing. *)
Theorem listing_goes_on_while_markers_come
        (sas_url base params : str) (pages : list more_page) :
  _base_url sas_url = Ok base -> _sas_params sas_url = Ok params ->
  Forall is_more_page pages ->
  list_blobs sas_url (map page_response pages)
  = mkrun (page_urls base params None pages
           ++ [list_url base params (marker_after None pages)])
          [] None.
Proof.
  intros B P F.
  rewrite <- (app_nil_r (map page_response pages)).
  rewrite (list_blobs_loop_run _ _ _ _ B P), (loop_pages _ _ _ F).
  reflexivity.
Qed.

End ListingProofs.

Section ListingExamples.

Lemma listing_aborts_on_failed_page_witness :
  @list_blobs plain_hosts sample_url
     (map page_response [first_page] ++ Response false None :: [last_response])
  = mkrun (page_urls sample_base sample_token None [first_page]
           ++ [list_url sample_base sample_token (marker_after None [first_page])])
          [last_response] (Some (Raise HTTPError)).
Proof.
  apply (@listing_aborts_on_failed_page plain_hosts sample_url sample_base
           sample_token [first_page] (Response false None) HTTPError
           [last_response]).
  - vm_compute. reflexivity.
  - vm_compute. reflexivity.
  - constructor; [|constructor]. split; [vm_compute; reflexivity | discriminate].
  - reflexivity.
Defined.

Lemma listing_goes_on_while_markers_come_witness :
  @list_blobs plain_hosts sample_url
     (map page_response [first_page; first_page; first_page])
  = mkrun (page_urls sample_base sample_token None
                     [first_page; first_page; first_page]
           ++ [list_url sample_base sample_token
                        (marker_after None [first_page; first_page; first_page])])
          [] None.
Proof.
  apply (@listing_goes_on_while_markers_come plain_hosts sample_url sample_base
           sample_token [first_page; first_page; first_page]).
  - vm_compute. reflexivity.
  - vm_compute. reflexivity.
  - repeat constructor; try discriminate; vm_compute; reflexivity.
Defined.

End ListingExamples.

(** ** Downloads *)

Section DownloadProofs.

Context `{NetlocCheck} `{FileSystem}.

(** The listing of a complete sequence of pages. *)
Lemma list_blobs_returns
      (sas_url base params : str) (pages : list more_page) (last : response)
      (last_blobs : list blob) (rest : list response) :
  _base_url sas_url = Ok base -> _sas_params sas_url = Ok params ->
  Forall is_more_page pages -> is_last_page last last_blobs ->
  list_blobs sas_url (listing_responses pages last ++ rest)
  = mkrun (listing_urls base params pages) rest
          (Some (Ok (listed pages last_blobs))).
Proof.
  intros B P F L. unfold listing_responses, listing_urls, listed.
  rewrite <- app_assoc. cbn [app].
  rewrite (list_blobs_loop_run _ _ _ _ B P), (loop_pages _ _ _ F).
  destruct L as [L | L];
    rewrite (loop_last _ _ _ _ _ _ _ _ L ltac:(auto)); reflexivity.
Qed.

(** One download whose directory can be made: the request, then the
    file. *)
Lemma download_blob_run (n dest sas_url base params : str) (fs fs1 : disk)
      (net : list response) :
  _base_url sas_url = Ok base -> _sas_params sas_url = Ok params ->
  makedirs (directory_of (os_path_join dest n) dest) fs = Ok fs1 ->
  download_blob (Some n) dest sas_url fs net
  = match net with
    | [] => mkrun [blob_url base n params] [] None
    | r :: rest =>
        mkrun [blob_url base n params] rest
              (Some (_ <- receive r ;;
                     fs2 <- write_file (os_path_join dest n) fs1 ;;
                     Ok (os_path_join dest n, fs2)))
    end.
Proof.
  intros B P M. unfold download_blob.
  rewrite B, iobind_lift_ok, P, iobind_lift_ok. cbv zeta.
  rewrite M, iobind_lift_ok.
  destruct net as [|r rest]; [reflexivity|].
  unfold iobind at 1, get. cbn [outcome requests pending].
  destruct (receive r) as [content|e]; [|reflexivity]. cbn [bind].
  unfold iobind, lift, ret, after. cbn [outcome requests pending app].
  destruct (write_file (os_path_join dest n) fs1); reflexivity.
Qed.

(** One download whose directory cannot be made: nothing is requested. *)
Lemma download_blob_no_directory (n dest sas_url base params : str)
      (fs : disk) (e : exn) (net : list response) :
  _base_url sas_url = Ok base -> _sas_params sas_url = Ok params ->
  makedirs (directory_of (os_path_join dest n) dest) fs = Raise e ->
  download_blob (Some n) dest sas_url fs net = mkrun [] net (Some (Raise e)).
Proof.
  intros B P M. unfold download_blob.
  rewrite B, iobind_lift_ok, P, iobind_lift_ok. cbv zeta.
  now rewrite M, iobind_lift_raise.
Qed.

Lemma download_blob_unnamed (dest sas_url base params : str) (fs : disk)
      (net : list response) :
  _base_url sas_url = Ok base -> _sas_params sas_url = Ok params ->
  download_blob None dest sas_url fs net
  = mkrun [] net
          (Some (Raise (TypeError (lit "expected str, bytes or os.PathLike object, not NoneType")))).
Proof.
  intros B P. unfold download_blob.
  now rewrite B, iobind_lift_ok, P, iobind_lift_ok.
Qed.

Lemma iobind_assoc {A B C : Type} (m : io A) (f : A -> io B) (g : B -> io C)
      (net : list response) :
  (y <~ (x <~ m ;; f x) ;; g y) net = (x <~ m ;; (y <~ f x ;; g y)) net.
Proof.
  unfold iobind. destruct (m net) as [rq pd [[a|e]|]];
    cbn [outcome requests pending after]; try reflexivity.
  destruct (f a pd) as [rq' pd' [[b|e]|]];
    cbn [outcome requests pending after]; try reflexivity.
  destruct (g b pd') as [rq2 pd2 o2]. unfold after.
  cbn [outcome requests pending]. now rewrite app_assoc.
Qed.

Lemma iobind_ret {A : Type} (m : io A) (net : list response) :
  (x <~ m ;; ret x) net = m net.
Proof.
  unfold iobind, ret, after.
  destruct (m net) as [rq pd [[a|e]|]]; cbn [outcome requests pending];
    rewrite ?app_nil_r; reflexivity.
Qed.

Lemma store_named (dest n : str) (b : blob) (fs : disk) :
  name b = Some n ->
  store dest b fs
  = (fs1 <- makedirs (directory_of (os_path_join dest n) dest) fs ;;
     write_file (os_path_join dest n) fs1).
Proof. intros N. unfold store. now rewrite N. Qed.

Lemma url_of_named (base params n : str) (b : blob) :
  name b = Some n -> url_of base params b = blob_url base n params.
Proof. intros N. unfold url_of. now rewrite N. Qed.

(** The downloads of records with names, each answered with success and
    stored without error. *)
Lemma download_each_done {A : Type} (dest sas_url base params : str)
      (done : list blob) :
  _base_url sas_url = Ok base -> _sas_params sas_url = Ok params ->
  Forall named done ->
  forall (answers : list response) (fs fs' : disk) (k : disk -> io A)
         (net : list response),
    Forall succeeds answers -> length answers = length done ->
    store_each dest done fs = Ok fs' ->
    (x <~ download_each done dest sas_url fs ;; k x) (answers ++ net)
    = after (map (url_of base params) done) (k fs' net).
Proof.
  intros B P. induction 1 as [|b done Hb _ IH];
    intros answers fs fs' k net S L St.
  - destruct answers; [|discriminate L]. cbn [store_each] in St.
    injection St as <-. cbn [download_each map app].
    unfold iobind, ret. cbn [outcome requests pending]. reflexivity.
  - destruct answers as [|r answers]; [discriminate L|].
    inversion S as [|? ? [content Hr] S']; subst.
    cbn [download_each map app length store_each] in *.
    destruct (name b) as [n|] eqn:N; [|now destruct Hb].
    rewrite (store_named _ _ _ _ N) in St.
    destruct (makedirs (directory_of (os_path_join dest n) dest) fs)
      as [fs1|] eqn:M; [|discriminate St].
    cbn [bind] in St.
    destruct (write_file (os_path_join dest n) fs1) as [fs2|] eqn:W;
      [|discriminate St].
    cbn [bind] in St.
    rewrite iobind_assoc. unfold iobind at 1.
    rewrite (download_blob_run _ _ _ _ _ _ _ _ B P M), Hr. cbn [bind].
    rewrite W. cbn [bind outcome requests pending snd].
    rewrite (IH answers fs2 fs' k net S' ltac:(lia) St), after_after.
    now rewrite (url_of_named _ _ _ _ N).
Qed.

Lemma download_each_ret (blobs : list blob) (dest sas_url : str) (fs : disk)
      (net : list response) :
  download_each blobs dest sas_url fs net
  = (x <~ download_each blobs dest sas_url fs ;; ret x) net.
Proof. now rewrite iobind_ret. Qed.

Lemma download_each_app (dest sas_url : str) (done todo : list blob) :
  forall (fs : disk) (net : list response),
    download_each (done ++ todo) dest sas_url fs net
    = (x <~ download_each done dest sas_url fs ;;
       download_each todo dest sas_url x) net.
Proof.
  induction done as [|d done IH]; intros fs net.
  - cbn [app download_each]. unfold iobind, ret.
    cbn [outcome requests pending]. now rewrite after_nil.
  - cbn [app download_each]. rewrite iobind_assoc.
    apply iobind_ext. intros x net'. apply IH.
Qed.

(** X8.  When every directory can be made, every request succeeds and
    every file can be written, the records are downloaded one after the
    other in the order of the list, one request each to
    [base/name?token]: the run ends after the last one, leaves the later
    responses unread, and the disk has received, record by record, the
    directory and then the file. *)
Theorem downloads_follow_the_list
        (dest sas_url base params : str) (blobs : list blob)
        (answers rest : list response) (fs fs' : disk) :
  _base_url sas_url = Ok base -> _sas_params sas_url = Ok params ->
  Forall named blobs ->
  Forall succeeds answers -> length answers = length blobs ->
  store_each dest blobs fs = Ok fs' ->
  download_each blobs dest sas_url fs (answers ++ rest)
  = mkrun (map (url_of base params) blobs) rest (Some (Ok fs')).
Proof.
  intros B P N S L St.
  rewrite download_each_ret.
  rewrite (download_each_done _ _ _ _ _ B P N answers fs fs' _ rest S L St).
  unfold after, ret. cbn [requests pending outcome]. now rewrite app_nil_r.
Qed.

(** X9.  The downloads stop at the first request that fails.  When the
    records before it were downloaded and its directory was made, the
    error of its request ends the run: the records before it and the
    record itself have been requested, the records after it are not. *)
Theorem downloads_stop_at_first_failure
        (dest sas_url base params n : str) (done todo : list blob) (b : blob)
        (answers rest : list response) (r : response) (e : exn)
        (fs fs1 fs2 : disk) :
  _base_url sas_url = Ok base -> _sas_params sas_url = Ok params ->
  Forall named done ->
  Forall succeeds answers -> length answers = length done ->
  store_each dest done fs = Ok fs1 ->
  name b = Some n ->
  makedirs (directory_of (os_path_join dest n) dest) fs1 = Ok fs2 ->
  receive r = Raise e ->
  download_each (done ++ b :: todo) dest sas_url fs (answers ++ r :: rest)
  = mkrun (map (url_of base params) (done ++ [b])) rest (Some (Raise e)).
Proof.
  intros B P N S L St Nb M R. rewrite download_each_app.
  rewrite (download_each_done _ _ _ _ _ B P N answers fs fs1 _ (r :: rest) S L St).
  cbn [download_each]. unfold iobind at 1.
  rewrite Nb, (download_blob_run _ _ _ _ _ _ _ _ B P M), R.
  cbn [bind outcome requests pending after].
  rewrite map_app. cbn [map]. now rewrite (url_of_named _ _ _ _ Nb).
Qed.

(** X10.  A record without a name (a [Blob] element without [Name])
    ends the downloads with [TypeError], raised by [os.path.join] before
    a directory is made or a request sent for it: the records before it
    have been downloaded, the response meant for it stays unread. *)
Theorem unnamed_record_stops_downloads
        (dest sas_url base params : str) (done todo : list blob) (b : blob)
        (answers rest : list response) (fs fs1 : disk) :
  _base_url sas_url = Ok base -> _sas_params sas_url = Ok params ->
  Forall named done ->
  Forall succeeds answers -> length answers = length done ->
  store_each dest done fs = Ok fs1 ->
  name b = None ->
  exists msg,
    download_each (done ++ b :: todo) dest sas_url fs (answers ++ rest)
    = mkrun (map (url_of base params) done) rest (Some (Raise (TypeError msg))).
Proof.
  intros B P N S L St Nb. eexists. rewrite download_each_app.
  rewrite (download_each_done _ _ _ _ _ B P N answers fs fs1 _ rest S L St).
  cbn [download_each]. unfold iobind at 1.
  rewrite Nb, (download_blob_unnamed _ _ _ _ _ _ B P).
  unfold after. cbn [outcome requests pending]. now rewrite app_nil_r.
Qed.

(** X22.  A directory that cannot be made ends the downloads before the
    request of its record: [os.makedirs] runs first, so the records
    before it have been downloaded, the record itself is not requested
    and the response meant for it stays unread. *)
Theorem failed_directory_stops_downloads
        (dest sas_url base params n : str) (done todo : list blob) (b : blob)
        (answers rest : list response) (e : exn) (fs fs1 : disk) :
  _base_url sas_url = Ok base -> _sas_params sas_url = Ok params ->
  Forall named done ->
  Forall succeeds answers -> length answers = length done ->
  store_each dest done fs = Ok fs1 ->
  name b = Some n ->
  makedirs (directory_of (os_path_join dest n) dest) fs1 = Raise e ->
  download_each (done ++ b :: todo) dest sas_url fs (answers ++ rest)
  = mkrun (map (url_of base params) done) rest (Some (Raise e)).
Proof.
  intros B P N S L St Nb M. rewrite download_each_app.
  rewrite (download_each_done _ _ _ _ _ B P N answers fs fs1 _ rest S L St).
  cbn [download_each]. unfold iobind at 1.
  rewrite Nb, (download_blob_no_directory _ _ _ _ _ _ _ _ B P M).
  unfold after. cbn [outcome requests pending]. now rewrite app_nil_r.
Qed.

(** X23.  A file that cannot be written ends the downloads after the
    request of its record: the response has been received and consumed,
    the error of [open] or of the writes ends the run, and the records
    after it are not requested. *)
Theorem failed_write_stops_downloads
        (dest sas_url base params n : str) (done todo : list blob) (b : blob)
        (answers rest : list response) (r : response) (e : exn)
        (fs fs1 fs2 : disk) :
  _base_url sas_url = Ok base -> _sas_params sas_url = Ok params ->
  Forall named done ->
  Forall succeeds answers -> length answers = length done ->
  store_each dest done fs = Ok fs1 ->
  name b = Some n ->
  makedirs (directory_of (os_path_join dest n) dest) fs1 = Ok fs2 ->
  succeeds r ->
  write_file (os_path_join dest n) fs2 = Raise e ->
  download_each (done ++ b :: todo) dest sas_url fs (answers ++ r :: rest)
  = mkrun (map (url_of base params) (done ++ [b])) rest (Some (Raise e)).
Proof.
  intros B P N S L St Nb M [content R] W. rewrite download_each_app.
  rewrite (download_each_done _ _ _ _ _ B P N answers fs fs1 _ (r :: rest) S L St).
  cbn [download_each]. unfold iobind at 1.
  rewrite Nb, (download_blob_run _ _ _ _ _ _ _ _ B P M), R. cbn [bind].
  rewrite W. cbn [bind outcome requests pending after].
  rewrite map_app. cbn [map]. now rewrite (url_of_named _ _ _ _ Nb).
Qed.

End DownloadProofs.

Section DownloadExamples.

Lemma sample_base_url : @_base_url plain_hosts sample_url = Ok sample_base.
Proof. reflexivity. Qed.

Lemma sample_sas_params : @_sas_params plain_hosts sample_url = Ok sample_token.
Proof. reflexivity. Qed.

Lemma ok_succeeds (content : option Listing) : succeeds (Response true content).
Proof. now exists content. Qed.

Lemma downloads_follow_the_list_witness :
  @download_each plain_hosts small_disk [feb11_first; feb12_first]
                 downloads sample_url empty_disk
                 ([Response true None; Response true None] ++ [Unreachable])
  = mkrun (map (url_of sample_base sample_token) [feb11_first; feb12_first])
          [Unreachable]
          (Some (Ok (mktree [downloads; downloads]
                            [lit "downloads/c"; lit "downloads/a"]))).
Proof.
  apply (@downloads_follow_the_list plain_hosts small_disk).
  - exact sample_base_url.
  - exact sample_sas_params.
  - repeat constructor; discriminate.
  - repeat constructor; apply ok_succeeds.
  - reflexivity.
  - reflexivity.
Defined.

Lemma downloads_stop_at_first_failure_witness :
  @download_each plain_hosts small_disk
                 ([feb11_first] ++ feb11_last :: [feb12_first])
                 downloads sample_url empty_disk
                 ([Response true None] ++ Response false None :: [Unreachable])
  = mkrun (map (url_of sample_base sample_token) ([feb11_first] ++ [feb11_last]))
          [Unreachable] (Some (Raise HTTPError)).
Proof.
  apply (@downloads_stop_at_first_failure plain_hosts small_disk
           downloads sample_url sample_base sample_token (lit "b")
           [feb11_first] [feb12_first] feb11_last [Response true None]
           [Unreachable] (Response false None) HTTPError empty_disk
           (mktree [downloads] [lit "downloads/a"])
           (mktree [downloads; downloads] [lit "downloads/a"])).
  - exact sample_base_url.
  - exact sample_sas_params.
  - repeat constructor; discriminate.
  - repeat constructor; apply ok_succeeds.
  - reflexivity.
  - reflexivity.
  - reflexivity.
  - reflexivity.
  - reflexivity.
Defined.

Lemma unnamed_record_stops_downloads_witness :
  exists msg,
    @download_each plain_hosts small_disk
                   ([feb11_first] ++ mkblob None None 0 :: [feb12_first])
                   downloads sample_url empty_disk
                   ([Response true None] ++ [Response true None])
    = mkrun (map (url_of sample_base sample_token) [feb11_first])
            [Response true None] (Some (Raise (TypeError msg))).
Proof.
  apply (@unnamed_record_stops_downloads plain_hosts small_disk
           downloads sample_url sample_base sample_token
           [feb11_first] [feb12_first] (mkblob None None 0)
           [Response true None] [Response true None] empty_disk
           (mktree [downloads] [lit "downloads/a"])).
  - exact sample_base_url.
  - exact sample_sas_params.
  - repeat constructor; discriminate.
  - repeat constructor; apply ok_succeeds.
  - reflexivity.
  - reflexivity.
  - reflexivity.
Defined.

Lemma failed_directory_stops_downloads_witness :
  @download_each plain_hosts small_disk
                 ([feb11_first] ++ nested :: [feb12_first])
                 downloads sample_url empty_disk
                 ([Response true None] ++ [Response true None])
  = mkrun (map (url_of sample_base sample_token) [feb11_first])
          [Response true None] (Some (Raise (OSError (lit "File exists")))).
Proof.
  apply (@failed_directory_stops_downloads plain_hosts small_disk
           downloads sample_url sample_base sample_token (lit "a/b")
           [feb11_first] [feb12_first] nested
           [Response true None] [Response true None]
           (OSError (lit "File exists")) empty_disk
           (mktree [downloads] [lit "downloads/a"])).
  - exact sample_base_url.
  - exact sample_sas_params.
  - repeat constructor; discriminate.
  - repeat constructor; apply ok_succeeds.
  - reflexivity.
  - reflexivity.
  - reflexivity.
  - reflexivity.
Defined.

Lemma failed_write_stops_downloads_witness :
  @download_each plain_hosts small_disk
                 ([feb11_first] ++ slashed :: [feb12_first])
                 downloads sample_url empty_disk
                 ([Response true None] ++ Response true None :: [Unreachable])
  = mkrun (map (url_of sample_base sample_token) ([feb11_first] ++ [slashed]))
          [Unreachable] (Some (Raise (OSError (lit "Is a directory")))).
Proof.
  apply (@failed_write_stops_downloads plain_hosts small_disk
           downloads sample_url sample_base sample_token (lit "c/")
           [feb11_first] [feb12_first] slashed
           [Response true None] [Unreachable] (Response true None)
           (OSError (lit "Is a directory")) empty_disk
           (mktree [downloads] [lit "downloads/a"])
           (mktree [lit "downloads/c"; downloads] [lit "downloads/a"])).
  - exact sample_base_url.
  - exact sample_sas_params.
  - repeat constructor; discriminate.
  - repeat constructor; apply ok_succeeds.
  - reflexivity.
  - reflexivity.
  - reflexivity.
  - reflexivity.
  - apply ok_succeeds.
  - reflexivity.
Defined.

End DownloadExamples.

(** ** The subcommands and [main] *)

Section CommandProofs.

Context `{NetlocCheck} `{FileSystem}.

(** A download subcommand whose arguments pass: list, filter, download. *)
Lemma dispatch_select (command : Command) (f : DateFilterSpec)
      (sas_url : str) (fs : disk) (net : list response) :
  command_spec command = Ok (Some f) ->
  dispatch command sas_url fs net
  = (blobs <~ list_blobs sas_url ;;
     filtered <~ lift (select f blobs) ;;
     download_each filtered (output_of command) sas_url fs) net.
Proof.
  destruct command as [|output|date output|date output|start_date end_date output];
    cbn [command_spec dispatch output_of]; intros C.
  - discriminate C.
  - injection C as <-. unfold download_all. apply iobind_ext.
    intros blobs net'. cbn [select]. now rewrite iobind_lift_ok.
  - unfold download_since.
    destruct (_parse_yyyy_mm_dd date) as [cutoff|e]; [|discriminate C].
    injection C as <-. now rewrite iobind_lift_ok.
  - unfold download_date.
    destruct (_parse_yyyy_mm_dd date) as [target|e]; [|discriminate C].
    injection C as <-. now rewrite iobind_lift_ok.
  - unfold download_range.
    destruct (_parse_yyyy_mm_dd start_date) as [start|e]; [|discriminate C].
    destruct (_parse_yyyy_mm_dd end_date) as [end_|e]; [|discriminate C].
    cbn [bind] in C. rewrite !iobind_lift_ok.
    destruct (date_ltb end_ start); [discriminate C|].
    now injection C as <-.
Qed.

(** A subcommand whose arguments are refused makes no request. *)
Lemma dispatch_refuses (command : Command) (e : exn)
      (sas_url : str) (fs : disk) (net : list response) :
  command_spec command = Raise e ->
  dispatch command sas_url fs net = mkrun [] net (Some (Raise e))
  /\ exists msg, e = ValueError msg.
Proof.
  assert (forall value e', _parse_yyyy_mm_dd value = Raise e' ->
                           exists msg, e' = ValueError msg) as V.
  { intros value e' E. unfold _parse_yyyy_mm_dd in E.
    destruct (strptime_ymd value) as [d|x] eqn:S; [discriminate E|].
    destruct (strptime_raises _ _ S) as [m ->]. injection E as <-. eauto. }
  destruct command as [|output|date output|date output|start_date end_date output];
    cbn [command_spec dispatch]; intros C; try discriminate C.
  - unfold download_since.
    destruct (_parse_yyyy_mm_dd date) as [cutoff|x] eqn:D; [discriminate C|].
    injection C as <-. split; [reflexivity | eauto].
  - unfold download_date.
    destruct (_parse_yyyy_mm_dd date) as [target|x] eqn:D; [discriminate C|].
    injection C as <-. split; [reflexivity | eauto].
  - unfold download_range.
    destruct (_parse_yyyy_mm_dd start_date) as [start|x] eqn:D1.
    + destruct (_parse_yyyy_mm_dd end_date) as [end_|y] eqn:D2.
      * cbn [bind] in C. rewrite !iobind_lift_ok.
        destruct (date_ltb end_ start); [|discriminate C].
        injection C as <-. split; [reflexivity|]. unfold end_before_start. eauto.
      * cbn [bind] in C. injection C as <-. rewrite iobind_lift_ok.
        split; [reflexivity | eauto].
    + cbn [bind] in C. injection C as <-. split; [reflexivity | eauto].
Qed.

Lemma list_blobs_then {B : Type}
      (sas_url base params : str) (pages : list more_page) (last : response)
      (last_blobs : list blob) (k : list blob -> io B) (net : list response) :
  _base_url sas_url = Ok base -> _sas_params sas_url = Ok params ->
  Forall is_more_page pages -> is_last_page last last_blobs ->
  (blobs <~ list_blobs sas_url ;; k blobs) (listing_responses pages last ++ net)
  = after (listing_urls base params pages) (k (listed pages last_blobs) net).
Proof.
  intros Bs Ps F L. unfold iobind.
  now rewrite (list_blobs_returns _ _ _ _ _ _ net Bs Ps F L).
Qed.

(** X11.  A download subcommand whose arguments pass first fetches the
    whole listing, page after page, and only then the records its
    filter selects, in the order of the listing.  When the selected
    records have names, their directories can be made, their requests
    succeed and their files can be written, the requests are the
    listing URLs followed by one URL per selected record, and the disk
    has received the selected records in that order. *)
Theorem download_lists_then_fetches
        (command : Command) (f : DateFilterSpec) (sas_url base params : str)
        (pages : list more_page) (last : response)
        (last_blobs chosen : list blob) (answers rest : list response)
        (fs fs' : disk) :
  command_spec command = Ok (Some f) ->
  _base_url sas_url = Ok base -> _sas_params sas_url = Ok params ->
  Forall is_more_page pages -> is_last_page last last_blobs ->
  select f (listed pages last_blobs) = Ok chosen ->
  Forall named chosen ->
  Forall succeeds answers -> length answers = length chosen ->
  store_each (output_of command) chosen fs = Ok fs' ->
  dispatch command sas_url fs (listing_responses pages last ++ answers ++ rest)
  = mkrun (listing_urls base params pages ++ map (url_of base params) chosen)
          rest (Some (Ok fs')).
Proof.
  intros C Bs Ps F L Sel N S Len St.
  rewrite (dispatch_select _ _ _ _ _ C).
  rewrite (list_blobs_then _ _ _ _ _ _ _ _ Bs Ps F L), Sel, iobind_lift_ok.
  rewrite download_each_ret.
  rewrite (download_each_done _ _ _ _ _ Bs Ps N answers fs fs' _ rest S Len St).
  unfold after, ret. cbn [requests pending outcome]. now rewrite app_nil_r.
Qed.

(** X12.  Arguments that a subcommand refuses (a malformed date, an end
    before the start) end [main] through [parser.error]: exit status 2
    with the message of the error, and no request is made. *)
Theorem refused_arguments_exit_with_status_2
        (command : Command) (e : exn) (sas_url : str) (fs : disk)
        (net : list response) :
  sas_url <> [] -> command_spec command = Raise e ->
  exists msg,
    e = ValueError msg
    /\ main command sas_url fs net = mksession [] net (Some (SystemExit 2 msg)).
Proof.
  intros U C. destruct (dispatch_refuses _ _ sas_url fs net C) as [D [msg ->]].
  exists msg. split; [reflexivity|].
  unfold main. destruct sas_url as [|c s]; [congruence|]. now rewrite D.
Qed.

Lemma comprehension_stops {A : Type} (cond : A -> exc bool)
      (before later : list A) (x : A) (e : exn) :
  (forall y, In y before -> exists k, cond y = Ok k) ->
  cond x = Raise e ->
  comprehension cond (before ++ x :: later) = Raise e.
Proof.
  intros Bf X. induction before as [|y before IH]; cbn [app comprehension].
  - now rewrite X.
  - destruct (Bf y (or_introl eq_refl)) as [k ->]. cbn [bind].
    rewrite IH; [reflexivity|]. intros z Z. apply Bf. now right.
Qed.

Lemma select_stops (f : DateFilterSpec) (before later : list blob)
      (b : blob) (e : exn) :
  date_scoped f -> normalizable before -> _blob_modified_date b = Raise e ->
  select f (before ++ b :: later) = Raise e.
Proof.
  intros D N E. destruct f as [|cutoff|target|start end_]; [destruct D|..];
    cbn [select]; apply comprehension_stops.
  - intros y Y. destruct (N y Y) as [d Hd].
    exact (cond_returns (SinceInclusive cutoff) y d Hd).
  - exact (cond_raises (SinceInclusive cutoff) b e E).
  - intros y Y. destruct (N y Y) as [d Hd].
    exact (cond_returns (ExactDay target) y d Hd).
  - exact (cond_raises (ExactDay target) b e E).
  - intros y Y. destruct (N y Y) as [d Hd].
    exact (cond_returns (RangeInclusive start end_) y d Hd).
  - exact (cond_raises (RangeInclusive start end_) b e E).
Qed.

(** X13.  A date filter stops at the first listed record whose
    timestamp cannot be normalised, and nothing is downloaded: the
    requests are those of the listing only.  A [ValueError] (a text that
    is no date) leaves [main] through [parser.error] with exit status 2;
    any other error (a date out of range) leaves it uncaught. *)
Theorem bad_timestamp_ends_main_after_listing
        (command : Command) (f : DateFilterSpec) (sas_url base params : str)
        (pages : list more_page) (last : response) (last_blobs : list blob)
        (before later : list blob) (b : blob) (e : exn) (fs : disk)
        (rest : list response) :
  sas_url <> [] ->
  command_spec command = Ok (Some f) -> date_scoped f ->
  _base_url sas_url = Ok base -> _sas_params sas_url = Ok params ->
  Forall is_more_page pages -> is_last_page last last_blobs ->
  listed pages last_blobs = before ++ b :: later ->
  normalizable before -> _blob_modified_date b = Raise e ->
  main command sas_url fs (listing_responses pages last ++ rest)
  = mksession (listing_urls base params pages) rest
              (Some match e with
                    | ValueError msg => SystemExit 2 msg
                    | _ => Uncaught e
                    end).
Proof.
  intros U C D Bs Ps F L Split N E.
  unfold main. destruct sas_url as [|c s]; [congruence|].
  rewrite (dispatch_select _ _ _ _ _ C).
  rewrite (list_blobs_then _ _ _ _ _ _ _ _ Bs Ps F L), Split.
  rewrite (select_stops _ _ _ _ _ D N E), iobind_lift_raise.
  unfold after. cbn [requests pending outcome]. rewrite app_nil_r.
  now destruct e.
Qed.

Lemma print_row_ok (b : blob) : print_row b = Ok tt <-> printable b.
Proof.
  unfold print_row, printable. split.
  - destruct (size b =? 0) eqn:Z0; cbn [negb andb].
    + apply Z.eqb_eq in Z0. rewrite Z0.
      destruct (name b); [|discriminate]. intros _. split; [discriminate|].
      now vm_compute.
    + destruct (float_overflow <=? Z.abs (size b)) eqn:O; [discriminate|].
      apply Z.leb_gt in O. destruct (name b); [|discriminate].
      intros _. split; [discriminate | exact O].
  - intros [N O]. apply Z.leb_gt in O. rewrite O, andb_false_r.
    destruct (name b); [reflexivity | congruence].
Qed.

Lemma print_rows_ok (blobs : list blob) :
  print_rows blobs = Ok tt <-> Forall printable blobs.
Proof.
  induction blobs as [|b blobs IH]; cbn [print_rows].
  - split; [constructor | reflexivity].
  - split.
    + destruct (print_row b) as [[]|e] eqn:R; [|discriminate]. cbn [bind].
      intros P. constructor; [now apply print_row_ok | now apply IH].
    + intros P. inversion P as [|? ? Pb Ps]; subst.
      apply print_row_ok in Pb. rewrite Pb. cbn [bind]. now apply IH.
Qed.

(** X14.  The [list] subcommand requests the pages of the listing and
    nothing else.  [main] returns exactly when every record can be
    printed: it has a name, and its size divided by 1024 fits a float;
    otherwise an exception leaves [main] after the listing. *)
Theorem list_command_only_lists
        (sas_url base params : str) (pages : list more_page) (last : response)
        (last_blobs : list blob) (fs : disk) (rest : list response) :
  sas_url <> [] ->
  _base_url sas_url = Ok base -> _sas_params sas_url = Ok params ->
  Forall is_more_page pages -> is_last_page last last_blobs ->
  exists e,
    main ListBlobs sas_url fs (listing_responses pages last ++ rest)
    = mksession (listing_urls base params pages) rest (Some e)
    /\ (e = Returned <-> Forall printable (listed pages last_blobs))
    /\ (forall status message, e <> SystemExit status message).
Proof.
  intros U Bs Ps F L. unfold main. destruct sas_url as [|c s0]; [congruence|].
  cbn [dispatch].
  rewrite (list_blobs_then _ _ _ _ _ _ _ _ Bs Ps F L).
  unfold iobind, lift, ret, after. cbn [requests pending outcome].
  destruct (print_rows (listed pages last_blobs)) as [[]|e] eqn:R;
    cbn [requests pending outcome app]; rewrite app_nil_r.
  - exists Returned. repeat split; [|discriminate].
    intros _. now apply print_rows_ok.
  - assert (forall msg, e <> ValueError msg) as NV.
    { clear - R. induction (listed pages last_blobs) as [|b l IH];
        cbn [print_rows] in R; [discriminate R|].
      destruct (print_row b) as [[]|x] eqn:Pb; cbn [bind] in R.
      - now apply IH.
      - injection R as <-. unfold print_row in Pb.
        destruct (negb (size b =? 0) && (float_overflow <=? Z.abs (size b)));
          [injection Pb as <-; discriminate|].
        destruct (name b); [discriminate Pb|]. injection Pb as <-. discriminate. }
    exists (Uncaught e). split; [|split].
    + destruct e; try reflexivity. now destruct (NV msg).
    + split; [discriminate|]. intros P. apply print_rows_ok in P. congruence.
    + discriminate.
Qed.

(** X15.  A SAS URL that [urlparse] refuses ends every subcommand whose
    arguments pass before its first request, with the error of
    [urlparse]. *)
Theorem refused_url_makes_no_request
        (command : Command) (o : option DateFilterSpec) (e : exn)
        (sas_url : str) (fs : disk) (net : list response) :
  command_spec command = Ok o -> _base_url sas_url = Raise e ->
  dispatch command sas_url fs net = mkrun [] net (Some (Raise e)).
Proof.
  intros C E.
  assert (forall B (k : list blob -> io B),
             (blobs <~ list_blobs sas_url ;; k blobs) net
             = mkrun [] net (Some (Raise e))) as LB.
  { intros B k. unfold list_blobs. rewrite iobind_assoc, E. reflexivity. }
  destruct o as [f|].
  - rewrite (dispatch_select _ _ _ _ _ C). apply LB.
  - destruct command as [|output|date output|date output|sd ed output];
      cbn [command_spec] in C; try discriminate C.
    + cbn [dispatch]. apply LB.
    + destruct (_parse_yyyy_mm_dd date); discriminate C.
    + destruct (_parse_yyyy_mm_dd date); discriminate C.
    + destruct (_parse_yyyy_mm_dd sd); [|discriminate C].
      destruct (_parse_yyyy_mm_dd ed); [|discriminate C].
      cbn [bind] in C. destruct (date_ltb _ _); discriminate C.
Qed.

End CommandProofs.

Section CommandExamples.

Lemma first_page_more : is_more_page first_page.
Proof. split; [reflexivity | discriminate]. Qed.

Lemma last_response_last : is_last_page last_response last_records.
Proof. right. reflexivity. Qed.

Lemma stale_response_last : is_last_page stale_response stale_records.
Proof. left. reflexivity. Qed.

Lemma download_lists_then_fetches_witness :
  @dispatch plain_hosts small_disk
            (DownloadDate (lit "2026-02-12") downloads) sample_url empty_disk
            (listing_responses [first_page] last_response
             ++ [Response true None] ++ [Unreachable])
  = mkrun (listing_urls sample_base sample_token [first_page]
           ++ map (url_of sample_base sample_token) last_records)
          [Unreachable]
          (Some (Ok (mktree [downloads] [lit "downloads/c"]))).
Proof.
  apply (@download_lists_then_fetches plain_hosts small_disk
           _ (ExactDay (mkdate 2026 2 12)) _ _ _ _ _ last_records).
  - reflexivity.
  - exact sample_base_url.
  - exact sample_sas_params.
  - constructor; [exact first_page_more | constructor].
  - exact last_response_last.
  - vm_compute. reflexivity.
  - repeat constructor; discriminate.
  - repeat constructor; apply ok_succeeds.
  - reflexivity.
  - reflexivity.
Defined.

Lemma refused_arguments_exit_with_status_2_witness :
  exists msg,
    end_before_start = ValueError msg
    /\ @main plain_hosts small_disk
             (DownloadRange (lit "2026-02-12") (lit "2026-02-11") downloads)
             sample_url empty_disk [Unreachable]
       = mksession [] [Unreachable] (Some (SystemExit 2 msg)).
Proof.
  apply (@refused_arguments_exit_with_status_2 plain_hosts small_disk).
  - discriminate.
  - reflexivity.
Defined.

Lemma bad_timestamp_ends_main_after_listing_witness :
  @main plain_hosts small_disk
        (DownloadSince (lit "2026-02-11") downloads) sample_url empty_disk
        (listing_responses [first_page] stale_response ++ [Response true None])
  = mksession (listing_urls sample_base sample_token [first_page])
              [Response true None]
              (Some (SystemExit 2 (lit "Invalid date value or format "
                                   ++ [dquote] ++ lit "yesterday" ++ [dquote]))).
Proof.
  apply (@bad_timestamp_ends_main_after_listing plain_hosts small_disk
           _ (SinceInclusive feb11) _ sample_base sample_token
           [first_page] stale_response stale_records
           (page_blobs first_page ++ last_records) [] unparsable
           (invalid_date (lit "yesterday"))).
  - discriminate.
  - reflexivity.
  - exact I.
  - exact sample_base_url.
  - exact sample_sas_params.
  - constructor; [exact first_page_more | constructor].
  - exact stale_response_last.
  - reflexivity.
  - intros b [<- | [<- | []]]; eexists; vm_compute; reflexivity.
  - vm_compute. reflexivity.
Defined.

Lemma list_command_only_lists_witness :
  exists e,
    @main plain_hosts small_disk ListBlobs sample_url empty_disk
          (listing_responses [first_page] last_response ++ [Unreachable])
    = mksession (listing_urls sample_base sample_token [first_page])
                [Unreachable] (Some e)
    /\ (e = Returned <-> Forall printable (listed [first_page] last_records))
    /\ (forall status message, e <> SystemExit status message).
Proof.
  apply (@list_command_only_lists plain_hosts small_disk).
  - discriminate.
  - exact sample_base_url.
  - exact sample_sas_params.
  - constructor; [exact first_page_more | constructor].
  - exact last_response_last.
Defined.

Lemma refused_url_makes_no_request_witness :
  @dispatch plain_hosts small_disk (DownloadAll downloads)
            (lit "https://[::1/reports?sv=1") empty_disk [Unreachable]
  = mkrun [] [Unreachable] (Some (Raise (ValueError (lit "Invalid IPv6 URL")))).
Proof.
  apply (@refused_url_makes_no_request plain_hosts small_disk _ (Some All)).
  - reflexivity.
  - vm_compute. reflexivity.
Defined.

End CommandExamples.

(** ** Date arguments *)

Section DateArguments.

Lemma digit_facts (k : Z) :
  0 <= k <= 9 ->
  isdigit (digit k) = true /\ isspace (digit k) = false
  /\ code (digit k) = 48 + k
  /\ Ascii.eqb (digit k) "-" = false /\ Ascii.eqb (digit k) "+" = false.
Proof.
  intros K.
  assert (k = 0 \/ k = 1 \/ k = 2 \/ k = 3 \/ k = 4 \/ k = 5 \/ k = 6 \/ k = 7
          \/ k = 8 \/ k = 9) as C by lia.
  repeat (destruct C as [-> | C]; [now vm_compute|]). subst k. now vm_compute.
Qed.

Lemma digit_no_space (k : Z) : 0 <= k <= 9 -> int_space (digit k) = false.
Proof.
  intros K.
  assert (k = 0 \/ k = 1 \/ k = 2 \/ k = 3 \/ k = 4 \/ k = 5 \/ k = 6 \/ k = 7
          \/ k = 8 \/ k = 9) as C by lia.
  repeat (destruct C as [-> | C]; [now vm_compute|]). subst k. now vm_compute.
Qed.

Lemma int_four_digits (y : Z) :
  0 <= y <= 9999 -> int (four_digits y) = Ok y.
Proof.
  intros Y. unfold four_digits.
  assert (0 <= y / 1000 <= 9) as K3
      by (pose proof (Z.div_pos y 1000);
          pose proof (Z.div_lt_upper_bound y 1000 10); lia).
  assert (0 <= y / 100 mod 10 <= 9) as K2 by (pose proof (Z.mod_pos_bound (y / 100) 10); lia).
  assert (0 <= y / 10 mod 10 <= 9) as K1 by (pose proof (Z.mod_pos_bound (y / 10) 10); lia).
  assert (0 <= y mod 10 <= 9) as K0 by (pose proof (Z.mod_pos_bound y 10); lia).
  destruct (digit_facts _ K3) as (D3 & S3 & C3 & M3 & P3).
  destruct (digit_facts _ K2) as (D2 & S2 & C2 & M2 & P2).
  destruct (digit_facts _ K1) as (D1 & S1 & C1 & M1 & P1).
  destruct (digit_facts _ K0) as (D0 & S0 & C0 & M0 & P0).
  unfold int.
  unfold strip_by. cbn [lstrip_by]. rewrite (digit_no_space _ K3).
  cbn [rev app lstrip_by]. rewrite (digit_no_space _ K0). cbn [rev app].
  rewrite M3, P3. cbn [int_digits]. rewrite D3, D2, D1, D0, C3, C2, C1, C0.
  change (0 + 1 + 1 + 1 + 1) with 4. change (4300 <? 4) with false. cbv iota.
  f_equal. 
  pose proof (Z.div_mod y 10 ltac:(lia)).
  pose proof (Z.div_mod (y / 10) 10 ltac:(lia)).
  pose proof (Z.div_mod (y / 100) 10 ltac:(lia)).
  assert (y / 10 / 10 = y / 100) by (rewrite Z.div_div by lia; reflexivity).
  assert (y / 100 / 10 = y / 1000) by (rewrite Z.div_div by lia; reflexivity).
  lia.
Qed.

Lemma year_group (y : Z) (s : str) :
  0 <= y <= 9999 ->
  alts group_Y (four_digits y ++ s) = [(four_digits y, s)].
Proof.
  intros Y. unfold four_digits.
  assert (0 <= y / 1000 <= 9) as K3
      by (pose proof (Z.div_pos y 1000);
          pose proof (Z.div_lt_upper_bound y 1000 10); lia).
  assert (0 <= y / 100 mod 10 <= 9) as K2 by (pose proof (Z.mod_pos_bound (y / 100) 10); lia).
  assert (0 <= y / 10 mod 10 <= 9) as K1 by (pose proof (Z.mod_pos_bound (y / 10) 10); lia).
  assert (0 <= y mod 10 <= 9) as K0 by (pose proof (Z.mod_pos_bound y 10); lia).
  destruct (digit_facts _ K3) as (D3 & _).
  destruct (digit_facts _ K2) as (D2 & _).
  destruct (digit_facts _ K1) as (D1 & _).
  destruct (digit_facts _ K0) as (D0 & _).
  unfold alts, group_Y. cbn [flat_map app alt]. now rewrite D3, D2, D1, D0.
Qed.

Lemma month_group (m : Z) (s : str) :
  1 <= m <= 12 ->
  exists more, alts group_m (two_digits m ++ s) = (two_digits m, s) :: more.
Proof.
  intros M.
  assert (m = 1 \/ m = 2 \/ m = 3 \/ m = 4 \/ m = 5 \/ m = 6 \/ m = 7 \/ m = 8
          \/ m = 9 \/ m = 10 \/ m = 11 \/ m = 12) as C by lia.
  repeat (destruct C as [-> | C]; [eexists; vm_compute; reflexivity|]).
  subst m. eexists. vm_compute. reflexivity.
Qed.

Lemma day_group (d : Z) :
  1 <= d <= 31 ->
  exists more, alts group_d (two_digits d) = (two_digits d, []) :: more.
Proof.
  intros D.
  assert (exists n, (n < 31)%nat /\ d = 1 + Z.of_nat n) as (n & N & ->)
      by (exists (Z.to_nat (d - 1)); lia).
  do 31 (destruct n as [|n]; [eexists; vm_compute; reflexivity|]). lia.
Qed.

Lemma int_two_digits (n : Z) : 1 <= n <= 31 -> int (two_digits n) = Ok n.
Proof.
  intros D.
  assert (exists k, (k < 31)%nat /\ n = 1 + Z.of_nat k) as (k & K & ->)
      by (exists (Z.to_nat (n - 1)); lia).
  do 31 (destruct k as [|k]; [vm_compute; reflexivity|]). lia.
Qed.

Lemma days_in_month_bound (y m : Z) : 1 <= m <= 12 -> _days_in_month y m <= 31.
Proof.
  intros M. unfold _days_in_month.
  destruct ((m =? 2) && _is_leap y); [lia|].
  assert (m = 1 \/ m = 2 \/ m = 3 \/ m = 4 \/ m = 5 \/ m = 6 \/ m = 7 \/ m = 8
          \/ m = 9 \/ m = 10 \/ m = 11 \/ m = 12) as C by lia.
  repeat (destruct C as [-> | C]; [now vm_compute|]). subst m. now vm_compute.
Qed.

Lemma within (lo x hi : Z) : (lo <=? x) && (x <=? hi) = true <-> lo <= x <= hi.
Proof. rewrite andb_true_iff, !Z.leb_le. tauto. Qed.

Lemma date_new_valid (d : date) :
  valid_date d <-> date_new (year d) (month d) (day d) = Ok d.
Proof.
  unfold valid_date, date_new. split.
  - intros (Y & M & D).
    pose proof (days_in_month_bound (year d) (month d) M).
    rewrite !c_int_fits by lia. cbn [bind].
    unfold _check_date_fields, MINYEAR, MAXYEAR.
    apply within in Y, M, D. rewrite Y, M, D. now destruct d.
  - repeat match goal with
           | |- context [c_int ?v] =>
               destruct (c_int v) as [[]|]; cbn [bind]; [|discriminate]
           end.
    unfold _check_date_fields, MINYEAR, MAXYEAR.
    destruct ((1 <=? year d) && (year d <=? 9999)) eqn:Y; [|discriminate].
    destruct ((1 <=? month d) && (month d <=? 12)) eqn:M; [|discriminate].
    destruct ((1 <=? day d) && (day d <=? _days_in_month (year d) (month d))) eqn:D;
      [|discriminate].
    apply within in Y, M, D. intros _. tauto.
Qed.

Lemma strptime_iso (d : date) : valid_date d -> strptime_ymd (iso d) = Ok d.
Proof.
  intros V. pose proof V as (Y & M & D).
  pose proof (days_in_month_bound (year d) (month d) M) as B.
  unfold strptime_ymd, regex_match, iso.
  rewrite (year_group (year d) _ ltac:(lia)). cbn [flat_map app].
  change (only "-" "-") with true. cbv iota.
  destruct (month_group (month d) ("-"%char :: two_digits (day d)) M) as [more ->].
  cbn [flat_map app]. change (only "-" "-") with true. cbv iota.
  destruct (day_group (day d) ltac:(lia)) as [more' ->].
  cbn [map app hd_error].
  rewrite (int_four_digits (year d) ltac:(lia)).
  rewrite (int_two_digits (month d) ltac:(lia)).
  rewrite (int_two_digits (day d) ltac:(lia)).
  cbn [bind]. now apply date_new_valid.
Qed.

Lemma strptime_valid (value : str) (d : date) :
  strptime_ymd value = Ok d -> valid_date d.
Proof.
  unfold strptime_ymd.
  destruct (regex_match value) as [[[[Y m] dd] rest]|]; [|discriminate].
  destruct rest; [|discriminate].
  destruct (int Y) as [y|]; [|discriminate].
  destruct (int m) as [mm|]; [|discriminate].
  destruct (int dd) as [day|]; [|discriminate].
  cbn [bind]. intros E.
  assert (d = mkdate y mm day) as ->.
  { unfold date_new in E.
    repeat match type of E with
           | context [c_int ?v] =>
               destruct (c_int v) as [[]|]; cbn [bind] in E; [|discriminate E]
           end.
    destruct (_check_date_fields y mm day); [|discriminate E].
    cbn [bind] in E. congruence. }
  now apply date_new_valid.
Qed.

(** X16.  Writing a date of the calendar as [YYYY-MM-DD], with leading
    zeros, and parsing the text gives the date back. *)
Theorem iso_date_round_trip (d : date) :
  valid_date d -> _parse_yyyy_mm_dd (iso d) = Ok d.
Proof.
  intros V. unfold _parse_yyyy_mm_dd. now rewrite (strptime_iso d V).
Qed.

(** X17.  A date argument that is accepted is a date of the calendar:
    the year is in 1..9999, the month in 1..12 and the day exists in
    that month of that year. *)
Theorem accepted_argument_is_calendar_date (value : str) (d : date) :
  _parse_yyyy_mm_dd value = Ok d -> valid_date d.
Proof.
  intros E. apply parse_accepts in E. exact (strptime_valid value d E).
Qed.

End DateArguments.

Section DateArgumentExamples.

Lemma iso_date_round_trip_witness :
  _parse_yyyy_mm_dd (iso (mkdate 2024 2 29)) = Ok (mkdate 2024 2 29).
Proof.
  apply iso_date_round_trip. unfold valid_date. cbn [year month day].
  vm_compute. intuition discriminate.
Defined.

Lemma accepted_argument_is_calendar_date_witness :
  _parse_yyyy_mm_dd (lit "2026-2-1") = Ok (mkdate 2026 2 1)
  /\ valid_date (mkdate 2026 2 1).
Proof.
  split; [reflexivity|].
  apply (accepted_argument_is_calendar_date (lit "2026-2-1")). reflexivity.
Defined.

End DateArgumentExamples.

(** ** The date arguments that are accepted *)

Section Conformance.

Context `{NetlocCheck} `{FileSystem}.

Lemma in_all_chars (c : ascii) : In c all_chars.
Proof.
  unfold all_chars. rewrite <- (ascii_nat_embedding c).
  apply in_map, in_seq. pose proof (nat_ascii_bounded c). lia.
Qed.

Lemma expand_complete (tests : list (ascii -> bool)) (m : str) :
  Forall2 (fun t c => t c = true) tests m -> In m (expand tests).
Proof.
  induction 1 as [|t c ts m T _ IH]; cbn [expand]; [now left|].
  apply in_flat_map. exists c. split.
  - apply filter_In. split; [apply in_all_chars | exact T].
  - now apply in_map.
Qed.

Lemma group_texts (group : list (list (ascii -> bool))) (m : str) :
  (exists t, In t group /\ Forall2 (fun t c => t c = true) t m) ->
  In m (flat_map expand group).
Proof.
  intros (t & G & F). apply in_flat_map. exists t.
  split; [exact G | now apply expand_complete].
Qed.

Lemma mem_In (x : str) (l : list str) : mem x l = true -> In x l.
Proof.
  unfold mem. rewrite existsb_exists. intros (y & I & E).
  apply str_eqb_eq in E. now subst.
Qed.

Lemma month_text_inv (t : str) :
  (exists g, In g group_m /\ Forall2 (fun t c => t c = true) g t) ->
  exists n, 1 <= n <= 12 /\ int t = Ok n /\ In t (month_texts n).
Proof.
  intros G. apply group_texts in G.
  assert (forallb month_text_ok (flat_map expand group_m) = true) as A
      by (vm_compute; reflexivity).
  rewrite forallb_forall in A. specialize (A t G). unfold month_text_ok in A.
  destruct (int t) as [n|]; [|discriminate]. exists n.
  rewrite !andb_true_iff, !Z.leb_le in A. destruct A as [[A1 A2] A3].
  split; [lia|]. split; [reflexivity | now apply mem_In].
Qed.

Lemma day_text_inv (t : str) :
  (exists g, In g group_d /\ Forall2 (fun t c => t c = true) g t) ->
  exists n, 1 <= n <= 31 /\ int t = Ok n /\ In t (day_texts n).
Proof.
  intros G. apply group_texts in G.
  assert (forallb day_text_ok (flat_map expand group_d) = true) as A
      by (vm_compute; reflexivity).
  rewrite forallb_forall in A. specialize (A t G). unfold day_text_ok in A.
  destruct (int t) as [n|]; [|discriminate]. exists n.
  rewrite !andb_true_iff, !Z.leb_le in A. destruct A as [[A1 A2] A3].
  split; [lia|]. split; [reflexivity | now apply mem_In].
Qed.

Lemma isdigit_inv (c : ascii) :
  isdigit c = true -> exists k, 0 <= k <= 9 /\ c = digit k.
Proof.
  unfold isdigit. cbv zeta. rewrite andb_true_iff, !Z.leb_le. intros [L U].
  exists (code c - 48). split; [lia|].
  unfold digit, chr, code. replace (48 + (Z.of_N (N_of_ascii c) - 48))
    with (Z.of_N (N_of_ascii c)) by lia.
  now rewrite N2Z.id, ascii_N_embedding.
Qed.

Lemma four_digits_of (a b c d : Z) :
  0 <= a <= 9 -> 0 <= b <= 9 -> 0 <= c <= 9 -> 0 <= d <= 9 ->
  four_digits (1000 * a + 100 * b + 10 * c + d)
  = [digit a; digit b; digit c; digit d].
Proof.
  intros A B C D. unfold four_digits.
  set (y := 1000 * a + 100 * b + 10 * c + d).
  assert (y / 1000 = a) as -> by (symmetry; apply (Z.div_unique y 1000 a (100 * b + 10 * c + d)); lia).
  assert (y / 100 = 10 * a + b) as E2
      by (symmetry; apply (Z.div_unique y 100 (10 * a + b) (10 * c + d)); lia).
  assert (y / 10 = 100 * a + 10 * b + c) as E1
      by (symmetry; apply (Z.div_unique y 10 (100 * a + 10 * b + c) d); lia).
  assert (y mod 10 = d) as ->
      by (symmetry; apply (Z.mod_unique y 10 (100 * a + 10 * b + c) d); lia).
  rewrite E2, E1.
  assert ((10 * a + b) mod 10 = b) as ->
      by (symmetry; apply (Z.mod_unique _ 10 a b); lia).
  assert ((100 * a + 10 * b + c) mod 10 = c) as ->
      by (symmetry; apply (Z.mod_unique _ 10 (10 * a + b) c); lia).
  reflexivity.
Qed.

Lemma year_text_inv (t : str) :
  (exists g, In g group_Y /\ Forall2 (fun t c => t c = true) g t) ->
  exists n, 0 <= n <= 9999 /\ int t = Ok n /\ t = four_digits n.
Proof.
  intros (g & [<-|[]] & F).
  inversion F as [|? c3 ? r3 D3 F3]; subst.
  inversion F3 as [|? c2 ? r2 D2 F2]; subst.
  inversion F2 as [|? c1 ? r1 D1 F1]; subst.
  inversion F1 as [|? c0 ? r0 D0 F0]; subst.
  inversion F0; subst.
  destruct (isdigit_inv _ D3) as (a & A & ->).
  destruct (isdigit_inv _ D2) as (b & B & ->).
  destruct (isdigit_inv _ D1) as (c & C & ->).
  destruct (isdigit_inv _ D0) as (d & D & ->).
  exists (1000 * a + 100 * b + 10 * c + d).
  rewrite <- (four_digits_of a b c d A B C D).
  split; [lia|]. split; [apply int_four_digits; lia | reflexivity].
Qed.

(** What [strptime] accepts, read off the pattern. *)
Lemma strptime_accepts_inv (value : str) (d : date) :
  strptime_ymd value = Ok d -> accepted_form value d.
Proof.
  intros E. pose proof (strptime_valid value d E) as V.
  unfold strptime_ymd in E.
  destruct (regex_match value) as [[[[Y m] dd] rest]|] eqn:R; [|discriminate].
  destruct rest; [|discriminate].
  destruct (regex_match_inv _ _ _ _ _ R) as (-> & GY & Gm & Gd).
  destruct (year_text_inv _ GY) as (y & By & EY & HY).
  destruct (month_text_inv _ Gm) as (mo & Bm & Em & Im).
  destruct (day_text_inv _ Gd) as (da & Bd & Ed & Id).
  rewrite EY, Em, Ed in E. cbn [bind] in E. subst Y.
  assert (d = mkdate y mo da) as ->.
  { unfold date_new in E. rewrite !c_int_fits in E by lia. cbn [bind] in E.
    destruct (_check_date_fields y mo da); [|discriminate E].
    cbn [bind] in E. congruence. }
  split; [exact V|]. cbn [year month day].
  exists m, dd. rewrite app_nil_r. auto.
Qed.

Lemma month_texts_match (m : Z) (mt s : str) :
  1 <= m <= 12 -> In mt (month_texts m) ->
  int mt = Ok m
  /\ exists more,
      alts group_m (mt ++ "-"%char :: s) = (mt, "-"%char :: s) :: more.
Proof.
  intros M.
  assert (m = 1 \/ m = 2 \/ m = 3 \/ m = 4 \/ m = 5 \/ m = 6 \/ m = 7 \/ m = 8
          \/ m = 9 \/ m = 10 \/ m = 11 \/ m = 12) as C by lia.
  repeat (destruct C as [-> | C];
          [intros I; vm_compute in I;
           repeat (destruct I as [<- | I];
                   [split; [vm_compute; reflexivity
                           | eexists; vm_compute; reflexivity]|]);
           destruct I|]).
  subst m. intros I. vm_compute in I.
  repeat (destruct I as [<- | I];
          [split; [vm_compute; reflexivity | eexists; vm_compute; reflexivity]|]).
  destruct I.
Qed.

Lemma day_texts_match (d : Z) (dt : str) :
  1 <= d <= 31 -> In dt (day_texts d) ->
  int dt = Ok d /\ exists more, alts group_d dt = (dt, []) :: more.
Proof.
  intros D.
  assert (exists n, (n < 31)%nat /\ d = 1 + Z.of_nat n) as (n & N & ->)
      by (exists (Z.to_nat (d - 1)); lia).
  do 31 (destruct n as [|n];
         [intros I; vm_compute in I;
          repeat (destruct I as [<- | I];
                  [split; [vm_compute; reflexivity
                          | eexists; vm_compute; reflexivity]|]);
          destruct I|]).
  lia.
Qed.

Lemma strptime_accepts (value : str) (d : date) :
  accepted_form value d -> strptime_ymd value = Ok d.
Proof.
  intros (V & mt & dt & Im & Id & ->). pose proof V as (Y & M & D).
  pose proof (days_in_month_bound (year d) (month d) M) as B.
  destruct (month_texts_match (month d) mt dt M Im) as (Em & more & Am).
  destruct (day_texts_match (day d) dt ltac:(lia) Id) as (Ed & more' & Ad).
  unfold strptime_ymd, regex_match.
  rewrite (year_group (year d) _ ltac:(lia)). cbn [flat_map app].
  change (only "-" "-") with true. cbv iota.
  rewrite Am. cbn [flat_map app]. change (only "-" "-") with true. cbv iota.
  rewrite Ad. cbn [map app hd_error].
  rewrite (int_four_digits (year d) ltac:(lia)), Em, Ed.
  cbn [bind]. now apply date_new_valid.
Qed.


Lemma parse_is_strptime (value : str) (d : date) :
  _parse_yyyy_mm_dd value = Ok d <-> strptime_ymd value = Ok d.
Proof.
  split; [apply parse_accepts|]. intros E. unfold _parse_yyyy_mm_dd. now rewrite E.
Qed.

(** C6.  A date argument is accepted exactly when it is a four-digit
    year, a month and a day, with dashes between them, that name a date
    of the calendar, the month and the day written with two digits or,
    below ten, with one digit, the day also with a space and one digit.
    Every text that conforms to [YYYY-MM-DD] is of this form; so are
    "2026-2-1" and "2026-02- 5", which do not conform.  Every other
    argument makes each date-scoped operation raise [ValueError] with a
    message that contains the argument, before any request is made: the
    run has requested nothing and consumed nothing.  "02-11-2026" is
    such an argument. *)
Theorem malformed_date_argument_is_refused
        (value other dest sas_url : str) (fs : disk) (net : list response) :
  (forall d, _parse_yyyy_mm_dd value = Ok d <-> accepted_form value d)
  /\ (forall d, conforms_yyyy_mm_dd value d -> accepted_form value d)
  /\ ((forall d, ~ accepted_form value d) ->
      _parse_yyyy_mm_dd value = Raise (invalid_argument value)
      /\ contains (lit "Invalid date '" ++ value ++ lit "'. Expected YYYY-MM-DD.")
                  value
      /\ download_since value dest sas_url fs net
         = mkrun [] net (Some (Raise (invalid_argument value)))
      /\ download_date value dest sas_url fs net
         = mkrun [] net (Some (Raise (invalid_argument value)))
      /\ download_range value other dest sas_url fs net
         = mkrun [] net (Some (Raise (invalid_argument value)))
      /\ (forall d, _parse_yyyy_mm_dd other = Ok d ->
            download_range other value dest sas_url fs net
            = mkrun [] net (Some (Raise (invalid_argument value)))))
  /\ (forall d, ~ accepted_form (lit "02-11-2026") d)
  /\ _parse_yyyy_mm_dd (lit "02-11-2026")
     = Raise (ValueError (lit "Invalid date '02-11-2026'. Expected YYYY-MM-DD.")).
Proof.
  assert (forall v d, _parse_yyyy_mm_dd v = Ok d <-> accepted_form v d) as A.
  { intros v d. rewrite parse_is_strptime. split.
    - apply strptime_accepts_inv.
    - apply strptime_accepts. }
  split; [apply A|]. split.
  { intros d [V ->]. split; [exact V|].
    exists (two_digits (month d)), (two_digits (day d)).
    split; [now left|]. split; [now left | reflexivity]. }
  split.
  { intros N.
    assert (_parse_yyyy_mm_dd value = Raise (invalid_argument value)) as P.
    { apply parse_refuses. intros d E. apply (N d). now apply strptime_accepts_inv. }
    split; [exact P|].
    split; [exists (lit "Invalid date '"), (lit "'. Expected YYYY-MM-DD."); reflexivity|].
    split; [unfold download_since; now rewrite P|].
    split; [unfold download_date; now rewrite P|].
    split; [unfold download_range; now rewrite P|].
    intros d Po. unfold download_range. rewrite Po, iobind_lift_ok. now rewrite P. }
  split; [|vm_compute; reflexivity].
  intros d F. apply A in F. vm_compute in F. discriminate F.
Qed.

End Conformance.

Section ConformanceExamples.

Lemma malformed_date_argument_is_refused_witness :
  _parse_yyyy_mm_dd (lit "02-11-2026")
  = Raise (invalid_argument (lit "02-11-2026"))
  /\ contains (lit "Invalid date '" ++ lit "02-11-2026"
               ++ lit "'. Expected YYYY-MM-DD.") (lit "02-11-2026")
  /\ @download_since plain_hosts small_disk (lit "02-11-2026") downloads
                     sample_url empty_disk [Unreachable]
     = mkrun [] [Unreachable] (Some (Raise (invalid_argument (lit "02-11-2026"))))
  /\ @download_date plain_hosts small_disk (lit "02-11-2026") downloads
                    sample_url empty_disk [Unreachable]
     = mkrun [] [Unreachable] (Some (Raise (invalid_argument (lit "02-11-2026"))))
  /\ @download_range plain_hosts small_disk (lit "02-11-2026") (lit "2026-02-11")
                     downloads sample_url empty_disk [Unreachable]
     = mkrun [] [Unreachable] (Some (Raise (invalid_argument (lit "02-11-2026"))))
  /\ (forall d, _parse_yyyy_mm_dd (lit "2026-02-11") = Ok d ->
        @download_range plain_hosts small_disk (lit "2026-02-11") (lit "02-11-2026")
                        downloads sample_url empty_disk [Unreachable]
        = mkrun [] [Unreachable]
                (Some (Raise (invalid_argument (lit "02-11-2026"))))).
Proof.
  destruct (@malformed_date_argument_is_refused plain_hosts small_disk
              (lit "02-11-2026") (lit "2026-02-11") downloads sample_url
              empty_disk [Unreachable]) as (_ & _ & R & N & _).
  exact (R N).
Defined.

(** C6 as stated fails: two arguments that do not conform to
    [YYYY-MM-DD] are accepted; with the first, [download_since] goes on
    to the listing request. *)
Lemma nonconforming_argument_is_accepted :
  _parse_yyyy_mm_dd (lit "2026-2-1") = Ok (mkdate 2026 2 1)
  /\ (forall d, ~ conforms_yyyy_mm_dd (lit "2026-2-1") d)
  /\ _parse_yyyy_mm_dd (lit "2026-02- 5") = Ok (mkdate 2026 2 5)
  /\ (forall d, ~ conforms_yyyy_mm_dd (lit "2026-02- 5") d)
  /\ @download_since plain_hosts small_disk (lit "2026-2-1") downloads
                     sample_url empty_disk []
     = mkrun [list_url sample_base sample_token None] [] None.
Proof.
  split; [vm_compute; reflexivity|].
  split; [intros d [_ E]; apply (f_equal (@length ascii)) in E; discriminate E|].
  split; [vm_compute; reflexivity|].
  split; [|vm_compute; reflexivity].
  intros d [(_ & M & D) E].
  pose proof (days_in_month_bound (year d) (month d) M) as B.
  unfold iso, four_digits, two_digits in E. cbn [app] in E.
  injection E as _ _ _ _ _ _ E _.
  assert (0 <= day d / 10 <= 9) as K
      by (pose proof (Z.div_pos (day d) 10);
          pose proof (Z.div_lt_upper_bound (day d) 10 10); lia).
  destruct (digit_facts _ K) as (_ & S & _).
  rewrite <- E in S. discriminate S.
Qed.

End ConformanceExamples.

(** ** Timestamps as they are written *)

Section Written.

Lemma in_upto (n : nat) (k : Z) : 0 <= k < Z.of_nat n -> In k (upto_n n).
Proof.
  intros K. unfold upto_n. replace k with (Z.of_nat (Z.to_nat k)) by lia.
  apply in_map, in_seq. lia.
Qed.

Lemma all_upto (n : nat) (P : Z -> bool) :
  forallb P (upto_n n) = true -> forall k, 0 <= k < Z.of_nat n -> P k = true.
Proof. intros A k K. rewrite forallb_forall in A. apply A, in_upto, K. Qed.

(** Words: a word is read to its end, and a space ends it. *)
Lemma split_ws_from_word (t : str) :
  forall cur rest,
    no_space t = true ->
    split_ws_from cur (t ++ rest) = split_ws_from (cur ++ t) rest.
Proof.
  induction t as [|c t IH]; intros cur rest N.
  - now rewrite app_nil_r.
  - cbn [no_space forallb] in N. apply andb_true_iff in N. destruct N as [C N].
    cbn [app split_ws_from]. apply negb_true_iff in C. rewrite C.
    rewrite (IH (cur ++ [c]) rest N), <- app_assoc. reflexivity.
Qed.

Lemma split_ws_join (l : list str) :
  Forall (fun t => t <> [] /\ no_space t = true) l ->
  split_ws (join l) = l.
Proof.
  unfold split_ws.
  induction 1 as [|t rest [Ne N] F IH]; [reflexivity|].
  destruct rest as [|u rest'].
  - cbn [join]. rewrite <- (app_nil_r t) at 1.
    rewrite (split_ws_from_word t [] [] N).
    cbn [app split_ws_from]. destruct t; [now destruct Ne | reflexivity].
  - change (join (t :: u :: rest')) with (t ++ " "%char :: join (u :: rest')).
    rewrite (split_ws_from_word t [] _ N). cbn [app split_ws_from].
    change (isspace " ") with true. cbv iota.
    destruct t; [now destruct Ne|]. now rewrite IH.
Qed.

Lemma date_words_six (data d0 a b c t z : str) :
  split_ws data = [d0; a; b; c; t; z] -> endswith "," d0 = true ->
  date_words data = Some [a; b; c; t; z].
Proof.
  intros S E. unfold date_words. destruct data as [|x data']; [discriminate S|].
  rewrite S, E. reflexivity.
Qed.

Lemma date_words_five (data a b c t z : str) :
  split_ws data = [a; b; c; t; z] ->
  endswith "," a = false -> mem (lower a) _daynames = false ->
  (0 <=? rfind "," a) = false ->
  date_words data = Some [a; b; c; t; z].
Proof.
  intros S E M R. unfold date_words.
  destruct data as [|x data']; [discriminate S|].
  rewrite S, E, M. cbn [orb]. cbv zeta. rewrite R. reflexivity.
Qed.

Lemma parsedate_tz_words (data dd mm yy tm tz thh tmm tss : str)
      (y d h mi s : Z) :
  date_words data = Some [dd; mm; yy; tm; tz] ->
  dd <> [] -> mm <> [] -> yy <> [] ->
  mem (lower mm) _monthnames = true ->
  last_is "," dd = false ->
  (0 <? find ":" yy) = false ->
  last_is "," yy = false ->
  match yy with c :: _ => str_isdigit c = true | [] => False end ->
  last_is "," tm = false ->
  time_fields tm = Some (thh, tmm, tss) ->
  try_int yy = Some y -> try_int dd = Some d ->
  try_int thh = Some h -> try_int tmm = Some mi -> try_int tss = Some s ->
  _parsedate_tz data
  = Some (read_year y,
          (let i := index (lower mm) _monthnames + 1 in
           if 12 <? i then i - 12 else i),
          d, h, mi, s, zone_offset tz).
Proof.
  intros W Nd Nm Ny M Ld Fy Ly Hy Lt T Ey Ed Eh Em Es.
  unfold _parsedate_tz. rewrite W.
  assert (forall t : str, t <> [] -> (len t =? 0) = false) as NE
      by (intros [|c t] E; [now destruct E | reflexivity]).
  rewrite (NE _ Nd), (NE _ Nm), (NE _ Ny). cbn [negb andb].
  rewrite M. cbn [negb]. rewrite Ld, Fy, Ly. cbn [andb].
  destruct yy as [|c yy']; [destruct Hy|]. rewrite Hy, Lt, T, Ey, Ed, Eh, Em, Es.
  cbv zeta. rewrite M. reflexivity.
Qed.

Lemma split_at (c : ascii) (a b : str) :
  has c a = false -> split c (a ++ c :: b) = a :: split c b.
Proof.
  induction a as [|x a IH]; intros N.
  - cbn [app split]. now rewrite Ascii.eqb_refl.
  - rewrite has_cons, orb_false_iff in N. destruct N as [X N].
    cbn [app split]. rewrite Ascii.eqb_sym, X, (IH N). reflexivity.
Qed.

Lemma split_none (c : ascii) (a : str) : has c a = false -> split c a = [a].
Proof.
  induction a as [|x a IH]; intros N; [reflexivity|].
  rewrite has_cons, orb_false_iff in N. destruct N as [X N].
  cbn [split]. rewrite Ascii.eqb_sym, X, (IH N). reflexivity.
Qed.

Lemma endswith_app (c : ascii) (a b : str) :
  b <> [] -> endswith c (a ++ b) = endswith c b.
Proof.
  intros N. unfold endswith. rewrite rev_app_distr.
  destruct (rev b) as [|x r] eqn:R; [|reflexivity].
  apply (f_equal (@rev ascii)) in R. rewrite rev_involutive in R. now destruct N.
Qed.

Lemma no_space_app (a b : str) : no_space (a ++ b) = no_space a && no_space b.
Proof. apply forallb_app. Qed.

Lemma no_space_cons (c : ascii) (t : str) :
  no_space (c :: t) = negb (isspace c) && no_space t.
Proof. reflexivity. Qed.

(** The words of a timestamp, one kind after the other. *)
Lemma number_facts (t : str) (n : Z) :
  number_ok t n = true ->
  t <> [] /\ no_space t = true /\ endswith "," t = false
  /\ has ":" t = false /\ mem (lower t) _daynames = false
  /\ (0 <=? rfind "," t) = false /\ try_int t = Some n.
Proof.
  unfold number_ok. rewrite !andb_true_iff, !negb_true_iff.
  intros [[[[[[P0 P1] P2] P3] P4] P5] P6].
  split; [intros ->; discriminate P0|].
  repeat (split; [assumption|]).
  destruct (try_int t) as [v|]; [|discriminate P6].
  apply Z.eqb_eq in P6. now subst.
Qed.

Lemma pair_facts (n : Z) : 0 <= n < 100 -> number_ok (two_digits n) n = true.
Proof.
  intros N.
  assert (forallb pair_ok (upto_n 100) = true) as A by (vm_compute; reflexivity).
  exact (all_upto 100 pair_ok A n N).
Qed.

Lemma short_facts (n : Z) : 0 <= n < 10 -> number_ok [digit n] n = true.
Proof.
  intros N.
  assert (forallb short_ok (upto_n 10) = true) as A by (vm_compute; reflexivity).
  exact (all_upto 10 short_ok A n N).
Qed.

Lemma digit_plain (k : Z) :
  0 <= k <= 9 ->
  Ascii.eqb (digit k) ":" = false /\ Ascii.eqb (digit k) "," = false
  /\ str_isdigit (digit k) = true.
Proof.
  intros K.
  assert (k = 0 \/ k = 1 \/ k = 2 \/ k = 3 \/ k = 4 \/ k = 5 \/ k = 6 \/ k = 7
          \/ k = 8 \/ k = 9) as C by lia.
  repeat (destruct C as [-> | C]; [now vm_compute|]). subst k. now vm_compute.
Qed.

Lemma year_facts (y : Z) :
  0 <= y <= 9999 ->
  no_space (four_digits y) = true
  /\ (0 <? find ":" (four_digits y)) = false
  /\ last_is "," (four_digits y) = false
  /\ match four_digits y with c :: _ => str_isdigit c = true | [] => False end
  /\ try_int (four_digits y) = Some y.
Proof.
  intros Y.
  assert (0 <= y / 1000 <= 9) as K3
      by (pose proof (Z.div_pos y 1000);
          pose proof (Z.div_lt_upper_bound y 1000 10); lia).
  assert (0 <= y / 100 mod 10 <= 9) as K2
      by (pose proof (Z.mod_pos_bound (y / 100) 10); lia).
  assert (0 <= y / 10 mod 10 <= 9) as K1
      by (pose proof (Z.mod_pos_bound (y / 10) 10); lia).
  assert (0 <= y mod 10 <= 9) as K0 by (pose proof (Z.mod_pos_bound y 10); lia).
  destruct (digit_facts _ K3) as (_ & S3 & _), (digit_facts _ K2) as (_ & S2 & _),
    (digit_facts _ K1) as (_ & S1 & _), (digit_facts _ K0) as (_ & S0 & _).
  destruct (digit_plain _ K3) as (C3 & _ & I3), (digit_plain _ K2) as (C2 & _ & _),
    (digit_plain _ K1) as (C1 & _ & _), (digit_plain _ K0) as (C0 & M0 & _).
  unfold four_digits, no_space, last_is, endswith, try_int.
  cbn [forallb rev app find].
  rewrite S3, S2, S1, S0, C3, C2, C1, C0, M0. cbn [negb andb].
  repeat split; try reflexivity; try assumption.
  change [digit (y / 1000); digit ((y / 100) mod 10); digit ((y / 10) mod 10);
          digit (y mod 10)] with (four_digits y).
  now rewrite (int_four_digits y Y).
Qed.

Lemma weekday_facts (i : nat) :
  (i < length weekdays)%nat ->
  let t := lit (nth i weekdays "Mon"%string) ++ [","%char] in
  t <> [] /\ no_space t = true /\ endswith "," t = true.
Proof.
  intros I. cbn [length weekdays] in I.
  do 7 (destruct i as [|i]; [now vm_compute|]). lia.
Qed.

Lemma month_facts (m : Z) :
  1 <= m <= 12 ->
  let t := lit (nth (Z.to_nat (m - 1)) months "Jan"%string) in
  t <> [] /\ no_space t = true /\ mem (lower t) _monthnames = true
  /\ (let i := index (lower t) _monthnames + 1 in
      if 12 <? i then i - 12 else i) = m.
Proof.
  intros M.
  assert (m = 1 \/ m = 2 \/ m = 3 \/ m = 4 \/ m = 5 \/ m = 6 \/ m = 7 \/ m = 8
          \/ m = 9 \/ m = 10 \/ m = 11 \/ m = 12) as C by lia.
  repeat (destruct C as [-> | C]; [now vm_compute|]). subst m. now vm_compute.
Qed.

Lemma zone_facts (z : zone) :
  zone_ok z ->
  zone_text z <> [] /\ no_space (zone_text z) = true
  /\ zone_offset (zone_text z) = read_zone z.
Proof.
  destruct z as [i | west hh mm]; cbn [zone_ok].
  - intros I. cbn [length zones] in I.
    do 10 (destruct i as [|i]; [now vm_compute|]). lia.
  - intros [Hh Hm]. split; [destruct west; discriminate|].
    assert (forall w, forallb (numeric_zone_ok w) (upto_n 1440) = true) as A
        by (intros []; vm_compute; reflexivity).
    pose proof (all_upto 1440 _ (A west) (60 * hh + mm) ltac:(lia)) as P.
    unfold numeric_zone_ok in P. cbv zeta in P.
    assert ((60 * hh + mm) / 60 = hh) as Eh
        by (symmetry; apply (Z.div_unique _ 60 hh mm); lia).
    assert ((60 * hh + mm) mod 60 = mm) as Em
        by (symmetry; apply (Z.mod_unique _ 60 hh mm); lia).
    rewrite Eh, Em in P. apply andb_true_iff in P. destruct P as [P1 P2].
    split; [exact P1|].
    destruct (zone_offset (zone_text (Numeric west hh mm))) as [a|],
      (read_zone (Numeric west hh mm)) as [b|]; try discriminate P2;
      [apply Z.eqb_eq in P2; now subst | reflexivity].
Qed.

Lemma day_facts (w : stamp) :
  1 <= w_day w <= 31 -> number_ok (day_text w) (w_day w) = true.
Proof.
  intros D. unfold day_text.
  destruct (w_padded w); cbn [orb]; [apply pair_facts; lia|].
  destruct (Z.leb_spec 10 (w_day w)); [apply pair_facts | apply short_facts]; lia.
Qed.

Lemma time_facts (w : stamp) :
  0 <= w_hour w <= 23 -> 0 <= w_minute w <= 59 ->
  match w_second w with Some s => 0 <= s <= 60 | None => True end ->
  time_text w <> [] /\ no_space (time_text w) = true
  /\ last_is "," (time_text w) = false
  /\ exists tss,
       time_fields (time_text w)
       = Some (two_digits (w_hour w), two_digits (w_minute w), tss)
       /\ try_int tss = Some (seconds w).
Proof.
  intros Hh Hm Hs.
  destruct (number_facts _ _ (pair_facts (w_hour w) ltac:(lia)))
    as (_ & Sh & _ & Ch & _).
  destruct (number_facts _ _ (pair_facts (w_minute w) ltac:(lia)))
    as (Nm & Sm & Lm & Cm & _).
  unfold time_text, seconds, last_is.
  split; [discriminate|].
  destruct (w_second w) as [s|].
  - destruct (number_facts _ _ (pair_facts s ltac:(lia)))
      as (Ns & Ss & Ls & Cs & _ & _ & Is).
    split; [|split].
    + rewrite no_space_app, Sh, no_space_cons, no_space_app, Sm, no_space_cons, Ss.
      reflexivity.
    + change (two_digits (w_hour w) ++ ":"%char :: two_digits (w_minute w)
              ++ ":"%char :: two_digits s)
        with (two_digits (w_hour w) ++ (":"%char :: two_digits (w_minute w)
              ++ [":"%char]) ++ two_digits s).
      rewrite app_assoc. rewrite endswith_app by exact Ns. exact Ls.
    + exists (two_digits s). split; [|exact Is].
      unfold time_fields.
      rewrite (split_at _ _ _ Ch), (split_at _ _ _ Cm), (split_none _ _ Cs).
      reflexivity.
  - rewrite app_nil_r. split; [|split].
    + rewrite no_space_app, Sh, no_space_cons, Sm. reflexivity.
    + change (two_digits (w_hour w) ++ ":"%char :: two_digits (w_minute w))
        with (two_digits (w_hour w) ++ [":"%char] ++ two_digits (w_minute w)).
      rewrite app_assoc. rewrite endswith_app by exact Nm. exact Lm.
    + exists (lit "0"). split; [|reflexivity].
      unfold time_fields.
      rewrite (split_at _ _ _ Ch), (split_none _ _ Cm). reflexivity.
Qed.


Lemma words_plain (w : stamp) :
  well_formed w ->
  Forall (fun t => t <> [] /\ no_space t = true) (words w).
Proof.
  intros (Wd & (Y & M & D) & Hh & Hm & Hs & Z). cbn [written_date year month day] in Y, M, D.
  pose proof (days_in_month_bound (w_year w) (w_month w) M) as B.
  destruct (number_facts _ _ (day_facts w ltac:(lia))) as (Nd & Sd & _).
  destruct (month_facts (w_month w) M) as (Nm & Sm & _).
  destruct (year_facts (w_year w) ltac:(lia)) as (Sy & _).
  destruct (time_facts w Hh Hm Hs) as (Nt & St & _).
  destruct (zone_facts _ Z) as (Nz & Sz & _).
  unfold words. apply Forall_app. split.
  - unfold weekday_words. destruct (w_weekday w) as [i|]; [|constructor].
    destruct (weekday_facts i Wd) as (N0 & S0 & _). now repeat constructor.
  - repeat constructor; try assumption. discriminate.
Qed.

Lemma parsedate_tz_written (w : stamp) :
  well_formed w ->
  _parsedate_tz (text w)
  = Some (read_year (w_year w), w_month w, w_day w, w_hour w, w_minute w,
          seconds w, read_zone (w_zone w)).
Proof.
  intros WF. pose proof (split_ws_join _ (words_plain w WF)) as S.
  destruct WF as (Wd & (Y & M & D) & Hh & Hm & Hs & Z).
  cbn [written_date year month day] in Y, M, D.
  pose proof (days_in_month_bound (w_year w) (w_month w) M) as B.
  destruct (number_facts _ _ (day_facts w ltac:(lia)))
    as (Nd & Sd & Ld & _ & Dd & Rd & Id).
  destruct (month_facts (w_month w) M) as (Nm & Sm & Mm & Im).
  destruct (year_facts (w_year w) ltac:(lia)) as (Sy & Fy & Ly & Hy & Iy).
  destruct (time_facts w Hh Hm Hs) as (Nt & St & Lt & tss & Tf & Is).
  destruct (zone_facts _ Z) as (Nz & Sz & Oz).
  destruct (number_facts _ _ (pair_facts (w_hour w) ltac:(lia)))
    as (_ & _ & _ & _ & _ & _ & Ih).
  destruct (number_facts _ _ (pair_facts (w_minute w) ltac:(lia)))
    as (_ & _ & _ & _ & _ & _ & Imi).
  assert (date_words (text w)
          = Some [day_text w; month_text w; four_digits (w_year w);
                  time_text w; zone_text (w_zone w)]) as DW.
  { unfold text, words, weekday_words in *.
    destruct (w_weekday w) as [i|]; cbn [app] in *.
    - destruct (weekday_facts i Wd) as (_ & _ & E0).
      exact (date_words_six _ _ _ _ _ _ _ S E0).
    - exact (date_words_five _ _ _ _ _ _ S Ld Dd Rd). }
  rewrite (parsedate_tz_words _ _ _ _ _ _ _ _ _ _ _ _ _ _ DW Nd Nm
             ltac:(discriminate) Mm Ld Fy Ly Hy Lt Tf Iy Id Ih Imi Is).
  unfold month_text. cbv zeta in Im. rewrite Im, Oz. reflexivity.
Qed.

Lemma timezone_fits (s : Z) : -86400 < s < 86400 -> timezone s = Ok s.
Proof.
  intros S. unfold timezone, utc. cbv zeta.
  assert (-1 <= s / 86400 <= 0) as Q.
  { pose proof (Z.div_mod s 86400 ltac:(lia)).
    pose proof (Z.mod_pos_bound s 86400 ltac:(lia)). lia. }
  assert ((s / 86400 <? - 2 ^ 31) || (2 ^ 31 <=? s / 86400) = false) as ->
      by (apply orb_false_iff; split; [apply Z.ltb_ge | apply Z.leb_gt]; lia).
  assert ((999999999 <? Z.abs (s / 86400)) = false) as -> by (apply Z.ltb_ge; lia).
  destruct (Z.eqb_spec s 0) as [-> | N]; [reflexivity|].
  assert ((-86400 <? s) && (s <? 86400) = true) as ->
      by (apply andb_true_iff; split; apply Z.ltb_lt; lia).
  reflexivity.
Qed.

Lemma offset_bounds (z : zone) : zone_ok z -> -86400 < offset z < 86400.
Proof.
  destruct z as [i | west hh mm]; cbn [zone_ok offset].
  - intros I. cbn [length zones] in I.
    do 10 (destruct i as [|i]; [now vm_compute|]). lia.
  - intros [Hh Hm]. destruct west; lia.
Qed.

Lemma read_zone_offset (z : zone) :
  match read_zone z with Some off => off | None => 0 end = offset z.
Proof.
  destruct z as [i | [] hh mm]; try reflexivity.
  destruct hh; try reflexivity. destruct mm; reflexivity.
Qed.

(** A year below 100 and the year it is read as are leap years
    together. *)
Lemma read_year_valid (y m d : Z) :
  0 <= y <= 9999 -> 1 <= m <= 12 -> 1 <= d <= _days_in_month y m ->
  valid_date (mkdate (read_year y) m d).
Proof.
  intros Y M D. unfold valid_date. cbn [year month day].
  destruct (Z.ltb_spec y 100) as [L|L].
  - assert (forallb leap_kept (upto_n 100) = true) as A by (vm_compute; reflexivity).
    pose proof (all_upto 100 leap_kept A y ltac:(lia)) as K.
    unfold leap_kept in K. apply eqb_prop in K.
    assert (1 <= read_year y <= 9999) as R
        by (unfold read_year; destruct (Z.ltb_spec y 100), (68 <? y); lia).
    unfold _days_in_month in *. rewrite K. lia.
  - unfold read_year. apply Z.ltb_ge in L. rewrite L. lia.
Qed.

Lemma datetime_new_valid (y m d hh mi ss : Z) (tz : option Z) :
  valid_date (mkdate y m d) -> 0 <= hh <= 23 -> 0 <= mi <= 59 ->
  datetime_new y m d hh mi ss tz
  = if (0 <=? ss) && (ss <=? 59)
    then Ok (mkdatetime (mkdate y m d) hh mi ss tz)
    else if (ss <? - 2 ^ 31) || (2 ^ 31 <=? ss) then datetime_new y m d hh mi ss tz
    else Raise (ValueError (lit "second must be in 0..59")).
Proof.
  intros (Y & M & D) Hh Hm. cbn [year month day] in *.
  pose proof (days_in_month_bound y m M) as B.
  destruct ((ss <? - 2 ^ 31) || (2 ^ 31 <=? ss)) eqn:Big.
  - destruct ((0 <=? ss) && (ss <=? 59)) eqn:In; [|reflexivity].
    apply andb_true_iff in In. destruct In as [L U].
    apply Z.leb_le in L, U. apply orb_true_iff in Big.
    destruct Big as [Big|Big]; [apply Z.ltb_lt in Big | apply Z.leb_le in Big]; lia.
  - apply orb_false_iff in Big. destruct Big as [L U].
    apply Z.ltb_ge in L. apply Z.leb_gt in U.
    unfold datetime_new. rewrite !c_int_fits by lia. cbn [bind].
    unfold _check_date_fields, _check_time_fields, MINYEAR, MAXYEAR.
    apply within in Y, M, D, Hh, Hm. rewrite Y, M, D, Hh, Hm. cbn [negb bind].
    destruct ((0 <=? ss) && (ss <=? 59)); reflexivity.
Qed.

(** What the parser makes of a well-formed timestamp. *)
Lemma parsedate_written (w : stamp) :
  well_formed w ->
  parsedate_to_datetime (text w)
  = if seconds w =? 60
    then Raise (ValueError (lit "second must be in 0..59"))
    else Ok (mkdatetime (written_date (as_read w)) (w_hour w) (w_minute w)
                        (seconds w) (read_zone (w_zone w))).
Proof.
  intros WF. unfold parsedate_to_datetime. rewrite (parsedate_tz_written w WF).
  destruct WF as (_ & (Y & M & D) & Hh & Hm & Hs & Z).
  pose proof (read_year_valid _ _ _ Y M D) as V.
  assert (0 <= seconds w <= 60) as S
      by (unfold seconds; destruct (w_second w); lia).
  assert (forall tz,
            datetime_new (read_year (w_year w)) (w_month w) (w_day w) (w_hour w)
                         (w_minute w) (seconds w) tz
            = if seconds w =? 60
              then Raise (ValueError (lit "second must be in 0..59"))
              else Ok (mkdatetime (written_date (as_read w)) (w_hour w)
                                  (w_minute w) (seconds w) tz)) as New.
  { intros tz. rewrite (datetime_new_valid _ _ _ _ _ _ tz V Hh Hm).
    assert ((seconds w <? - 2 ^ 31) || (2 ^ 31 <=? seconds w) = false) as ->
        by (apply orb_false_iff; split; [apply Z.ltb_ge | apply Z.leb_gt]; lia).
    destruct (Z.eqb_spec (seconds w) 60) as [E|N].
    - rewrite E. reflexivity.
    - assert ((0 <=? seconds w) && (seconds w <=? 59) = true) as ->
          by (apply andb_true_iff; split; apply Z.leb_le; lia).
      reflexivity. }
  destruct (read_zone (w_zone w)) as [off|] eqn:RZ.
  - pose proof (read_zone_offset (w_zone w)) as O. rewrite RZ in O.
    pose proof (offset_bounds _ Z) as B.
    rewrite (timezone_fits off ltac:(lia)). cbn [bind]. apply New.
  - apply New.
Qed.


Lemma as_read_well_formed (w : stamp) : well_formed w -> well_formed (as_read w).
Proof.
  intros (Wd & (Y & M & D) & Rest). split; [exact Wd|]. split; [|exact Rest].
  destruct (read_year_valid _ _ _ Y M D) as (Y' & M' & D').
  cbn [year month day] in Y', M', D'. cbn [as_read w_year w_month w_day]. lia.
Qed.

Lemma written_valid (w : stamp) :
  well_formed w -> 1 <= w_year w -> valid_date (written_date w).
Proof.
  intros (_ & (Y & M & D) & _) Y1. unfold valid_date, written_date.
  cbn [year month day]. lia.
Qed.

Lemma as_read_same (w : stamp) : 100 <= w_year w -> as_read w = w.
Proof.
  intros Y. unfold as_read, read_year.
  assert ((w_year w <? 100) = false) as -> by (apply Z.ltb_ge; lia).
  now destruct w.
Qed.

Lemma toordinal_year (d : date) :
  valid_date d ->
  _days_before_year (year d) + 1 <= toordinal d
  <= _days_before_year (year d) + 366.
Proof.
  intros (Y & M & D). unfold toordinal, _ymd2ord.
  pose proof (day_of_year_bounds _ _ _ M D) as B.
  destruct (_is_leap (year d)); lia.
Qed.

(** The UTC day of a well-formed timestamp is the day written, the day
    before or the day after. *)
Lemma instant_day (w : stamp) :
  well_formed w -> seconds w <> 60 ->
  toordinal (written_date w) - 1 <= instant w / 86400
  <= toordinal (written_date w) + 1.
Proof.
  intros (_ & _ & Hh & Hm & Hs & Z) S.
  assert (0 <= seconds w <= 59) as S'
      by (unfold seconds in *; destruct (w_second w); lia).
  pose proof (offset_bounds _ Z) as O.
  pose proof (Z.div_mod (instant w) 86400 ltac:(lia)) as DM.
  pose proof (Z.mod_pos_bound (instant w) 86400 ltac:(lia)) as MB.
  unfold instant in *. lia.
Qed.

Lemma instant_read (w : stamp) :
  utc_instant (mkdatetime (written_date (as_read w)) (w_hour w) (w_minute w)
                          (seconds w) (read_zone (w_zone w)))
  = instant (as_read w).
Proof.
  unfold utc_instant, instant. cbn [dt_date hour minute second tzinfo].
  rewrite read_zone_offset. reflexivity.
Qed.

(** The normalisation of a well-formed timestamp without a leap second,
    by the instant of the timestamp as the parser reads its year. *)
Lemma normalization_of_written (b : blob) (w : stamp) :
  well_formed w -> last_modified b = Some (text w) -> seconds w <> 60 ->
  (1 <= instant (as_read w) / 86400 <= _MAXORDINAL ->
   exists d, _blob_modified_date b = Ok (Some d)
             /\ valid_date d
             /\ 86400 * toordinal d <= instant (as_read w)
                < 86400 * (toordinal d + 1))
  /\ (~ 1 <= instant (as_read w) / 86400 <= _MAXORDINAL ->
      _blob_modified_date b = Raise (OverflowError (lit "date value out of range"))).
Proof.
  intros WF L S. pose proof (parsedate_written w WF) as P.
  apply Z.eqb_neq in S. rewrite S in P.
  destruct (normalization_of_parsed b _ _ L P) as (In & Out & _).
  rewrite instant_read in In, Out. split; assumption.
Qed.

Lemma leap_second_refused (b : blob) (w : stamp) :
  well_formed w -> last_modified b = Some (text w) -> seconds w = 60 ->
  _blob_modified_date b = Raise (ValueError (lit "second must be in 0..59")).
Proof.
  intros WF L S. pose proof (parsedate_written w WF) as P.
  rewrite S in P. change (60 =? 60) with true in P. cbv iota in P.
  unfold _blob_modified_date. rewrite L.
  destruct (text w) as [|c s]; [vm_compute in P; discriminate P|].
  unfold _parse_last_modified. rewrite P. reflexivity.
Qed.

Lemma days_before_year_mono (y : Z) :
  1 <= y -> 365 * (y - 1) <= _days_before_year y <= 366 * (y - 1).
Proof.
  intros Y. unfold _days_before_year. cbv zeta. Z.div_mod_to_equations. lia.
Qed.

(** What the normalisation makes of a parsed timestamp, against the
    date that was read. *)
Lemma shift_of_parsed (b : blob) (s : str) (dt : datetime) (d : date) :
  last_modified b = Some s ->
  parsedate_to_datetime s = Ok dt ->
  _blob_modified_date b = Ok (Some d) ->
  -1 <= toordinal d - toordinal (dt_date dt) <= 1
  /\ (forall off, tzinfo dt = Some off -> 0 <= off ->
                  toordinal d <= toordinal (dt_date dt))
  /\ (forall off, tzinfo dt = Some off -> off <= 0 ->
                  toordinal (dt_date dt) <= toordinal d)
  /\ (tzinfo dt = None \/ tzinfo dt = Some 0 -> d = dt_date dt).
Proof.
  intros Hlm P E.
  destruct (parsedate_inv _ _ P) as (Ns & V & Hh & Hm & Hsec & Hoff).
  assert (_blob_modified_date b
          = (let '(dt0, offset) :=
               match tzinfo dt with
               | None => (replace_tzinfo dt (Some utc), utc)
               | Some off => (dt, off)
               end in
             dt1 <- astimezone_utc dt0 offset ;; Ok (Some (date_of dt1)))) as Unfold.
  { unfold _blob_modified_date. rewrite Hlm.
    destruct s as [|c s]; [congruence|]. unfold _parse_last_modified. now rewrite P. }
  rewrite Unfold in E.
  destruct (tzinfo dt) as [off|] eqn:Tz.
  - destruct (Z.eq_dec off 0) as [-> | N].
    + cbn in E. injection E as <-. unfold date_of.
      repeat split; try lia.
    + destruct (astimezone_utc_shift dt off V Hh Hm Hsec Tz N) as [Shift Over].
      assert (1 <= utc_instant dt / 86400 <= _MAXORDINAL) as R.
      { destruct (Z_le_dec 1 (utc_instant dt / 86400)) as [L|L];
          [destruct (Z_le_dec (utc_instant dt / 86400) _MAXORDINAL) as [U|U]|];
          [tauto | |]; rewrite Over in E by tauto; discriminate E. }
      destruct (Shift R) as (u & Eu & Du). rewrite Eu in E. cbn [bind] in E.
      injection E as <-. rewrite Du.
      destruct (fromordinal_valid _ R) as [_ ->].
      pose proof (Hoff off eq_refl) as B.
      assert (utc_instant dt
              = toordinal (dt_date dt) * 86400
                + (hour dt * 3600 + minute dt * 60 + second dt - off)) as I
          by (unfold utc_instant; rewrite Tz; lia).
      pose proof (Z.div_mod (utc_instant dt) 86400 ltac:(lia)) as DM.
      pose proof (Z.mod_pos_bound (utc_instant dt) 86400 ltac:(lia)) as MB.
      split; [lia|]. split; [intros off' [= <-] O; lia|].
      split; [intros off' [= <-] O; lia|].
      intros [K | [= K]]; [discriminate K | now destruct N].
  - cbn in E. injection E as <-. unfold date_of, replace_tzinfo. cbn [dt_date].
    repeat split; try lia; discriminate.
Qed.

Lemma days_before_year_step (y : Z) :
  _days_before_year (y + 1)
  = _days_before_year y + 365 + (if _is_leap y then 1 else 0).
Proof.
  unfold _days_before_year, _is_leap. cbv zeta.
  replace (y + 1 - 1) with y by lia.
  destruct (Z.eqb_spec (y mod 4) 0) as [E4|E4];
    destruct (Z.eqb_spec (y mod 100) 0) as [E100|E100];
    destruct (Z.eqb_spec (y mod 400) 0) as [E400|E400];
    cbn [andb orb negb]; Z.div_mod_to_equations; lia.
Qed.

Lemma days_before_year_le (a b : Z) :
  a <= b -> _days_before_year a <= _days_before_year b.
Proof.
  intros L. unfold _days_before_year. cbv zeta. Z.div_mod_to_equations. lia.
Qed.

Lemma month_order (y a b : Z) :
  1 <= a -> a < b -> b <= 12 ->
  _days_before_month y a + _days_in_month y a <= _days_before_month y b.
Proof.
  intros A L B. unfold _days_before_month, _days_in_month.
  assert (forall leap, forallb (month_order_ok leap) (upto_n 144) = true) as T
      by (intros []; vm_compute; reflexivity).
  pose proof (all_upto 144 _ (T (_is_leap y)) (12 * (a - 1) + (b - 1)) ltac:(lia)) as K.
  unfold month_order_ok in K. cbv zeta in K.
  assert ((12 * (a - 1) + (b - 1)) / 12 + 1 = a) as Ea
      by (rewrite <- (Z.div_unique _ 12 (a - 1) (b - 1)); lia).
  assert ((12 * (a - 1) + (b - 1)) mod 12 + 1 = b) as Eb
      by (rewrite <- (Z.mod_unique _ 12 (a - 1) (b - 1)); lia).
  rewrite Ea, Eb in K. apply orb_true_iff in K.
  destruct K as [K|K]; apply Z.leb_le in K; lia.
Qed.

(** A date of the calendar is known by its ordinal. *)
Lemma toordinal_inj (a b : date) :
  valid_date a -> valid_date b -> toordinal a = toordinal b -> a = b.
Proof.
  assert (forall a b, valid_date a -> valid_date b ->
                      year a < year b -> toordinal a < toordinal b) as Years.
  { intros x z (Yx & Mx & Dx) (Yz & Mz & Dz) L. unfold toordinal, _ymd2ord.
    pose proof (day_of_year_bounds _ _ _ Mx Dx) as Bx.
    pose proof (day_of_year_bounds _ _ _ Mz Dz) as Bz.
    pose proof (days_before_year_step (year x)) as S.
    pose proof (days_before_year_le (year x + 1) (year z) ltac:(lia)). lia. }
  assert (forall a b, valid_date a -> valid_date b -> year a = year b ->
                      month a < month b -> toordinal a < toordinal b) as Months.
  { intros x z (Yx & Mx & Dx) (Yz & Mz & Dz) E L. unfold toordinal, _ymd2ord.
    rewrite E in *.
    pose proof (month_order (year z) (month x) (month z) ltac:(lia) L ltac:(lia)).
    lia. }
  intros Va Vb E.
  destruct (Z.lt_total (year a) (year b)) as [L | [Ey | L]];
    [pose proof (Years a b Va Vb L); lia | | pose proof (Years b a Vb Va L); lia].
  destruct (Z.lt_total (month a) (month b)) as [L | [Em | L]];
    [pose proof (Months a b Va Vb Ey L); lia |
     | pose proof (Months b a Vb Va (eq_sym Ey) L); lia].
  unfold toordinal, _ymd2ord in E. rewrite Ey, Em in E.
  destruct a, b. cbn [year month day] in *. f_equal; lia.
Qed.

(** C2.  A well-formed RFC 1123 timestamp is a day of the week, which
    may be left out, a day and a month of a year written in four
    digits, a time of day, where the seconds may be left out or be 60,
    and a zone, a name or a signed [hhmm].  Its instant is the written
    local time less the offset of the zone.  For such a timestamp with a
    year from 100 on and without a leap second, the normalisation
    returns the UTC calendar day that holds the instant, when that day
    is in the calendar of [date], which ends with the year 9999; when it
    is not, [OverflowError] is raised.  A year below 100 is read as a
    year from 1969 to 2068, and the day returned is that of the instant
    so read.  Seconds of 60 make the normalisation raise [ValueError].
    Any timestamp that the parser reads without an offset gives the date
    read, as UTC: "Tue, 11 Feb 2026 23:30:00" gives 2026-02-11.
    "Tue, 11 Feb 2026 12:00:00 GMT" gives 2026-02-11 and
    "Tue, 11 Feb 2026 23:30:00 -0500" gives 2026-02-12.  The day that
    holds an instant is the only one. *)
Theorem normalization_is_utc_date (b : blob) (w : stamp) :
  well_formed w ->
  last_modified b = Some (text w) ->
  (100 <= w_year w -> w_second w <> Some 60 ->
   (instant w / 86400 <= _MAXORDINAL ->
    exists d, _blob_modified_date b = Ok (Some d)
              /\ valid_date d
              /\ 86400 * toordinal d <= instant w < 86400 * (toordinal d + 1))
   /\ (_MAXORDINAL < instant w / 86400 ->
       _blob_modified_date b
       = Raise (OverflowError (lit "date value out of range"))))
  /\ (w_year w < 100 -> w_second w <> Some 60 ->
      1969 <= w_year (as_read w) <= 2068
      /\ exists d, _blob_modified_date b = Ok (Some d)
                   /\ valid_date d
                   /\ 86400 * toordinal d <= instant (as_read w)
                      < 86400 * (toordinal d + 1))
  /\ (w_second w = Some 60 ->
      _blob_modified_date b = Raise (ValueError (lit "second must be in 0..59")))
  /\ (forall b' s dt,
         last_modified b' = Some s -> parsedate_to_datetime s = Ok dt ->
         tzinfo dt = None ->
         _blob_modified_date b' = Ok (Some (dt_date dt)))
  /\ (forall t d d',
         valid_date d -> valid_date d' ->
         86400 * toordinal d <= t < 86400 * (toordinal d + 1) ->
         86400 * toordinal d' <= t < 86400 * (toordinal d' + 1) ->
         d = d')
  /\ _blob_modified_date (stamped "i" "Tue, 11 Feb 2026 23:30:00")
     = Ok (Some (mkdate 2026 2 11))
  /\ text gmt_noon = lit "Tue, 11 Feb 2026 12:00:00 GMT"
  /\ _blob_modified_date (stamped "g" "Tue, 11 Feb 2026 12:00:00 GMT")
     = Ok (Some (mkdate 2026 2 11))
  /\ text est_evening = lit "Tue, 11 Feb 2026 23:30:00 -0500"
  /\ _blob_modified_date (stamped "h" "Tue, 11 Feb 2026 23:30:00 -0500")
     = Ok (Some (mkdate 2026 2 12)).
Proof.
  intros WF L.
  assert (w_second w <> Some 60 -> seconds w <> 60) as NoLeap.
  { unfold seconds. destruct (w_second w) as [s|]; [|discriminate].
    intros N E. apply N. now rewrite E. }
  pose proof WF as (_ & (Y & _) & _).
  split; [|split; [|split; [|split; [|split;
    [|repeat split; vm_compute; reflexivity]]]]].
  - intros Y100 S. apply NoLeap in S.
    destruct (normalization_of_written b w WF L S) as (In & Out).
    pose proof (instant_day w WF S) as Day.
    pose proof (toordinal_year _ (written_valid w WF ltac:(lia))) as T.
    pose proof (days_before_year_mono (w_year w) ltac:(lia)) as B.
    cbn [written_date year] in T.
    rewrite (as_read_same w Y100) in In, Out.
    split.
    + intros U. apply In. lia.
    + intros U. apply Out. lia.
  - intros Y100 S. apply NoLeap in S.
    assert (1969 <= w_year (as_read w) <= 2068) as R
        by (cbn [as_read w_year]; unfold read_year;
            destruct (Z.ltb_spec (w_year w) 100), (Z.ltb_spec 68 (w_year w)); lia).
    split; [exact R|].
    destruct (normalization_of_written b w WF L S) as (In & _). apply In.
    pose proof (as_read_well_formed w WF) as WF'.
    assert (seconds (as_read w) = seconds w) as Sec by reflexivity.
    pose proof (instant_day (as_read w) WF' ltac:(now rewrite Sec)) as Day.
    pose proof (toordinal_year _ (written_valid _ WF' ltac:(lia))) as T.
    cbn [written_date year] in T.
    pose proof (days_before_year_mono (w_year (as_read w)) ltac:(lia)) as B.
    unfold _MAXORDINAL. lia.
  - intros S. apply (leap_second_refused b w WF L).
    unfold seconds. now rewrite S.
  - intros b' s dt L' P Tz.
    exact (proj2 (proj2 (normalization_of_parsed b' s dt L' P)) Tz).
  - intros t d d' V V' B B'. apply (toordinal_inj d d' V V'). lia.
Qed.

(** X18.  For a well-formed timestamp with a year from 100 on, the
    normalised date is the date written in the timestamp, the day
    before or the day after.  A zone east of UTC never moves the date
    forward, a zone west of UTC never moves it back, and with a zero
    offset the date is the written one. *)
Theorem normalized_date_within_a_day (b : blob) (w : stamp) (d : date) :
  well_formed w -> 100 <= w_year w ->
  last_modified b = Some (text w) ->
  _blob_modified_date b = Ok (Some d) ->
  -1 <= toordinal d - toordinal (written_date w) <= 1
  /\ (0 <= offset (w_zone w) -> toordinal d <= toordinal (written_date w))
  /\ (offset (w_zone w) <= 0 -> toordinal (written_date w) <= toordinal d)
  /\ (offset (w_zone w) = 0 -> d = written_date w).
Proof.
  intros WF Y L E. pose proof (parsedate_written w WF) as P.
  destruct (Z.eqb_spec (seconds w) 60) as [S|S].
  - rewrite (leap_second_refused b w WF L S) in E. discriminate E.
  - rewrite (as_read_same w Y) in P.
    destruct (shift_of_parsed b _ _ d L P E) as (Near & East & West & Same).
    cbn [dt_date tzinfo] in Near, East, West, Same.
    pose proof (read_zone_offset (w_zone w)) as O.
    split; [exact Near|].
    destruct (read_zone (w_zone w)) as [off|]; subst.
    + split; [intros K; now apply (East _ eq_refl)|].
      split; [intros K; now apply (West _ eq_refl)|].
      intros K. apply Same. right. now rewrite K.
    + assert (d = written_date w) as -> by (apply Same; now left).
      repeat split; lia.
Qed.

End Written.

Section WrittenExamples.

Lemma normalization_is_utc_date_witness :
  (exists d,
      _blob_modified_date (stamped "h" "Tue, 11 Feb 2026 23:30:00 -0500")
      = Ok (Some d)
      /\ valid_date d
      /\ 86400 * toordinal d <= instant est_evening < 86400 * (toordinal d + 1))
  /\ text short_form = lit "1 Feb 2026 23:30 +0100"
  /\ (exists d,
         _blob_modified_date (stamped "s" "1 Feb 2026 23:30 +0100") = Ok (Some d)
         /\ valid_date d
         /\ 86400 * toordinal d <= instant short_form < 86400 * (toordinal d + 1))
  /\ _blob_modified_date (stamped "s" "1 Feb 2026 23:30 +0100")
     = Ok (Some (mkdate 2026 2 1))
  /\ _blob_modified_date (stamped "g" "Tue, 11 Feb 2026 12:00:00 GMT")
     = Ok (Some (mkdate 2026 2 11))
  /\ _blob_modified_date (stamped "h" "Tue, 11 Feb 2026 23:30:00 -0500")
     = Ok (Some (mkdate 2026 2 12)).
Proof.
  assert (well_formed est_evening) as WF.
  { repeat split; try (apply Z.leb_le; vm_compute; reflexivity).
    cbn. lia. }
  assert (well_formed short_form) as WF'
      by (repeat split; apply Z.leb_le; vm_compute; reflexivity).
  destruct (normalization_is_utc_date
              (stamped "h" "Tue, 11 Feb 2026 23:30:00 -0500") est_evening WF
              ltac:(vm_compute; reflexivity))
    as (Late & _ & _ & _ & _ & _ & _ & Gmt & _ & Est).
  destruct (normalization_is_utc_date
              (stamped "s" "1 Feb 2026 23:30 +0100") short_form WF'
              ltac:(vm_compute; reflexivity))
    as (Short & _).
  split; [|split; [vm_compute; reflexivity|split;
    [|split; [vm_compute; reflexivity|split; [exact Gmt | exact Est]]]]].
  - apply Late.
    + apply Z.leb_le. vm_compute. reflexivity.
    + discriminate.
    + apply Z.leb_le. vm_compute. reflexivity.
  - apply Short.
    + apply Z.leb_le. vm_compute. reflexivity.
    + discriminate.
    + apply Z.leb_le. vm_compute. reflexivity.
Defined.

(** C2 as stated fails in three ways on well-formed timestamps.  At the
    end of the calendar the UTC day is 1 January of the year 10000 and
    the normalisation raises [OverflowError].  A year below 100 is not
    read as written: noon of 1 January of the year 1 gives 2001-01-01.
    A leap second is refused with [ValueError]. *)
Lemma normalization_fails_on_well_formed_timestamps :
  (well_formed last_evening
   /\ text last_evening = lit "Fri, 31 Dec 9999 23:30:00 -0500"
   /\ _blob_modified_date (stamped "f" "Fri, 31 Dec 9999 23:30:00 -0500")
      = Raise (OverflowError (lit "date value out of range")))
  /\ (well_formed first_noon
      /\ text first_noon = lit "Mon, 01 Jan 0001 12:00:00 GMT"
      /\ instant first_noon / 86400 = toordinal (mkdate 1 1 1)
      /\ _blob_modified_date (stamped "e" "Mon, 01 Jan 0001 12:00:00 GMT")
         = Ok (Some (mkdate 2001 1 1)))
  /\ (well_formed leap_second
      /\ text leap_second = lit "Tue, 30 Jun 2015 23:59:60 GMT"
      /\ _blob_modified_date (stamped "l" "Tue, 30 Jun 2015 23:59:60 GMT")
         = Raise (ValueError (lit "second must be in 0..59"))).
Proof.
  repeat split;
    try (apply Z.leb_le; vm_compute; reflexivity);
    try (vm_compute; reflexivity); cbn; lia.
Qed.

Lemma normalized_date_within_a_day_witness :
  -1 <= toordinal (mkdate 2026 2 12) - toordinal (written_date est_evening) <= 1
  /\ (0 <= offset (w_zone est_evening) ->
      toordinal (mkdate 2026 2 12) <= toordinal (written_date est_evening))
  /\ (offset (w_zone est_evening) <= 0 ->
      toordinal (written_date est_evening) <= toordinal (mkdate 2026 2 12))
  /\ (offset (w_zone est_evening) = 0 -> mkdate 2026 2 12 = written_date est_evening).
Proof.
  apply (normalized_date_within_a_day
           (stamped "h" "Tue, 11 Feb 2026 23:30:00 -0500") est_evening).
  - repeat split; try (apply Z.leb_le; vm_compute; reflexivity). cbn. lia.
  - apply Z.leb_le. vm_compute. reflexivity.
  - vm_compute. reflexivity.
  - vm_compute. reflexivity.
Defined.

End WrittenExamples.


(** ** The range filter and the order of the filters *)

Section Ranges.

(** X19.  [download_range] keeps exactly the records whose UTC date
    lies between the two bounds, both included, in the order of the
    listing; a record without a timestamp is left out. *)
Theorem range_selects_between_bounds (start end_ : date) (records : list blob) :
  normalizable records ->
  exists out,
    select (RangeInclusive start end_) records = Ok out
    /\ out = filter (dated (fun d => date_leb start d && date_leb d end_)) records
    /\ (forall b, In b out
                  <-> In b records
                      /\ exists d, _blob_modified_date b = Ok (Some d)
                                   /\ date_le start d /\ date_le d end_)
    /\ (forall b, In b records -> date_le start end_ ->
                  _blob_modified_date b = Ok (Some start)
                  \/ _blob_modified_date b = Ok (Some end_) -> In b out).
Proof.
  intros N.
  assert (select (RangeInclusive start end_) records
          = Ok (filter (dated (fun d => date_leb start d && date_leb d end_)) records))
    as E.
  { cbn [select]. apply dated_cond; [exact N | reflexivity]. }
  eexists. split; [exact E|]. split; [reflexivity|].
  assert (forall b,
             In b (filter (dated (fun d => date_leb start d && date_leb d end_)) records)
             <-> In b records
                 /\ exists d, _blob_modified_date b = Ok (Some d)
                              /\ date_le start d /\ date_le d end_) as M.
  { intros b. rewrite (comprehension_In _ _ _ E). now rewrite range_cond_true. }
  split; [exact M|].
  intros b Hb Le [Eb | Eb]; apply M; (split; [exact Hb|]).
  - exists start. split; [exact Eb|]. split; [right; reflexivity | exact Le].
  - exists end_. split; [exact Eb|]. split; [exact Le | right; reflexivity].
Qed.

Lemma date_le_trans (a b c : date) : date_le a b -> date_le b c -> date_le a c.
Proof.
  unfold date_le, date_lt. intros [L | ->] [L' | ->]; try tauto.
  left. lia.
Qed.

Lemma select_normalizable (f : DateFilterSpec) (records out : list blob) :
  date_scoped f -> select f records = Ok out -> normalizable records.
Proof.
  intros D E b Hb.
  destruct (_blob_modified_date b) as [d|e] eqn:Eb; [now exists d|].
  exfalso. exact (select_aborts f records b e D Hb Eb out E).
Qed.

Lemma filter_subseq_implies {A : Type} (p q : A -> bool) (l : list A) :
  (forall x, In x l -> p x = true -> q x = true) ->
  subseq (filter p l) (filter q l).
Proof.
  induction l as [|x l IH]; intros I; cbn [filter]; [constructor|].
  assert (subseq (filter p l) (filter q l)) as S
      by (apply IH; intros y Y; apply I; now right).
  destruct (p x) eqn:Px.
  - rewrite (I x (or_introl eq_refl) Px). now constructor.
  - destruct (q x); [now constructor | exact S].
Qed.

(** X20.  Widening a filter never loses a record: what a range selects
    is, in the same order, part of what every range around it selects,
    and that is part of what [download_since] selects from the earlier
    start. *)
Theorem wider_filter_keeps_selection
        (start end_ start' end' : date) (records out : list blob) :
  date_le start' start -> date_le end_ end' ->
  select (RangeInclusive start end_) records = Ok out ->
  exists wider since,
    select (RangeInclusive start' end') records = Ok wider
    /\ select (SinceInclusive start') records = Ok since
    /\ subseq out wider /\ subseq wider since.
Proof.
  intros Ls Le E.
  pose proof (select_normalizable (RangeInclusive start end_) _ _ I E) as N.
  assert (forall f p, select f records
                      = comprehension
                          (fun b => d <- _blob_modified_date b ;;
                                    Ok (match d with Some d => p d | None => false end))
                          records ->
                      select f records = Ok (filter (dated p) records)) as Sel.
  { intros f p ->. apply dated_cond; [exact N | reflexivity]. }
  pose proof (Sel (RangeInclusive start end_) _ eq_refl) as E1.
  pose proof (Sel (RangeInclusive start' end') _ eq_refl) as E2.
  pose proof (Sel (SinceInclusive start') _ eq_refl) as E3.
  rewrite E1 in E. injection E as <-.
  do 2 eexists. split; [exact E2|]. split; [exact E3|]. split.
  - apply filter_subseq_implies. intros b _. unfold dated.
    destruct (_blob_modified_date b) as [[d|]|]; try discriminate.
    rewrite !andb_true_iff, !date_leb_le. intros [A B].
    split; eauto using date_le_trans.
  - apply filter_subseq_implies. intros b _. unfold dated.
    destruct (_blob_modified_date b) as [[d|]|]; try discriminate.
    rewrite andb_true_iff, date_leb_le, date_geb_le. tauto.
Qed.

End Ranges.

Section RangeExamples.

Lemma range_selects_between_bounds_witness :
  exists out,
    select (RangeInclusive feb11 (mkdate 2026 2 12))
           [feb11_first; undated; feb12_first] = Ok out
    /\ out = filter (dated (fun d => date_leb feb11 d
                                     && date_leb d (mkdate 2026 2 12)))
                    [feb11_first; undated; feb12_first]
    /\ (forall b, In b out
                  <-> In b [feb11_first; undated; feb12_first]
                      /\ exists d, _blob_modified_date b = Ok (Some d)
                                   /\ date_le feb11 d
                                   /\ date_le d (mkdate 2026 2 12))
    /\ (forall b, In b [feb11_first; undated; feb12_first] ->
                  date_le feb11 (mkdate 2026 2 12) ->
                  _blob_modified_date b = Ok (Some feb11)
                  \/ _blob_modified_date b = Ok (Some (mkdate 2026 2 12)) ->
                  In b out).
Proof.
  apply range_selects_between_bounds.
  intros b [<- | [<- | [<- | []]]]; eexists; vm_compute; reflexivity.
Defined.

Lemma wider_filter_keeps_selection_witness :
  exists wider since,
    select (RangeInclusive (mkdate 2026 2 10) (mkdate 2026 2 12))
           [feb11_first; undated; feb12_first] = Ok wider
    /\ select (SinceInclusive (mkdate 2026 2 10))
              [feb11_first; undated; feb12_first] = Ok since
    /\ subseq [feb11_first] wider /\ subseq wider since.
Proof.
  apply (wider_filter_keeps_selection feb11 feb11).
  - left. unfold date_lt, feb11. cbn [year month day]. lia.
  - left. unfold date_lt, feb11. cbn [year month day]. lia.
  - vm_compute. reflexivity.
Defined.

End RangeExamples.

(** ** The base URL and the token *)

Section BaseUrl.

Context `{NetlocCheck}.

Lemma scheme_chars_no_marks (s : str) :
  forallb (fun c => has c scheme_chars) s = true ->
  has "?" s = false /\ has "#" s = false /\ has "/" s = false.
Proof.
  induction s as [|c s IH]; [now cbn|].
  cbn [forallb]. rewrite andb_true_iff. intros [C S].
  destruct (IH S) as (Q & F & L). rewrite !has_cons, Q, F, L, !orb_false_r.
  repeat split.
  - destruct (Ascii.eqb "?" c) eqn:E; [|reflexivity].
    apply Ascii.eqb_eq in E. subst c. discriminate C.
  - destruct (Ascii.eqb "#" c) eqn:E; [|reflexivity].
    apply Ascii.eqb_eq in E. subst c. discriminate C.
  - destruct (Ascii.eqb "/" c) eqn:E; [|reflexivity].
    apply Ascii.eqb_eq in E. subst c. discriminate C.
Qed.

Lemma no_delim_no_marks (s : str) :
  forallb (fun c => negb (delim c)) s = true ->
  has "?" s = false /\ has "#" s = false /\ has "/" s = false.
Proof.
  induction s as [|c s IH]; [now cbn|].
  cbn [forallb]. rewrite andb_true_iff. intros [C S].
  destruct (IH S) as (Q & F & L). rewrite !has_cons, Q, F, L, !orb_false_r.
  unfold delim in C. rewrite negb_true_iff, !orb_false_iff in C.
  destruct C as [[C1 C2] C3].
  rewrite (Ascii.eqb_sym "?" c), (Ascii.eqb_sym "#" c), (Ascii.eqb_sym "/" c).
  now rewrite C1, C2, C3.
Qed.

(** X21.  The base URL of an access URL with a scheme and a host holds
    neither [?] nor [#], and the token holds no [#]: the token never
    stays in the base, and a fragment of the access URL is dropped from
    both. *)
Theorem base_url_has_no_query_mark
        (sas_url base params : str) (p : ParseResult) :
  urlparse sas_url = Ok p -> scheme p <> [] -> netloc p <> [] ->
  _base_url sas_url = Ok base -> _sas_params sas_url = Ok params ->
  has "?" base = false /\ has "#" base = false /\ has "#" params = false.
Proof.
  intros P Sc Nl B Q.
  destruct (urlparse_inv _ _ P) as (r & n & U & Es & En & Ep & Eq).
  rewrite Es in Sc. rewrite En in Nl.
  destruct (urlsplit_inv _ _ U Sc Nl)
    as (SL & ND & _ & _ & _ & PQ & PF & _ & QF & _).
  destruct SL as (_ & _ & SC & _).
  destruct (scheme_chars_no_marks _ SC) as (S1 & S2 & _).
  destruct (no_delim_no_marks _ ND) as (N1 & N2 & _).
  unfold _base_url in B. rewrite P in B. cbn [bind] in B. injection B as <-.
  unfold _sas_params in Q. rewrite P in Q. cbn [bind] in Q. injection Q as <-.
  rewrite Es, En, Ep, Eq. split; [|split].
  - rewrite has_app, !has_cons, has_app, S1, N1, (has_firstn _ n _ PQ). reflexivity.
  - rewrite has_app, !has_cons, has_app, S2, N2, (has_firstn _ n _ PF). reflexivity.
  - exact QF.
Qed.

End BaseUrl.

Section BaseUrlExamples.

Lemma base_url_has_no_query_mark_witness :
  has "?" sample_base = false /\ has "#" sample_base = false
  /\ has "#" sample_token = false.
Proof.
  apply (@base_url_has_no_query_mark plain_hosts
           (sample_url ++ lit "#top") sample_base sample_token
           (mkParseResult (lit "https") (lit "acct.blob.core.windows.net")
                          (lit "/reports") [] sample_token (lit "top")));
    try discriminate; vm_compute; reflexivity.
Defined.

End BaseUrlExamples.
